(** * CUPS file API ([cups/file.c]): a shallow embedding and its properties

    The buffered stream handle of libcups ([struct _cups_file_s]) and the
    functions that operate on it are translated to Rocq functions over an
    explicit state.  The operating system (the descriptor behind [fp->fd])
    and zlib (the [z_stream] behind [fp->stream]) are not part of the
    library: the descriptor is modelled by a small record with a script of
    system-call outcomes, zlib by an interface with one concrete instance
    (a codec restricted to stored DEFLATE blocks) used to run examples. *)

From Stdlib Require Import ZArith List Bool Arith Lia Ascii.
Import ListNotations.

Set Implicit Arguments.
Open Scope Z_scope.

(** ** Bytes, arrays and little helpers *)

(** Bytes are kept as their unsigned value in [0, 255].  The buffer of the
    handle is declared [char buf[4096]]; every comparison the code makes on
    it ([!= 0x1f], [& 255], [& 0xe0], ...) gives the same answer on the
    unsigned value. *)
Definition byte := Z.

Definition BUFSIZE : nat := 4096.  (* sizeof(fp->buf) == sizeof(fp->cbuf) *)

Lemma BUFSIZE_Z : Z.of_nat BUFSIZE = 4096.
Proof. reflexivity. Qed.

Global Opaque BUFSIZE.

(** [memcpy]/[read] into the start of an array: the first [length data]
    cells are replaced, the cells after them keep their old contents. *)
Definition overwrite (data old : list byte) : list byte :=
  data ++ skipn (length data) old.

(** [memcpy(dst + at, data, n)] inside an array. *)
Definition overwrite_at (at_ : nat) (data old : list byte) : list byte :=
  firstn at_ old ++ data ++ skipn (at_ + length data) old.

Definition byte_at (a : list byte) (i : nat) : byte := nth i a 0.

Definition is_some {A} (o : option A) : bool :=
  match o with Some _ => true | None => false end.

(** ** zlib's interface *)

Definition Z_OK : Z := 0.
Definition Z_STREAM_END : Z := 1.
Definition Z_STREAM_ERROR : Z := -2.
Definition Z_DATA_ERROR : Z := -3.
Definition Z_BUF_ERROR : Z := -5.
Definition Z_NO_FLUSH : Z := 0.
Definition Z_FINISH : Z := 4.
Definition Z_DEFLATED : Z := 8.

(** *** CRC-32 (zlib's [crc32]) *)

Definition crc_bit (c : Z) : Z :=
  if Z.odd c then Z.lxor (Z.shiftr c 1) 0xEDB88320 else Z.shiftr c 1.

Definition crc_byte (c : Z) (b : byte) : Z :=
  let c := Z.lxor c (Z.land b 255) in
  crc_bit (crc_bit (crc_bit (crc_bit (crc_bit (crc_bit (crc_bit (crc_bit c))))))).

(** [crc32(crc, buf, len)]: the running CRC is kept post-conditioned, as
    zlib does, so that [crc32(0L, Z_NULL, 0)] is [0]. *)
Definition crc32 (crc : Z) (data : list byte) : Z :=
  Z.lxor (fold_left crc_byte data (Z.lxor crc 0xFFFFFFFF)) 0xFFFFFFFF.

Inductive rd_event := RdShort (n : nat) | RdIntr | RdErr.
Inductive wr_event := WrPart (n : nat) | WrIntr | WrErr.

(** ** The descriptor

    What the kernel knows about [fp->fd]: the bytes of the file and the
    file offset on the read side, the bytes accepted so far on the write
    side.  [f_reads] and [f_writes] script the outcomes of the coming
    [read]/[recv] and [write]/[send] calls (a short transfer, an
    interruption, a hard error); once a script is used up every call
    transfers all it can, as on a regular file. *)
Record fdesc := mkFd {
  f_data : list byte;
  f_off : nat;
  f_reads : list rd_event;
  f_out : list byte;
  f_writes : list wr_event;
  f_seekable : bool;
  f_close_fails : bool;
  f_closed : bool
}.

Definition dset_off (v : nat) (d : fdesc) : fdesc :=
  mkFd (f_data d) v (f_reads d) (f_out d) (f_writes d) (f_seekable d) (f_close_fails d) (f_closed d).
Definition dset_reads (v : list rd_event) (d : fdesc) : fdesc :=
  mkFd (f_data d) (f_off d) v (f_out d) (f_writes d) (f_seekable d) (f_close_fails d) (f_closed d).
Definition dset_out (v : list byte) (d : fdesc) : fdesc :=
  mkFd (f_data d) (f_off d) (f_reads d) v (f_writes d) (f_seekable d) (f_close_fails d) (f_closed d).
Definition dset_writes (v : list wr_event) (d : fdesc) : fdesc :=
  mkFd (f_data d) (f_off d) (f_reads d) (f_out d) v (f_seekable d) (f_close_fails d) (f_closed d).
Definition dset_closed (v : bool) (d : fdesc) : fdesc :=
  mkFd (f_data d) (f_off d) (f_reads d) (f_out d) (f_writes d) (f_seekable d) (f_close_fails d) v.

(** A regular file opened for reading, its offset at the start. *)
Definition file_of (data : list byte) : fdesc :=
  mkFd data 0 [] [] [] true false false.

(** A descriptor opened for writing. *)
Definition sink (writes : list wr_event) : fdesc :=
  mkFd [] 0 [] [] writes true false false.

(** Bytes between the file offset and the end of the file. *)
Definition f_rest (d : fdesc) : list byte := skipn (f_off d) (f_data d).

(** One [read(fd, buf, n)]: the value returned, whether [errno] asks for a
    retry ([EINTR]/[EAGAIN]), the bytes stored and the descriptor after. *)
Definition sys_read (d : fdesc) (n : nat) : Z * bool * list byte * fdesc :=
  match f_reads d with
  | [] =>
      let got := firstn n (f_rest d) in
      (Z.of_nat (length got), false, got, dset_off (f_off d + length got)%nat d)
  | RdShort k :: evs =>
      let got := firstn (Nat.min k n) (f_rest d) in
      (Z.of_nat (length got), false, got,
       dset_reads evs (dset_off (f_off d + length got)%nat d))
  | RdIntr :: evs => (-1, true, [], dset_reads evs d)
  | RdErr :: evs => (-1, false, [], dset_reads evs d)
  end.

(** [lseek(fd, pos, SEEK_SET)]. *)
Definition sys_lseek (d : fdesc) (pos : Z) : Z * fdesc :=
  if f_seekable d && (0 <=? pos) then (pos, dset_off (Z.to_nat pos) d)
  else (-1, d).

(** [close(fd)]. *)
Definition sys_close (d : fdesc) : Z * fdesc :=
  (if f_close_fails d then -1 else 0, dset_closed true d).

(** One [write(fd, buf, n)] / [send]: the count returned and whether
    [errno] asks for a retry. *)
Definition sys_write (d : fdesc) (data : list byte) : Z * bool * fdesc :=
  match f_writes d with
  | [] => (Z.of_nat (length data), false, dset_out (f_out d ++ data) d)
  | WrPart k :: evs =>
      let put := firstn k data in
      (Z.of_nat (length put), false, dset_writes evs (dset_out (f_out d ++ put) d))
  | WrIntr :: evs => (-1, true, dset_writes evs d)
  | WrErr :: evs => (-1, false, dset_writes evs d)
  end.

(** ** The handle *)

Section Handle.

(** The types of zlib's internal state, for decompression and for
    compression. *)
Variables istate dstate : Type.

(** What [stream.state] points to: nothing, the state of a decompressor
    ([inflateInit2] ... [inflateEnd]) or of a compressor ([deflateInit2] ...
    [deflateEnd]). *)
Inductive internal_state :=
| ZNone
| ZInflate (s : istate)
| ZDeflate (s : dstate).

(** The fields of [z_stream] the library touches.  [next_in] and [next_out]
    are offsets: into [cbuf] and [buf] when reading, into the caller's
    buffer and [cbuf] when writing. *)
Record z_stream_s := mkStream {
  next_in : nat;
  avail_in : nat;
  next_out : nat;
  avail_out : nat;
  zstate : internal_state
}.

Definition zset_next_in (v : nat) (s : z_stream_s) : z_stream_s :=
  mkStream v (avail_in s) (next_out s) (avail_out s) (zstate s).
Definition zset_avail_in (v : nat) (s : z_stream_s) : z_stream_s :=
  mkStream (next_in s) v (next_out s) (avail_out s) (zstate s).
Definition zset_next_out (v : nat) (s : z_stream_s) : z_stream_s :=
  mkStream (next_in s) (avail_in s) v (avail_out s) (zstate s).
Definition zset_avail_out (v : nat) (s : z_stream_s) : z_stream_s :=
  mkStream (next_in s) (avail_in s) (next_out s) v (zstate s).
Definition zset_zstate (v : internal_state) (s : z_stream_s) : z_stream_s :=
  mkStream (next_in s) (avail_in s) (next_out s) (avail_out s) v.

(** [struct _cups_file_s] ([cups_file_t]).  [ptr] and [end_] ([fp->end]) are offsets from
    [fp->buf], [None] standing for the C null pointer. *)
Record cups_file_s := mkFile {
  fd : fdesc;
  compressed : bool;
  mode : ascii;
  buf : list byte;
  ptr : option nat;
  end_ : option nat;
  is_stdio : bool;
  eof : bool;
  pos : Z;
  bufpos : Z;
  stream : z_stream_s;
  cbuf : list byte;
  crc : Z;
  printf_buffer : option (list byte);
  printf_size : nat
}.

Definition set_fd (v : fdesc) (f : cups_file_s) : cups_file_s :=
  mkFile v (compressed f) (mode f) (buf f) (ptr f) (end_ f) (is_stdio f) (eof f) (pos f) (bufpos f) (stream f) (cbuf f) (crc f) (printf_buffer f) (printf_size f).
Definition set_compressed (v : bool) (f : cups_file_s) : cups_file_s :=
  mkFile (fd f) v (mode f) (buf f) (ptr f) (end_ f) (is_stdio f) (eof f) (pos f) (bufpos f) (stream f) (cbuf f) (crc f) (printf_buffer f) (printf_size f).
Definition set_mode (v : ascii) (f : cups_file_s) : cups_file_s :=
  mkFile (fd f) (compressed f) v (buf f) (ptr f) (end_ f) (is_stdio f) (eof f) (pos f) (bufpos f) (stream f) (cbuf f) (crc f) (printf_buffer f) (printf_size f).
Definition set_buf (v : list byte) (f : cups_file_s) : cups_file_s :=
  mkFile (fd f) (compressed f) (mode f) v (ptr f) (end_ f) (is_stdio f) (eof f) (pos f) (bufpos f) (stream f) (cbuf f) (crc f) (printf_buffer f) (printf_size f).
Definition set_ptr (v : option nat) (f : cups_file_s) : cups_file_s :=
  mkFile (fd f) (compressed f) (mode f) (buf f) v (end_ f) (is_stdio f) (eof f) (pos f) (bufpos f) (stream f) (cbuf f) (crc f) (printf_buffer f) (printf_size f).
Definition set_end (v : option nat) (f : cups_file_s) : cups_file_s :=
  mkFile (fd f) (compressed f) (mode f) (buf f) (ptr f) v (is_stdio f) (eof f) (pos f) (bufpos f) (stream f) (cbuf f) (crc f) (printf_buffer f) (printf_size f).
Definition set_is_stdio (v : bool) (f : cups_file_s) : cups_file_s :=
  mkFile (fd f) (compressed f) (mode f) (buf f) (ptr f) (end_ f) v (eof f) (pos f) (bufpos f) (stream f) (cbuf f) (crc f) (printf_buffer f) (printf_size f).
Definition set_eof (v : bool) (f : cups_file_s) : cups_file_s :=
  mkFile (fd f) (compressed f) (mode f) (buf f) (ptr f) (end_ f) (is_stdio f) v (pos f) (bufpos f) (stream f) (cbuf f) (crc f) (printf_buffer f) (printf_size f).
Definition set_pos (v : Z) (f : cups_file_s) : cups_file_s :=
  mkFile (fd f) (compressed f) (mode f) (buf f) (ptr f) (end_ f) (is_stdio f) (eof f) v (bufpos f) (stream f) (cbuf f) (crc f) (printf_buffer f) (printf_size f).
Definition set_bufpos (v : Z) (f : cups_file_s) : cups_file_s :=
  mkFile (fd f) (compressed f) (mode f) (buf f) (ptr f) (end_ f) (is_stdio f) (eof f) (pos f) v (stream f) (cbuf f) (crc f) (printf_buffer f) (printf_size f).
Definition set_stream (v : z_stream_s) (f : cups_file_s) : cups_file_s :=
  mkFile (fd f) (compressed f) (mode f) (buf f) (ptr f) (end_ f) (is_stdio f) (eof f) (pos f) (bufpos f) v (cbuf f) (crc f) (printf_buffer f) (printf_size f).
Definition set_cbuf (v : list byte) (f : cups_file_s) : cups_file_s :=
  mkFile (fd f) (compressed f) (mode f) (buf f) (ptr f) (end_ f) (is_stdio f) (eof f) (pos f) (bufpos f) (stream f) v (crc f) (printf_buffer f) (printf_size f).
Definition set_crc (v : Z) (f : cups_file_s) : cups_file_s :=
  mkFile (fd f) (compressed f) (mode f) (buf f) (ptr f) (end_ f) (is_stdio f) (eof f) (pos f) (bufpos f) (stream f) (cbuf f) v (printf_buffer f) (printf_size f).
Definition set_printf_buffer (v : option (list byte)) (f : cups_file_s) : cups_file_s :=
  mkFile (fd f) (compressed f) (mode f) (buf f) (ptr f) (end_ f) (is_stdio f) (eof f) (pos f) (bufpos f) (stream f) (cbuf f) (crc f) v (printf_size f).
Definition set_printf_size (v : nat) (f : cups_file_s) : cups_file_s :=
  mkFile (fd f) (compressed f) (mode f) (buf f) (ptr f) (end_ f) (is_stdio f) (eof f) (pos f) (bufpos f) (stream f) (cbuf f) (crc f) (printf_buffer f) v.

End Handle.

Arguments ZNone {istate dstate}.
Arguments ZInflate {istate dstate} s.
Arguments ZDeflate {istate dstate} s.

(** *** The codec behind [inflate] and [deflate]

    The library calls zlib through [inflateInit2], [inflate], [inflateEnd],
    [deflateInit2], [deflate] and [deflateEnd].  A codec core gets the bytes
    at [next_in] (there are [avail_in] of them), the room at [next_out]
    ([avail_out]) and answers with a status, the number of input bytes it
    used, the bytes it produced and its new internal state. *)
Class Zlib (inflate_state deflate_state : Type) : Type := {
  inflateInit2_core : Z -> Z * inflate_state;
  inflate_core : inflate_state -> list byte -> nat -> Z * nat * list byte * inflate_state;
  deflateInit2_core : Z -> Z * deflate_state;
  deflate_core : deflate_state -> list byte -> nat -> Z -> Z * nat * list byte * deflate_state;
  (** the compressor still takes input ([Z_FINISH] not yet asked for) *)
  deflate_open : deflate_state -> bool;
  (** compressed bytes held back inside the compressor *)
  deflate_pending : deflate_state -> nat;
  (** what is left to do once [Z_FINISH] has been asked for *)
  deflate_todo : deflate_state -> nat;
  (** a compressor that could be set up takes input *)
  deflate_init_open : forall level,
    Z_OK <= fst (deflateInit2_core level) ->
    deflate_open (snd (deflateInit2_core level)) = true;
  (** [deflate(Z_NO_FLUSH)] on such a compressor does not fail, leaves it
      taking input and, given input and room, either takes some or hands
      out held-back bytes *)
  deflate_feed : forall s inp room,
    deflate_open s = true ->
    deflate_open (snd (deflate_core s inp room Z_NO_FLUSH)) = true /\
    (Z_OK <= fst (fst (fst (deflate_core s inp room Z_NO_FLUSH))) \/
     fst (fst (fst (deflate_core s inp room Z_NO_FLUSH))) = Z_BUF_ERROR) /\
    (inp <> [] -> (0 < room)%nat ->
     (0 < snd (fst (fst (deflate_core s inp room Z_NO_FLUSH))))%nat \/
     (deflate_pending (snd (deflate_core s inp room Z_NO_FLUSH)) < deflate_pending s)%nat);
  (** [deflate(Z_FINISH)] without input and with room either reports
      [Z_STREAM_END] with nothing more to hand out, or gets closer to it *)
  deflate_finish : forall s room,
    (0 < room)%nat ->
    (fst (fst (fst (deflate_core s [] room Z_FINISH))) = Z_STREAM_END /\
     firstn room (snd (fst (deflate_core s [] room Z_FINISH))) = []) \/
    (deflate_todo (snd (deflate_core s [] room Z_FINISH)) < deflate_todo s)%nat
}.

Section CupsFile.

Context {istate dstate : Type} {ZL : Zlib istate dstate}.

Abbreviation zinternal := (internal_state istate dstate).
Abbreviation z_stream := (z_stream_s istate dstate).
Abbreviation cups_file := (cups_file_s istate dstate).

(** *** zlib calls on the handle's stream *)

(** [inflate(&strm, Z_NO_FLUSH)] seen through zlib's contract: no more
    than [avail_in] bytes are used, no more than [avail_out] produced, and
    a call that neither uses nor produces anything, short of the end of
    the stream, reports [Z_BUF_ERROR]. *)
Definition inflate (s : istate) (inp : list byte) (room : nat)
  : Z * nat * list byte * istate :=
  let '(st, used, out, s') := inflate_core s inp room in
  let used := Nat.min used (length inp) in
  let out := firstn room out in
  if (0 <=? st) && negb (st =? Z_STREAM_END) && (used =? 0)%nat && (length out =? 0)%nat
  then (Z_BUF_ERROR, 0%nat, [], s')
  else (st, used, out, s').

(** [deflate(&strm, flush)] with the same bounds on input and output. *)
Definition deflate (s : dstate) (inp : list byte) (room : nat) (flush : Z)
  : Z * nat * list byte * dstate :=
  let '(st, used, out, s') := deflate_core s inp room flush in
  (st, Nat.min used (length inp), firstn room out, s').


(** ** Raw I/O primitives *)

(** [cups_read]: [read] (or [recv] for a socket) until it gives at least
    0 bytes, going round again when it was interrupted.  Every retry uses
    up one scripted outcome, so the length of the script bounds the loop. *)
Fixpoint cups_read_loop (fuel : nat) (d : fdesc) (bytes : nat) : Z * list byte * fdesc :=
  let '(total, retry, got, d') := sys_read d bytes in
  if 0 <=? total then (total, got, d')
  else if retry then
    match fuel with
    | O => (-1, [], d')
    | S k => cups_read_loop k d' bytes
    end
  else (-1, [], d').

Definition cups_read (fp : cups_file) (bytes : nat) : Z * list byte * cups_file :=
  let '(total, got, d) := cups_read_loop (length (f_reads (fd fp))) (fd fp) bytes in
  (total, got, set_fd d fp).

(** [cups_write]: [write] (or [send]) until all bytes are out. *)
Fixpoint cups_write_loop (fuel : nat) (d : fdesc) (data : list byte) : bool * fdesc :=
  match data with
  | [] => (true, d)
  | _ :: _ =>
      match fuel with
      | O => (false, d)
      | S k =>
          let '(count, retry, d') := sys_write d data in
          if count <? 0 then
            if retry then cups_write_loop k d' data else (false, d')
          else cups_write_loop k d' (skipn (Z.to_nat count) data)
      end
  end.

Definition cups_write (fp : cups_file) (data : list byte) : bool * cups_file :=
  let '(ok, d) := cups_write_loop (S (length (f_writes (fd fp)))) (fd fp) data in
  (ok, set_fd d fp).

(** ** [cups_fill]: fill the input buffer *)

(** The test that sends the first bytes of a file down the "Not a gzip'd
    file!" branch. *)
Definition not_gzip (bytes : Z) (b : list byte) : bool :=
  (bytes <? 10)
  || negb (byte_at b 0 =? 0x1f)
  || negb (Z.land (byte_at b 1) 255 =? 0x8b)
  || negb (byte_at b 2 =? 8)
  || negb (Z.land (byte_at b 3) 0xe0 =? 0).

(** [while (ptr < end && *ptr) ptr ++;] with [n = end - ptr]. *)
Fixpoint skip_string (b : list byte) (p n : nat) : nat :=
  match n with
  | O => p
  | S k => if byte_at b p =? 0 then p else skip_string b (S p) k
  end.

(** "Skip original name data" and "Skip comment data": past the string
    and its terminator, or nothing when the buffer ends first. *)
Definition skip_cstring (b : list byte) (p e : nat) : option nat :=
  let p := skip_string b p (e - p) in
  if (p <? e)%nat then Some (S p) else None.

Definition has_flag (b : list byte) (bit : Z) : bool :=
  negb (Z.land (byte_at b 3) bit =? 0).

(** "Parse header junk": the offset of the first byte of compressed data
    in a buffer holding [e] bytes, [None] on the paths that set [errno] to
    [EIO] and give up. *)
Definition gz_header (b : list byte) (e : nat) : option nat :=
  let p := 10%nat in
  match
    (if has_flag b 0x04 then
       if (e <? p + 2)%nat then None
       else
         let bytes := Z.lor (Z.shiftl (byte_at b (p + 1)) 8) (byte_at b p) in
         let p := (p + (2 + Z.to_nat bytes))%nat in
         if (e <? p)%nat then None else Some p
     else Some p)
  with
  | None => None
  | Some p =>
      match (if has_flag b 0x08 then skip_cstring b p e else Some p) with
      | None => None
      | Some p =>
          match (if has_flag b 0x10 then skip_cstring b p e else Some p) with
          | None => None
          | Some p =>
              if has_flag b 0x02 then
                let p := (p + 2)%nat in
                if (e <? p)%nat then None else Some p
              else Some p
          end
      end
  end.

(** What a block of [cups_fill] does next: leave the function with a
    value ([return (...)]), or fall through to the code after it. *)
Inductive flow : Type :=
| Return (r : Z) (fp : cups_file)
| Next (fp : cups_file).

(** The block under [if (!fp->ptr)]: read the first bytes, decide whether
    they are a gzip header and set the decompressor up. *)
Definition fill_header (fp : cups_file) : flow :=
  let fp := set_compressed false fp in
  let '(bytes, got, fp) := cups_read fp BUFSIZE in
  if bytes <? 0 then Return (-1) (set_eof true fp)
  else
    let fp := set_buf (overwrite got (buf fp)) fp in
    if not_gzip bytes (buf fp) then
      Return bytes (set_end (Some (Z.to_nat bytes)) (set_ptr (Some 0%nat) fp))
    else
      match gz_header (buf fp) (Z.to_nat bytes) with
      | None => Return (-1) (set_eof true fp)
      | Some p =>
          let bytes := (Z.to_nat bytes - p)%nat in
          let fp :=
            if (0 <? bytes)%nat
            then set_cbuf (overwrite (firstn bytes (skipn p (buf fp))) (cbuf fp)) fp
            else fp in
          let '(status, zs) := inflateInit2_core (-15) in
          let fp := set_crc (crc32 0 []) fp in
          if negb (status =? Z_OK) then
            Return (-1) (set_eof true (set_stream (mkStream 0 bytes 0 0 ZNone) fp))
          else
            Next (set_compressed true (set_stream (mkStream 0 bytes 0 0 (ZInflate zs)) fp))
      end.

(** [tcrc]: the first four trailer bytes, little-endian. *)
Definition trailer_crc (t : list byte) : Z :=
  Z.lor (Z.shiftl
    (Z.lor (Z.shiftl
      (Z.lor (Z.shiftl (byte_at t 3) 8) (byte_at t 2)) 8) (byte_at t 1)) 8) (byte_at t 0).

(** The block under [if (status == Z_STREAM_END)]: fetch the 8 trailer
    bytes, from the compression buffer first and from the file for what
    is missing, and compare the CRC. *)
Definition fill_trailer (fp : cups_file) : flow :=
  let st := stream fp in
  let tbytes := if (0 <? avail_in st)%nat then Nat.min (avail_in st) 8 else 0%nat in
  let trailer := firstn tbytes (skipn (next_in st) (cbuf fp)) in
  let fp :=
    if (0 <? avail_in st)%nat
    then set_stream (zset_avail_in (avail_in st - tbytes) (zset_next_in (next_in st + tbytes) st)) fp
    else fp in
  let '(short, trailer, fp) :=
    if (tbytes <? 8)%nat then
      let '(n, _, got, d) := sys_read (fd fp) (8 - tbytes) in
      (n <? Z.of_nat 8 - Z.of_nat tbytes, trailer ++ got, set_fd d fp)
    else (false, trailer, fp) in
  if short then Return (-1) (set_eof true fp)
  else if negb (trailer_crc trailer =? crc fp) then Return (-1) (set_eof true fp)
  else Next (set_compressed false (set_stream (zset_zstate ZNone (stream fp)) fp)).

(** "Fill the decompression buffer as needed". *)
Definition fill_input (fp : cups_file) : flow :=
  if (avail_in (stream fp) =? 0)%nat then
    let '(bytes, got, fp) := cups_read fp BUFSIZE in
    if bytes <=? 0 then Return bytes (set_eof true fp)
    else
      Next (set_stream (zset_avail_in (Z.to_nat bytes) (zset_next_in 0 (stream fp)))
             (set_cbuf (overwrite got (cbuf fp)) fp))
  else Next fp.

(** [inflate(&fp->stream, Z_NO_FLUSH)] on whatever [stream.state] holds;
    zlib answers [Z_STREAM_ERROR] when it is not a decompressor. *)
Definition inflate_stream (z : zinternal) (inp : list byte) (room : nat)
  : Z * nat * list byte * zinternal :=
  match z with
  | ZInflate s =>
      let '(status, used, out, s') := inflate s inp room in
      (status, used, out, ZInflate s')
  | z => (Z_STREAM_ERROR, 0%nat, [], z)
  end.

(** The bytes [next_in] points at: the unread part of the compression
    buffer. *)
Definition window (fp : cups_file) : list byte :=
  firstn (avail_in (stream fp)) (skipn (next_in (stream fp)) (cbuf fp)).

(** "Decompress data from the buffer" and the CRC update that follows:
    the status of [inflate] and the handle after the call. *)
Definition fill_decompress (fp : cups_file) : Z * cups_file :=
  let st := stream fp in
  let '(status, used, out, zs) := inflate_stream (zstate st) (window fp) BUFSIZE in
  let fp :=
    set_stream (mkStream (next_in st + used) (avail_in st - used)
                         (length out) (BUFSIZE - length out) zs)
      (set_buf (overwrite out (buf fp)) fp) in
  let fp :=
    if (0 <? next_out (stream fp))%nat
    then set_crc (crc32 (crc fp) (firstn (next_out (stream fp)) (buf fp))) fp
    else fp in
  (status, fp).

(** The block under [if (fp->compressed)]. *)
Definition fill_inflate (fp : cups_file) : flow :=
  if eof fp then Return 0 fp
  else
    match fill_input fp with
    | Return r fp => Return r fp
    | Next fp =>
        let '(status, fp) := fill_decompress fp in
        match
          (if status =? Z_STREAM_END then fill_trailer fp
           else if status <? Z_OK then Return (-1) (set_eof true fp)
           else Next fp)
        with
        | Return r fp => Return r fp
        | Next fp =>
            let bytes := (BUFSIZE - avail_out (stream fp))%nat in
            let fp := set_end (Some bytes) (set_ptr (Some 0%nat) fp) in
            if (0 <? bytes)%nat then Return (Z.of_nat bytes) fp else Next fp
        end
    end.

(** One turn of [while (!fp->ptr || fp->compressed)]. *)
Definition fill_turn (fp : cups_file) : flow :=
  match (if is_some (ptr fp) then Next fp else fill_header fp) with
  | Return r fp => Return r fp
  | Next fp => if compressed fp then fill_inflate fp else Next fp
  end.

Definition fill_cond (fp : cups_file) : bool :=
  negb (is_some (ptr fp)) || compressed fp.

(** The loop.  [None] is the loop out of fuel; [cups_fill] gives it enough
    (lemma [fill_loop_fuel]). *)
Fixpoint fill_loop (fuel : nat) (fp : cups_file) : option flow :=
  if fill_cond fp then
    match fuel with
    | O => None
    | S k =>
        match fill_turn fp with
        | Return r fp => Some (Return r fp)
        | Next fp => fill_loop k fp
        end
    end
  else Some (Next fp).

(** "Read a buffer's full of data...", the code after the loop. *)
Definition fill_raw (fp : cups_file) : Z * cups_file :=
  let '(bytes, got, fp) := cups_read fp BUFSIZE in
  if bytes <=? 0 then
    (bytes, set_end (Some 0%nat) (set_ptr (Some 0%nat) (set_eof true fp)))
  else
    (bytes, set_end (Some (Z.to_nat bytes)) (set_ptr (Some 0%nat)
              (set_eof false (set_buf (overwrite got (buf fp)) fp)))).

(** Bytes the loop can still feed to the decompressor. *)
Definition fill_measure (fp : cups_file) : nat :=
  (length (f_rest (fd fp)) + (if is_some (ptr fp) then avail_in (stream fp) else 0))%nat.

(** [if (fp->ptr && fp->end) fp->bufpos += fp->end - fp->buf;] *)
Definition fill_enter (fp : cups_file) : cups_file :=
  match ptr fp, end_ fp with
  | Some _, Some e => set_bufpos (bufpos fp + Z.of_nat e) fp
  | _, _ => fp
  end.

Definition cups_fill (fp : cups_file) : Z * cups_file :=
  let fp := fill_enter fp in
  match fill_loop (S (fill_measure fp)) fp with
  | Some (Return r fp) => (r, fp)
  | Some (Next fp) => fill_raw fp
  | None => (-1, set_eof true fp)
  end.


(** ** Opening a handle *)

Definition is_digit (c : ascii) : bool :=
  (48 <=? nat_of_ascii c)%nat && (nat_of_ascii c <=? 57)%nat.

(** [mode[i]], the terminating NUL when the string is shorter. *)
Definition mode_at (m : list ascii) (i : nat) : ascii := nth i m zero.

(** [calloc(1, sizeof(cups_file_t))] with [fp->fd = fd]. *)
Definition calloc_file (d : fdesc) : cups_file :=
  mkFile d false zero (repeat 0 BUFSIZE) None None false false 0 0
         (mkStream 0 0 0 0 ZNone) (repeat 0 BUFSIZE) 0 None 0.

(** The 10 bytes written when a compressed stream is opened. *)
Definition gzip_header (curtime : Z) : list byte :=
  [0x1f; 0x8b; Z_DEFLATED; 0;
   Z.land curtime 255; Z.land (Z.shiftr curtime 8) 255;
   Z.land (Z.shiftr curtime 16) 255; Z.land (Z.shiftr curtime 24) 255;
   0; 0x03].

(** [lseek(fd, 0, SEEK_END)] on a descriptor opened for appending. *)
Definition sys_lseek_end (d : fdesc) : Z :=
  if f_seekable d then Z.of_nat (length (f_data d) + length (f_out d)) else -1.

(** [cupsFileOpenFd(fd, mode)]; [curtime] is what [time(NULL)] returns.
    [None] is the C [NULL]. *)
Definition cupsFileOpenFd (d : fdesc) (m : list ascii) (curtime : Z) : option cups_file :=
  let c := mode_at m 0 in
  if negb (Ascii.eqb c "r" || Ascii.eqb c "w" || Ascii.eqb c "a" || Ascii.eqb c "s")
     || (Ascii.eqb c "a" && is_digit (mode_at m 1))
  then None
  else
    let fp := calloc_file d in
    if Ascii.eqb c "a" || Ascii.eqb c "w" then
      let fp := if Ascii.eqb c "a" then set_pos (sys_lseek_end d) fp else fp in
      let fp := set_end (Some BUFSIZE) (set_ptr (Some 0%nat) (set_mode "w"%char fp)) in
      let l := nat_of_ascii (mode_at m 1) in
      if (49 <=? l)%nat && (l <=? 57)%nat then
        let '(_, fp) := cups_write fp (gzip_header curtime) in
        let '(status, zs) := deflateInit2_core (Z.of_nat l - 48) in
        if status <? Z_OK then None
        else
          Some (set_crc (crc32 0 [])
                 (set_compressed true
                   (set_stream (mkStream 0 0 0 BUFSIZE (ZDeflate zs)) fp)))
      else Some fp
    else if Ascii.eqb c "r" then Some (set_mode "r"%char fp)
    else Some (set_mode "s"%char fp).

(** ** Reading *)

(** Offset of a buffer pointer, the null pointer counting as 0. *)
Definition off (o : option nat) : nat :=
  match o with Some n => n | None => 0%nat end.

(** [fp->ptr >= fp->end] *)
Definition at_end (fp : cups_file) : bool :=
  match ptr fp, end_ fp with
  | Some p, Some e => (e <=? p)%nat
  | None, Some _ => false
  | _, None => true
  end.

Definition readable (fp : cups_file) : bool :=
  Ascii.eqb (mode fp) "r" || Ascii.eqb (mode fp) "s".

(** The loop of [cupsFileRead]; [acc] is what has been copied to the
    caller's buffer, so [total] is its length.  Every turn copies at least
    one byte, which is why [bytes] turns are enough. *)
Fixpoint read_loop (fuel : nat) (fp : cups_file) (bytes : nat) (acc : list byte)
  : Z * list byte * cups_file :=
  match fuel with
  | O => (Z.of_nat (length acc), acc, fp)
  | S k =>
      if (bytes =? 0)%nat then (Z.of_nat (length acc), acc, fp)
      else
        let '(r, fp) := if at_end fp then cups_fill fp else (1, fp) in
        if r <=? 0 then
          if (0 <? length acc)%nat then (Z.of_nat (length acc), acc, fp)
          else (-1, acc, fp)
        else
          let count := Nat.min (off (end_ fp) - off (ptr fp)) bytes in
          let data := firstn count (skipn (off (ptr fp)) (buf fp)) in
          let fp := set_pos (pos fp + Z.of_nat count)
                      (set_ptr (Some (off (ptr fp) + count)%nat) fp) in
          read_loop k fp (bytes - count) (acc ++ data)
  end.

(** [cupsFileRead(fp, buf, bytes)]: the value returned, the bytes stored
    in the caller's buffer and the handle after. *)
Definition cupsFileRead (fp : cups_file) (bytes : nat) : Z * list byte * cups_file :=
  if negb (readable fp) then (-1, [], fp)
  else if (bytes =? 0)%nat then (0, [], fp)
  else if eof fp then (-1, [], fp)
  else read_loop bytes fp bytes [].

(** [cupsFileGetChar] *)
Definition cupsFileGetChar (fp : cups_file) : Z * cups_file :=
  if negb (readable fp) then (-1, fp)
  else if eof fp then (-1, fp)
  else
    let '(r, fp) := if at_end fp then cups_fill fp else (1, fp) in
    if r <=? 0 then (-1, fp)
    else
      (Z.land (byte_at (buf fp) (off (ptr fp))) 255,
       set_ptr (Some (S (off (ptr fp)))) (set_pos (pos fp + 1) fp)).

(** [cupsFilePeekChar] *)
Definition cupsFilePeekChar (fp : cups_file) : Z * cups_file :=
  if negb (readable fp) then (-1, fp)
  else
    let '(r, fp) := if at_end fp then cups_fill fp else (1, fp) in
    if r <=? 0 then (-1, fp)
    else (Z.land (byte_at (buf fp) (off (ptr fp))) 255, fp).

(** [cupsFileRewind] *)
Definition cupsFileRewind (fp : cups_file) : Z * cups_file :=
  if negb (Ascii.eqb (mode fp) "r") then (-1, fp)
  else if bufpos fp =? 0 then
    let fp := set_pos 0 fp in
    (0, if is_some (ptr fp) then set_eof false (set_ptr (Some 0%nat) fp) else fp)
  else
    let fp :=
      if compressed fp
      then set_compressed false (set_stream (zset_zstate ZNone (stream fp)) fp)
      else fp in
    let '(r, d) := sys_lseek (fd fp) 0 in
    let fp := set_fd d fp in
    if negb (r =? 0) then (-1, fp)
    else (0, set_eof false (set_end None (set_ptr None (set_pos 0 (set_bufpos 0 fp))))).

(** [pos >= fp->bufpos && pos < (fp->bufpos + bytes)] *)
Definition in_window (fp : cups_file) (p bytes : Z) : bool :=
  (bufpos fp <=? p) && (p <? bufpos fp + bytes).

(** [while ((bytes = cups_fill(fp)) > 0) if (...) break;] of
    [cupsFileSeek]: the last value of [bytes] and the handle.  The buffer
    anchor moves forward by a whole buffer with every fill, so the target
    is reached or the stream ends within [pos] turns. *)
Fixpoint seek_loop (fuel : nat) (fp : cups_file) (p : Z) : Z * cups_file :=
  let '(bytes, fp) := cups_fill fp in
  if bytes <=? 0 then (bytes, fp)
  else if in_window fp p bytes then (bytes, fp)
  else
    match fuel with
    | O => (0, fp)
    | S k => seek_loop k fp p
    end.

(** [cupsFileSeek] *)
Definition cupsFileSeek (fp : cups_file) (p : Z) : Z * cups_file :=
  if (p <? 0) || negb (Ascii.eqb (mode fp) "r") then (-1, fp)
  else if p =? 0 then cupsFileRewind fp
  else if is_some (ptr fp) && in_window fp p (Z.of_nat (off (end_ fp))) then
    (p, set_eof false (set_ptr (Some (Z.to_nat (p - bufpos fp))) (set_pos p fp)))
  else
    let '(r, fp) :=
      if negb (compressed fp) && negb (is_some (ptr fp)) then cups_fill fp else (1, fp) in
    if r <=? 0 then (-1, fp)
    else
      let fp := set_eof false fp in
      if compressed fp then
        let fp :=
          if p <? bufpos fp then
            (* inflateEnd; lseek(fp->fd, 0, SEEK_SET); ... *)
            let fp := set_stream (zset_zstate ZNone (stream fp)) fp in
            let fp := set_fd (snd (sys_lseek (fd fp) 0)) fp in
            set_end None (set_ptr None (set_pos 0 (set_bufpos 0 fp)))
          else fp in
        let '(bytes, fp) := seek_loop (Z.to_nat p) fp p in
        if bytes <=? 0 then (-1, fp)
        else (p, set_pos p (set_ptr (Some (Z.to_nat (p - bufpos fp))) fp))
      else
        let '(r, d) := sys_lseek (fd fp) p in
        let fp := set_bufpos r (set_fd d fp) in
        let fp := set_end None (set_ptr None (set_pos (bufpos fp) fp)) in
        (pos fp, fp).



(** ** Line readers *)

(** The loop of [cupsFileGets]: [room] is [end - ptr], the cells left in
    the caller's buffer; [line] is what has been stored so far.  [None] is
    the [NULL] returned when the stream ends before any byte of a line. *)
Fixpoint gets_loop (room : nat) (fp : cups_file) (line : list byte)
  : option (list byte) * cups_file :=
  match room with
  | O => (Some line, fp)
  | S k =>
      let '(r, fp) := if at_end fp then cups_fill fp else (1, fp) in
      if r <=? 0 then
        ((if (length line =? 0)%nat then None else Some line), fp)
      else
        let ch := byte_at (buf fp) (off (ptr fp)) in
        let fp := set_pos (pos fp + 1) (set_ptr (Some (S (off (ptr fp)))) fp) in
        if ch =? 13 then
          (* Check for CR LF... *)
          let '(r, fp) := if at_end fp then cups_fill fp else (1, fp) in
          if r <=? 0 then (Some line, fp)
          else if byte_at (buf fp) (off (ptr fp)) =? 10 then
            (Some line, set_pos (pos fp + 1) (set_ptr (Some (S (off (ptr fp)))) fp))
          else (Some line, fp)
        else if ch =? 10 then (Some line, fp)
        else gets_loop k fp (line ++ [ch])
  end.

(** [cupsFileGets(fp, buf, buflen)]: the characters stored in [buf] before
    the terminating NUL. *)
Definition cupsFileGets (fp : cups_file) (buflen : nat) : option (list byte) * cups_file :=
  if negb (readable fp) || (buflen <? 2)%nat then (None, fp)
  else gets_loop (buflen - 1) fp [].

(** *** C strings in an array *)

(** The characters before the first NUL. *)
Fixpoint cstring (b : list byte) : list byte :=
  match b with
  | [] => []
  | x :: b' => if x =? 0 then [] else x :: cstring b'
  end.

(** The string that starts at offset [i]. *)
Definition cstring_at (b : list byte) (i : nat) : list byte := cstring (skipn i b).

Definition strlen (b : list byte) (i : nat) : nat := length (cstring_at b i).

(** [strchr(buf, c)] for a character other than NUL. *)
Fixpoint strchr_from (b : list byte) (i : nat) (c : byte) : option nat :=
  match b with
  | [] => None
  | x :: b' =>
      if x =? c then Some i
      else if x =? 0 then None
      else strchr_from b' (S i) c
  end.

Definition strchr (b : list byte) (c : byte) : option nat := strchr_from b 0 c.

(** [buf[i] = v] *)
Definition poke (b : list byte) (i : nat) (v : byte) : list byte :=
  firstn i b ++ v :: skipn (S i) b.

(** Modelled from the spec: [_cups_isspace] is declared in
    [string-private.h], which is not among the sources; the spec only says
    "whitespace".  This is the C-locale set the CUPS header tests for:
    space, form feed, newline, carriage return, tab and vertical tab. *)
Definition _cups_isspace (ch : Z) : bool :=
  (ch =? 32) || (ch =? 12) || (ch =? 10) || (ch =? 13) || (ch =? 9) || (ch =? 11).

(** Modelled from the spec: [_cups_strcpy] is declared in
    [string-private.h] too; it copies a string, terminator included, to a
    destination that may overlap the source from the left. *)
Definition _cups_strcpy (b : list byte) (dst src : nat) : list byte :=
  firstn dst b ++ cstring_at b src ++ 0 :: skipn (dst + strlen b src + 1) b.

(** [while (ptr > buf) { if (!_cups_isspace(ptr[-1])) break; ptr --; }] *)
Fixpoint strip_back (b : list byte) (p : nat) : nat :=
  match p with
  | O => O
  | S k => if _cups_isspace (byte_at b k) then strip_back b k else p
  end.

(** [for (ptr = buf + p; _cups_isspace(ptr[0]); ptr ++);] *)
Fixpoint skip_space (fuel : nat) (b : list byte) (p : nat) : nat :=
  match fuel with
  | O => p
  | S k => if _cups_isspace (byte_at b p) then skip_space k b (S p) else p
  end.

(** [for (ptr = buf; ptr[0]; ptr ++) if (_cups_isspace(ptr[0])) break;] *)
Fixpoint find_space (fuel : nat) (b : list byte) (p : nat) : nat :=
  match fuel with
  | O => p
  | S k =>
      if byte_at b p =? 0 then p
      else if _cups_isspace (byte_at b p) then p
      else find_space k b (S p)
  end.

(** [while (_cups_isspace(ptr[0])) { ptr[0] = 0; ptr ++; }] *)
Fixpoint zero_space (fuel : nat) (b : list byte) (p : nat) : list byte * nat :=
  match fuel with
  | O => (b, p)
  | S k =>
      if _cups_isspace (byte_at b p) then zero_space k (poke b p 0) (S p)
      else (b, p)
  end.

(** [while (ptr > value[0] && _cups_isspace(ptr[0])) { ptr[0] = 0; ptr --; }];
    a null [value[0]] is below every pointer. *)
Fixpoint strip_trailing (b : list byte) (p : nat) (value : option nat) : list byte :=
  if (match value with Some v => (v <? p)%nat | None => true end)
     && _cups_isspace (byte_at b p)
  then
    match p with
    | O => poke b p 0
    | S k => strip_trailing (poke b p 0) k value
    end
  else b.

(** "Strip any comments..." *)
Definition conf_comment (b : list byte) : list byte :=
  match strchr b 35 (* '#' *) with
  | Some p =>
      if (0 <? p)%nat && (byte_at b (p - 1) =? 92 (* '\\' *))
      then _cups_strcpy b (p - 1) p
      else poke b (strip_back b p) 0
  | None => b
  end.

(** "Strip leading whitespace..." *)
Definition conf_leading (b : list byte) : list byte :=
  let p := skip_space (length b) b 0 in
  if (0 <? p)%nat then _cups_strcpy b 0 p else b.

(** "Yes, grab any value and return...": the array and the value pointer. *)
Definition conf_value (b : list byte) : list byte * option nat :=
  let p := find_space (length b) b 0 in
  if negb (byte_at b p =? 0) then
    let '(b, p) := zero_space (length b) b p in
    let value := if negb (byte_at b p =? 0) then Some p else None in
    let p := (p + strlen b p - 1)%nat in
    if (byte_at b 0 =? 60 (* '<' *)) && (byte_at b p =? 62 (* '>' *)) then
      (strip_trailing (poke b p 0) (p - 1) value, value)
    else if (byte_at b 0 =? 60) && negb (byte_at b p =? 62) then
      (b, None)
    else (strip_trailing b p value, value)
  else (b, None).

(** What [cupsFileGetConf] hands back: the array [buf] (the directive is
    the string at its start), the value pointer as an offset into it, and the line
    number. *)
Record conf := mkConf {
  conf_buf : list byte;
  conf_val : option nat;
  conf_line : Z
}.

Definition directive_of (c : conf) : list byte := cstring_at (conf_buf c) 0.

Definition value_of (c : conf) : option (list byte) :=
  option_map (cstring_at (conf_buf c)) (conf_val c).

(** [while (cupsFileGets(fp, buf, buflen))] of [cupsFileGetConf]; [fuel]
    bounds the number of lines looked at. *)
Fixpoint conf_loop (fuel : nat) (fp : cups_file) (buflen : nat) (linenum : Z)
  : option (option conf * cups_file) :=
  match fuel with
  | O => None
  | S k =>
      match cupsFileGets fp buflen with
      | (None, fp) => Some (None, fp)
      | (Some line, fp) =>
          let linenum := linenum + 1 in
          let b := conf_leading (conf_comment (line ++ [0])) in
          if negb (byte_at b 0 =? 0) then
            let '(b, value) := conf_value b in
            Some (Some (mkConf b value linenum), fp)
          else conf_loop k fp buflen linenum
      end
  end.

(** [cupsFileGetConf(fp, buf, buflen, &value, &linenum)] *)
Definition cupsFileGetConf (fuel : nat) (fp : cups_file) (buflen : nat) (linenum : Z)
  : option (option conf * cups_file) :=
  if negb (readable fp) || (buflen <? 2)%nat then Some (None, fp)
  else conf_loop fuel fp buflen linenum.

(** ** Writing *)

(** The cast [(uInt)bytes] that [cups_compress] applies to its [size_t]
    argument. *)
Definition uInt (n : nat) : nat := Z.to_nat (Z.of_nat n mod 2 ^ 32).

(** [sizeof(fp->cbuf) / 8] *)
Definition CBUF_LOW : nat := 512.

(** One call of [deflate(&fp->stream, flush)] reading from [data] (the
    array [next_in] points into) and writing into [cbuf]. *)
Definition do_deflate (fp : cups_file) (data : list byte) (flush : Z) : Z * cups_file :=
  let st := stream fp in
  match zstate st with
  | ZDeflate s =>
      let inp := firstn (avail_in st) (skipn (next_in st) data) in
      let '(status, used, out, s') := deflate s inp (avail_out st) flush in
      (status,
       set_stream (mkStream (next_in st + used) (avail_in st - used)
                            (next_out st + length out) (avail_out st - length out)
                            (ZDeflate s'))
         (set_cbuf (overwrite_at (next_out st) out (cbuf fp)) fp))
  | _ => (Z_STREAM_ERROR, fp)
  end.

(** [fp->stream.next_out = fp->cbuf; fp->stream.avail_out = sizeof(fp->cbuf);] *)
Definition reset_out (fp : cups_file) : cups_file :=
  set_stream (zset_avail_out BUFSIZE (zset_next_out 0 (stream fp))) fp.

(** [while (fp->stream.avail_in > 0)] of [cups_compress]; [None] is the
    loop out of fuel. *)
Fixpoint compress_loop (fuel : nat) (fp : cups_file) (data : list byte)
  : option (bool * cups_file) :=
  if (avail_in (stream fp) =? 0)%nat then Some (true, fp)
  else
    match fuel with
    | O => None
    | S k =>
        let '(ok, fp) :=
          if (avail_out (stream fp) <? CBUF_LOW)%nat then
            let '(ok, fp) := cups_write fp (firstn (next_out (stream fp)) (cbuf fp)) in
            (ok, if ok then reset_out fp else fp)
          else (true, fp) in
        if negb ok then Some (false, fp)
        else
          let '(status, fp) := do_deflate fp data Z_NO_FLUSH in
          if (status <? Z_OK) && negb (status =? Z_BUF_ERROR) then Some (false, fp)
          else compress_loop k fp data
    end.

(** [cups_compress(fp, buf, bytes)] with [data] the [bytes] bytes at [buf]. *)
Definition cups_compress (fuel : nat) (fp : cups_file) (data : list byte)
  : option (bool * cups_file) :=
  let n := uInt (length data) in
  let fp := set_crc (crc32 (crc fp) (firstn n data)) fp in
  let fp := set_stream (zset_avail_in n (zset_next_in 0 (stream fp))) fp in
  compress_loop fuel fp data.

(** [cupsFileFlush] *)
Definition cupsFileFlush (fuel : nat) (fp : cups_file) : option (bool * cups_file) :=
  if negb (Ascii.eqb (mode fp) "w") then Some (false, fp)
  else
    let bytes := off (ptr fp) in
    if (0 <? bytes)%nat then
      match
        (if compressed fp then cups_compress fuel fp (firstn bytes (buf fp))
         else Some (cups_write fp (firstn bytes (buf fp))))
      with
      | None => None
      | Some (ret, fp) => Some (ret, set_ptr (Some 0%nat) fp)
      end
    else Some (true, fp).

Definition writable (fp : cups_file) : bool :=
  Ascii.eqb (mode fp) "w" || Ascii.eqb (mode fp) "s".

(** The part that [cupsFileWrite], [cupsFilePuts] and [cupsFilePrintf]
    share once the bytes to write are known and the handle is not a
    socket: flush when they do not fit, count them, then compress or
    write them directly when they are larger than the buffer and copy
    them into the buffer otherwise.  [and_flush] is the
    [fp->is_stdio && !cupsFileFlush(fp)] test of the last two. *)
Definition put_bytes (fuel : nat) (fp : cups_file) (data : list byte) (and_flush : bool)
  : option (bool * cups_file) :=
  let bytes := length data in
  match
    (if (off (end_ fp) <? off (ptr fp) + bytes)%nat then cupsFileFlush fuel fp
     else Some (true, fp))
  with
  | None => None
  | Some (false, fp) => Some (false, fp)
  | Some (true, fp) =>
      let fp := set_pos (pos fp + Z.of_nat bytes) fp in
      if (BUFSIZE <? bytes)%nat then
        if compressed fp then cups_compress fuel fp data
        else Some (cups_write fp data)
      else
        let fp := set_ptr (Some (off (ptr fp) + bytes)%nat)
                    (set_buf (overwrite_at (off (ptr fp)) data (buf fp)) fp) in
        if and_flush && is_stdio fp then
          match cupsFileFlush fuel fp with
          | None => None
          | Some (ok, fp) => Some (ok, fp)
          end
        else Some (true, fp)
  end.

(** [cupsFileWrite(fp, buf, bytes)] *)
Definition cupsFileWrite (fuel : nat) (fp : cups_file) (data : list byte)
  : option (bool * cups_file) :=
  if negb (writable fp) then Some (false, fp)
  else if (length data =? 0)%nat then Some (true, fp)
  else if Ascii.eqb (mode fp) "s" then
    let '(ok, fp) := cups_write fp data in
    if ok then Some (true, set_pos (pos fp + Z.of_nat (length data)) fp)
    else Some (false, fp)
  else put_bytes fuel fp data false.

(** [cupsFilePuts(fp, s)] with [s] the characters of the string. *)
Definition cupsFilePuts (fuel : nat) (fp : cups_file) (s : list byte)
  : option (bool * cups_file) :=
  if negb (writable fp) then Some (false, fp)
  else if Ascii.eqb (mode fp) "s" then
    let '(ok, fp) := cups_write fp s in
    if ok then Some (true, set_pos (pos fp + Z.of_nat (length s)) fp)
    else Some (false, fp)
  else put_bytes fuel fp s true.

(** [cupsFilePutChar(fp, c)] *)
Definition cupsFilePutChar (fuel : nat) (fp : cups_file) (c : Z)
  : option (bool * cups_file) :=
  if negb (writable fp) then Some (false, fp)
  else
    let ch := Z.land c 255 in
    if Ascii.eqb (mode fp) "s" then
      let '(count, _, d) := sys_write (fd fp) [ch] in
      let fp := set_fd d fp in
      if count <? 1 then Some (false, fp)
      else Some (true, set_pos (pos fp + 1) fp)
    else
      match (if at_end fp then cupsFileFlush fuel fp else Some (true, fp)) with
      | None => None
      | Some (false, fp) => Some (false, fp)
      | Some (true, fp) =>
          Some (true,
                set_pos (pos fp + 1)
                  (set_ptr (Some (S (off (ptr fp))))
                    (set_buf (overwrite_at (off (ptr fp)) [ch] (buf fp)) fp)))
      end.

(** A C expression of integer type returned from a function declared
    [bool]. *)
Definition bool_of_int (v : Z) : bool := negb (v =? 0).

(** [vsnprintf(buffer, size, format, ap)] given the full rendering of the
    format: what ends up in the buffer. *)
Definition vsnprintf (size : nat) (rendered : list byte) : list byte :=
  firstn (size - 1) rendered ++ [0].

(** [cupsFilePrintf(fp, format, ...)]; [rendered] is the text the format
    and its arguments render to, so [vsnprintf] returns its length.
    [malloc] and [realloc] are taken to succeed. *)
Definition cupsFilePrintf (fuel : nat) (fp : cups_file) (rendered : list byte)
  : option (bool * cups_file) :=
  if negb (writable fp) then Some (false, fp)
  else
    let fp :=
      match printf_buffer fp with
      | None => set_printf_size 1024 (set_printf_buffer (Some (repeat 0 1024)) fp)
      | Some _ => fp
      end in
    let bytes := length rendered in
    let fp := set_printf_buffer (Some (vsnprintf (printf_size fp) rendered)) fp in
    if (printf_size fp <=? bytes)%nat && (65535 <? Z.of_nat bytes) then
      Some (bool_of_int (-1), fp)
    else
      let fp :=
        if (printf_size fp <=? bytes)%nat then
          let fp := set_printf_size (bytes + 1) fp in
          set_printf_buffer (Some (vsnprintf (printf_size fp) rendered)) fp
        else fp in
      let text := firstn bytes (match printf_buffer fp with Some b => b | None => [] end) in
      if Ascii.eqb (mode fp) "s" then
        let '(ok, fp) := cups_write fp text in
        if ok then
          Some (bool_of_int (Z.of_nat bytes), set_pos (pos fp + Z.of_nat bytes) fp)
        else Some (false, fp)
      else put_bytes fuel fp text true.

(** ** Closing *)

(** The loop [for (done = false;;)] of [cupsFileClose]. *)
Fixpoint drain_loop (fuel : nat) (fp : cups_file) (status done : bool)
  : option (bool * bool * cups_file) :=
  let '(status, fp) :=
    if (0 <? next_out (stream fp))%nat then
      let '(ok, fp) := cups_write fp (firstn (next_out (stream fp)) (cbuf fp)) in
      (ok, reset_out fp)
    else (status, fp) in
  if done || negb status then Some (status, done, fp)
  else
    match fuel with
    | O => None
    | S k =>
        let '(zstatus, fp) := do_deflate fp [] Z_FINISH in
        drain_loop k fp status
          ((zstatus =? Z_STREAM_END) && (next_out (stream fp) =? 0)%nat)
    end.

(** "Write the CRC and length..." *)
Definition gzip_trailer (crc pos : Z) : list byte :=
  [Z.land crc 255; Z.land (Z.shiftr crc 8) 255;
   Z.land (Z.shiftr crc 16) 255; Z.land (Z.shiftr crc 24) 255;
   Z.land pos 255; Z.land (Z.shiftr pos 8) 255;
   Z.land (Z.shiftr pos 16) 255; Z.land (Z.shiftr pos 24) 255].

(** What is left when [cupsFileClose] returns: its value, the descriptor,
    whether the handle and its printf buffer were given back to [free],
    and the state still attached to [fp->stream]. *)
Record closed := mkClosed {
  cl_status : bool;
  cl_fd : fdesc;
  cl_freed : bool;
  cl_zstate : zinternal
}.

(** [cupsFileClose] *)
Definition cupsFileClose (fuel : nat) (fp : cups_file) : option closed :=
  match
    (if Ascii.eqb (mode fp) "w" then cupsFileFlush fuel fp else Some (true, fp))
  with
  | None => None
  | Some (status, fp) =>
      match
        (if compressed fp && status then
           if Ascii.eqb (mode fp) "r" then
             Some (status, set_stream (zset_zstate ZNone (stream fp)) fp)
           else
             let fp := set_stream (zset_avail_in 0 (stream fp)) fp in
             match drain_loop fuel fp status false with
             | None => None
             | Some (_, _, fp) =>
                 let '(status, fp) := cups_write fp (gzip_trailer (crc fp) (pos fp)) in
                 Some (status, set_stream (zset_zstate ZNone (stream fp)) fp)
             end
         else Some (status, fp))
      with
      | None => None
      | Some (status, fp) =>
          if is_stdio fp then
            Some (mkClosed status (fd fp) false (zstate (stream fp)))
          else
            let '(r, d) := sys_close (fd fp) in
            let status :=
              if Ascii.eqb (mode fp) "s" then (r =? 0)
              else if r <? 0 then false else status in
            Some (mkClosed status d true (zstate (stream fp)))
      end
  end.

(** ** Vocabulary of the statements *)

(** Fields that no block of [cups_fill] writes. *)
Definition same_place (fp fp' : cups_file) : Prop :=
  pos fp' = pos fp /\ bufpos fp' = bufpos fp /\ mode fp' = mode fp /\
  is_stdio fp' = is_stdio fp /\ printf_buffer fp' = printf_buffer fp /\
  printf_size fp' = printf_size fp.

(** What a finished [cups_fill] looks like, seen from the handle [fp0] the
    loop started with: a failure sets [eof]; a success leaves the cursor
    at the start of a buffer holding [r] bytes. *)
Definition fill_post (fp0 : cups_file) (r : Z) (fp' : cups_file) : Prop :=
  same_place fp0 fp' /\
  ((r <= 0 /\ eof fp' = true /\
    ((ptr fp' = ptr fp0 /\ end_ fp' = end_ fp0) \/
     (ptr fp' = Some 0%nat /\ end_ fp' = Some 0%nat))) \/
   (0 <= r /\ ptr fp' = Some 0%nat /\ end_ fp' = Some (Z.to_nat r) /\
    (Z.to_nat r <= BUFSIZE)%nat /\ (eof fp0 = false -> eof fp' = false))).

Definition loop_post (fp : cups_file) (res : flow) : Prop :=
  match res with
  | Return r fp' => fill_post fp r fp'
  | Next fp' =>
      fill_cond fp' = false /\ same_place fp fp' /\
      (fp' = fp \/ (ptr fp' = Some 0%nat /\ end_ fp' = Some 0%nat /\ eof fp' = false))
  end.

(** The bytes of a file that say "not gzip" whatever its length: a wrong
    magic number, a compression method other than 8, or reserved flag
    bits. *)
Definition bad_gzip_header (b : list byte) : Prop :=
  byte_at b 0 <> 0x1f \/ Z.land (byte_at b 1) 255 <> 0x8b \/
  byte_at b 2 <> 8 \/ Z.land (byte_at b 3) 0xe0 <> 0.


(** The bytes a handle hands over in a series of [cupsFileRead] calls of
    the given sizes. *)
Fixpoint read_all (fp : cups_file) (sizes : list nat) : list byte :=
  match sizes with
  | [] => []
  | n :: ns =>
      let '(_, got, fp') := cupsFileRead fp n in
      got ++ read_all fp' ns
  end.

(** A read handle in pass-through over the regular file [data], its
    logical position at offset [k] of the file: the unread part of the
    buffer is the file from [k] on and the descriptor is just behind it. *)
Definition raw_at (data : list byte) (k : nat) (fp : cups_file) : Prop :=
  mode fp = "r"%char /\ compressed fp = false /\
  f_data (fd fp) = data /\ f_reads (fd fp) = [] /\
  exists p e,
    ptr fp = Some p /\ end_ fp = Some e /\ (p <= e)%nat /\
    f_off (fd fp) = (k + (e - p))%nat /\
    firstn (e - p) (skipn p (buf fp)) = firstn (e - p) (skipn k data) /\
    (k + (e - p) <= length data)%nat /\
    (eof fp = true -> (length data <= k)%nat).

(** A read handle just opened on the regular file [data]. *)
Definition fresh_on (data : list byte) (fp : cups_file) : Prop :=
  mode fp = "r"%char /\ ptr fp = None /\ end_ fp = None /\ eof fp = false /\
  pos fp = 0 /\ bufpos fp = 0 /\ compressed fp = false /\
  f_data (fd fp) = data /\ f_reads (fd fp) = [] /\ f_off (fd fp) = 0%nat /\
  f_seekable (fd fp) = true.

(** Either of the two, for a file whose first buffer fails the gzip
    test. *)
Definition passing (data : list byte) (k : nat) (fp : cups_file) : Prop :=
  raw_at data k fp \/
  (k = 0%nat /\ fresh_on data fp /\
   not_gzip (Z.of_nat (length (firstn BUFSIZE data))) (firstn BUFSIZE data) = true).

(** [fill_reaches fp fp']: the loop of [cups_fill], entered with the
    handle [fp], comes to the top of a turn with the handle [fp']. *)
Inductive fill_reaches : cups_file -> cups_file -> Prop :=
| reach_here fp :
    fill_cond fp = true -> fill_reaches fp fp
| reach_next fp fp1 fp2 :
    fill_cond fp = true -> fill_turn fp = Next fp1 -> fill_reaches fp1 fp2 ->
    fill_reaches fp fp2.

(** The turn that starts with [fp] meets the end of a gzip member: the
    handle right after [inflate] has returned [Z_STREAM_END] and [fp->crc]
    has been brought up to date with the bytes produced. *)
Definition member_end (fp : cups_file) : option cups_file :=
  match (if is_some (ptr fp) then Next fp else fill_header fp) with
  | Next fp1 =>
      if compressed fp1 && negb (eof fp1) then
        match fill_input fp1 with
        | Next fp2 =>
            if fst (fill_decompress fp2) =? Z_STREAM_END
            then Some (snd (fill_decompress fp2))
            else None
        | Return _ _ => None
        end
      else None
  | Return _ _ => None
  end.

(** The 8 bytes that follow the compressed data of the member: what is
    left in the compression buffer, then the file; [None] when there are
    fewer than 8. *)
Definition member_trailer (fp : cups_file) : option (list byte) :=
  let inbuf := firstn (Nat.min (avail_in (stream fp)) 8)
                      (skipn (next_in (stream fp)) (cbuf fp)) in
  let need := (8 - Nat.min (avail_in (stream fp)) 8)%nat in
  if (need =? 0)%nat then Some inbuf
  else
    let '(n, _, got, _) := sys_read (fd fp) need in
    if n <? Z.of_nat need then None else Some (inbuf ++ got).

(** The bytes the [inflate] call of that turn has produced: they stand
    at the start of the buffer. *)
Definition member_output (fp : cups_file) : list byte :=
  firstn (next_out (stream fp)) (buf fp).

(** [delivered fp out fp']: the handle [fp] becomes [fp'] through
    [cups_fill] calls that each hand out data, [out] being that data in
    order; between two fills the reader may move the cursor inside the
    buffer and count the position. *)
Inductive delivered : cups_file -> list byte -> cups_file -> Prop :=
| delivered_none fp : delivered fp [] fp
| delivered_fill fp out fp1 n fp2 :
    delivered fp out fp1 -> cups_fill fp1 = (n, fp2) -> 0 < n ->
    delivered fp (out ++ firstn (Z.to_nat n) (buf fp2)) fp2
| delivered_read fp out fp1 p q :
    delivered fp out fp1 -> is_some (ptr fp1) = true ->
    delivered fp out (set_pos q (set_ptr (Some p) fp1)).

(** The running CRC follows the data handed out: once the buffer is in
    use and as long as the handle is compressed, [fp->crc] is the CRC of
    [out]; before the first fill nothing has been handed out. *)
Definition crc_tracks (out : list byte) (fp : cups_file) : Prop :=
  if is_some (ptr fp) then compressed fp = true -> crc fp = crc32 0 out
  else out = [].

(** Two handles that agree on every field the plain bookkeeping uses. *)
Definition same_base (fp fp' : cups_file) : Prop :=
  mode fp = mode fp' /\ fd fp = fd fp' /\ ptr fp = ptr fp' /\ end_ fp = end_ fp' /\
  eof fp = eof fp' /\ pos fp = pos fp' /\ bufpos fp = bufpos fp' /\
  compressed fp = compressed fp'.

(** ... and on the decompressor and its input. *)
Definition same_codec (fp fp' : cups_file) : Prop :=
  stream fp = stream fp' /\ crc fp = crc fp' /\ window fp = window fp'.

(** Two handles no read can tell apart: they agree on the bookkeeping,
    on the filled part of the buffer and, while a member is being
    decompressed, on the decompressor.  They may differ in what earlier
    use left behind the filled part of the buffers and in the state of a
    decompressor that is not in use. *)
Definition same_view (fp fp' : cups_file) : Prop :=
  same_base fp fp' /\
  firstn (off (end_ fp)) (buf fp) = firstn (off (end_ fp')) (buf fp') /\
  (compressed fp = true -> same_codec fp fp').

(** Handles that agree on the decompressor whether it is in use or not. *)
Definition same_live (fp fp' : cups_file) : Prop :=
  same_view fp fp' /\ same_codec fp fp'.

(** The same outcome of a block on two handles, up to a relation on the
    handles it leaves. *)
Definition same_flow (R : cups_file -> cups_file -> Prop) (a b : flow) : Prop :=
  match a, b with
  | Return r x, Return r' y => r = r' /\ R x y
  | Next x, Next y => R x y
  | _, _ => False
  end.

(** The equation between position, buffer anchor and cursor that holds
    while the buffer is in use. *)
Definition anchored (fp : cups_file) : Prop :=
  match ptr fp with
  | Some p => pos fp = bufpos fp + Z.of_nat p
  | None => True
  end.

(** Two states of a descriptor that differ in the file offset at most. *)
Definition same_file (d d' : fdesc) : Prop := dset_off 0 d' = dset_off 0 d.

(** The handle a block leaves, whichever way it goes on. *)
Definition flow_handle (f : flow) : cups_file :=
  match f with
  | Return _ fp => fp
  | Next fp => fp
  end.

(** The calls that put bytes on a write handle, and the bytes each one
    puts. *)
Inductive write_call : Type :=
| CallWrite (data : list byte)
| CallPuts (s : list byte)
| CallPutChar (c : Z).

Definition call_bytes (c : write_call) : list byte :=
  match c with
  | CallWrite data => data
  | CallPuts s => s
  | CallPutChar c => [Z.land c 255]
  end.

Definition do_call (fuel : nat) (fp : cups_file) (c : write_call)
  : option (bool * cups_file) :=
  match c with
  | CallWrite data => cupsFileWrite fuel fp data
  | CallPuts s => cupsFilePuts fuel fp s
  | CallPutChar c => cupsFilePutChar fuel fp c
  end.

(** A series of calls that all succeed; [None] when one of them fails or
    does not return within [fuel]. *)
Fixpoint write_calls (fuel : nat) (fp : cups_file) (cs : list write_call)
  : option cups_file :=
  match cs with
  | [] => Some fp
  | c :: cs =>
      match do_call fuel fp c with
      | Some (true, fp') => write_calls fuel fp' cs
      | _ => None
      end
  end.







(** [fp->stream.state] belongs to a compressor that has been set up and
    not been given to [deflateEnd]. *)
Definition is_deflate (z : zinternal) : bool :=
  match z with
  | ZDeflate _ => true
  | _ => false
  end.

(** *** Lines of a configuration file *)

(** A run of whitespace. *)
Definition spaces (s : list byte) : bool := forallb _cups_isspace s.

(** Neither the terminator nor the comment character. *)
Definition plain_char (c : byte) : bool := negb (c =? 0) && negb (c =? 35).

(** A directive name: not empty, no whitespace, NUL or [#] in it, and not
    opening with [<]. *)
Definition is_token (s : list byte) : bool :=
  match s with
  | [] => false
  | c :: _ => negb (c =? 60)
  end && forallb (fun c => negb (_cups_isspace c) && plain_char c) s.

(** A value: not empty, no NUL in it, no whitespace at either end. *)
Definition is_text (s : list byte) : bool :=
  negb (_cups_isspace (hd 32 s)) && negb (_cups_isspace (last s 32)) &&
  forallb (fun c => negb (c =? 0)) s.

(** How a value stands in its line, after the name and the whitespace
    that follows it: before a comment, with a [#] of its own written as
    backslash and [#], or as it is at the end of the line. *)
Inductive value_in_line (value : list byte) : list byte -> Prop :=
| value_then_comment trail comment :
    forallb plain_char value = true -> spaces trail = true ->
    last (value ++ trail) 0 <> 92 ->
    value_in_line value (value ++ trail ++ 35 :: comment)
| value_with_escape v1 v2 :
    value = v1 ++ 35 :: v2 -> forallb plain_char v1 = true ->
    value_in_line value (v1 ++ 92 :: 35 :: v2)
| value_to_the_end :
    forallb plain_char value = true ->
    value_in_line value value.

(** The state of the cursor between two operations: inside the buffer
    and in step with the position, or no buffer and the position at the
    anchor. *)
Definition settled (fp : cups_file) : Prop :=
  match ptr fp, end_ fp with
  | Some p, Some e => (p <= e)%nat /\ pos fp = bufpos fp + Z.of_nat p
  | None, None => pos fp = bufpos fp
  | _, _ => False
  end.

(** ** More of the interface *)

(** [cupsFileTell], [cupsFileEOF] and [cupsFileIsCompressed] on a handle
    that is not [NULL]. *)
Definition cupsFileTell (fp : cups_file) : Z := pos fp.
Definition cupsFileEOF (fp : cups_file) : bool := eof fp.
Definition cupsFileIsCompressed (fp : cups_file) : bool := compressed fp.

(** The loop of [cupsFileGetLine]: [room] is [end - ptr] with
    [end = buf + buflen - 2]; [line] is what has been stored so far,
    terminators included. *)
Fixpoint getline_loop (room : nat) (fp : cups_file) (line : list byte)
  : list byte * cups_file :=
  match room with
  | O => (line, fp)
  | S k =>
      let '(r, fp) := if at_end fp then cups_fill fp else (1, fp) in
      if r <=? 0 then (line, fp)
      else
        let ch := byte_at (buf fp) (off (ptr fp)) in
        let fp := set_pos (pos fp + 1) (set_ptr (Some (S (off (ptr fp)))) fp) in
        let line := line ++ [ch] in
        if ch =? 13 then
          (* Check for CR LF... *)
          let '(r, fp) := if at_end fp then cups_fill fp else (1, fp) in
          if r <=? 0 then (line, fp)
          else if byte_at (buf fp) (off (ptr fp)) =? 10 then
            (line ++ [byte_at (buf fp) (off (ptr fp))],
             set_pos (pos fp + 1) (set_ptr (Some (S (off (ptr fp)))) fp))
          else (line, fp)
        else if ch =? 10 then (line, fp)
        else getline_loop k fp line
  end.

(** [cupsFileGetLine(fp, buf, buflen)]: the number of bytes on the line,
    the bytes stored before the terminating NUL, and the handle. *)
Definition cupsFileGetLine (fp : cups_file) (buflen : nat) : Z * list byte * cups_file :=
  if negb (readable fp) || (buflen <? 3)%nat then (0, [], fp)
  else
    let '(line, fp) := getline_loop (buflen - 2) fp [] in
    (Z.of_nat (length line), line, fp).

(** *** Vocabulary for uncompressed files *)

(** The gzip test fails on what a first read at offset [k] of the file
    delivers. *)
Definition plain_from (data : list byte) (k : nat) : bool :=
  not_gzip (Z.of_nat (length (firstn BUFSIZE (skipn k data))))
           (firstn BUFSIZE (skipn k data)).

(** A read handle on the regular file [data], uncompressed, its logical
    position at offset [k].  With a buffer: the buffer holds the [e]
    bytes of the file from offset [b] on, the cursor stands at [k - b]
    and the descriptor just behind the buffer.  Without one (just opened,
    or after a seek): the descriptor stands at [k] and what comes there
    will not be taken for a gzip header. *)
Definition plain_at (data : list byte) (k : nat) (fp : cups_file) : Prop :=
  mode fp = "r"%char /\ compressed fp = false /\
  f_data (fd fp) = data /\ f_reads (fd fp) = [] /\ f_seekable (fd fp) = true /\
  pos fp = Z.of_nat k /\
  match ptr fp, end_ fp with
  | Some p, Some e =>
      exists b,
        bufpos fp = Z.of_nat b /\ k = (b + p)%nat /\ (p <= e)%nat /\
        f_off (fd fp) = (b + e)%nat /\
        firstn e (buf fp) = firstn e (skipn b data) /\
        (e <= length data - b)%nat /\
        (eof fp = true -> (length data <= k)%nat)
  | None, None =>
      bufpos fp = Z.of_nat k /\ f_off (fd fp) = k /\ eof fp = false /\
      plain_from data k = true
  | _, _ => False
  end.

(** A byte that ends no line. *)
Definition in_line (c : byte) : bool := negb (c =? 13) && negb (c =? 10).

(** The ways a line ends in a file: LF, CR LF, or CR followed by
    something else than LF ([rest] is what comes after). *)
Definition line_end (term rest : list byte) : bool :=
  match term with
  | [c] => (c =? 10) || ((c =? 13) && negb (hd 0 rest =? 10))
  | [c; d] => (c =? 13) && (d =? 10)
  | _ => false
  end.

(** *** Vocabulary for uncompressed writing *)

(** An uncompressed write handle on a file that held [out0] when it was
    opened, on which the bytes [w] have been written since: the file
    holds [out0] and the first part of [w], the buffer the rest.  No
    [write] on the descriptor will fail for good; it may write less than
    asked or be interrupted. *)
Definition storing (out0 w : list byte) (fp : cups_file) : Prop :=
  mode fp = "w"%char /\ compressed fp = false /\
  (exists p, ptr fp = Some p /\ (p <= BUFSIZE)%nat) /\
  end_ fp = Some BUFSIZE /\ length (buf fp) = BUFSIZE /\
  ~ In WrErr (f_writes (fd fp)) /\
  f_out (fd fp) ++ firstn (off (ptr fp)) (buf fp) = out0 ++ w.

(** *** Writing configuration lines *)

(** [if (!call(...)) return (false);]: the next call is made on the
    handle the previous one leaves, when it returned [true]. *)
Definition and_then (r : option (bool * cups_file))
                    (k : cups_file -> option (bool * cups_file))
  : option (bool * cups_file) :=
  match r with
  | None => None
  | Some (false, fp) => Some (false, fp)
  | Some (true, fp) => k fp
  end.

(** [cupsFilePutConf(fp, directive, value)]: [directive] is the
    characters of a string that is not [NULL], [value] is [None] for
    [NULL] and the characters of the string otherwise. *)
Definition cupsFilePutConf (fuel : nat) (fp : cups_file)
                           (directive : list byte) (value : option (list byte))
  : option (bool * cups_file) :=
  if (length directive =? 0)%nat then Some (false, fp)
  else
    and_then (cupsFilePuts fuel fp directive) (fun fp =>
    and_then (cupsFilePutChar fuel fp 32) (fun fp =>
    and_then
      (match value with
       | Some ((_ :: _) as v) =>
           match strchr (v ++ [0]) 35 with
           | Some p =>
               (* Need to quote the first # in the info string... *)
               and_then (cupsFileWrite fuel fp (firstn p v)) (fun fp =>
               and_then (cupsFilePutChar fuel fp 92) (fun fp =>
               cupsFilePuts fuel fp (skipn p v)))
           | None => cupsFilePuts fuel fp v
           end
       | _ => Some (true, fp)
       end) (fun fp =>
    cupsFilePutChar fuel fp 10))).

(** A value with a backslash set before its first [#]. *)
Fixpoint quoted (value : list byte) : list byte :=
  match value with
  | [] => []
  | c :: v => if c =? 35 then 92 :: c :: v else c :: quoted v
  end.

(** The line of a configuration file for a directive and a value,
    without its line feed. *)
Definition conf_written (directive : list byte) (value : option (list byte)) : list byte :=
  directive ++ 32 :: match value with Some v => quoted v | None => [] end.

(** A line without a directive: whitespace only, or whitespace and a
    comment. *)
Definition no_directive (line : list byte) : Prop :=
  exists lead body, line = lead ++ body /\ spaces lead = true /\
    (body = [] \/ exists text, body = 35 :: text).

End CupsFile.

(** ** A codec for stored blocks

    DEFLATE allows a block to carry its bytes uncompressed ("stored",
    block type 00): one header byte whose lowest bit marks the last block,
    the length and its one's complement as two little-endian 16-bit
    numbers, then the bytes.  A decoder and an encoder restricted to such
    blocks are enough to run the library on real gzip files. *)
Module Stored.

Inductive dec :=
| DHead                                   (* at a block header *)
| DLen0 (final : bool)
| DLen1 (final : bool) (lo : Z)
| DNlen0 (final : bool) (len : Z)
| DNlen1 (final : bool) (len lo : Z)
| DCopy (final : bool) (rest : nat)       (* inside the bytes of a block *)
| DDone
| DBad.

Definition after_block (final : bool) : dec := if final then DDone else DHead.

(** One input byte outside the data of a block. *)
Definition dec_byte (s : dec) (b : Z) : dec :=
  match s with
  | DHead => if Z.land (Z.shiftr b 1) 3 =? 0 then DLen0 (Z.odd b) else DBad
  | DLen0 f => DLen1 f (Z.land b 255)
  | DLen1 f lo => DNlen0 f (lo + 256 * Z.land b 255)
  | DNlen0 f len => DNlen1 f len (Z.land b 255)
  | DNlen1 f len lo =>
      if lo + 256 * Z.land b 255 =? 65535 - len then
        if len =? 0 then after_block f else DCopy f (Z.to_nat len)
      else DBad
  | s => s
  end.

(** Run over the input until it or the room ends: bytes used, bytes
    produced and the state reached. *)
Fixpoint dec_run (s : dec) (inp : list byte) (room : nat) : nat * list byte * dec :=
  match s, inp with
  | DDone, _ | DBad, _ | _, [] => (0%nat, [], s)
  | DCopy f rest, b :: inp' =>
      match room, rest with
      | S room', S rest' =>
          let s' := match rest' with O => after_block f | _ => DCopy f rest' end in
          let '(used, out, s'') := dec_run s' inp' room' in
          (S used, b :: out, s'')
      | _, _ => (0%nat, [], s)
      end
  | _, b :: inp' =>
      let '(used, out, s') := dec_run (dec_byte s b) inp' room in
      (S used, out, s')
  end.

Definition dec_status (s : dec) : Z :=
  match s with
  | DDone => Z_STREAM_END
  | DBad => Z_DATA_ERROR
  | _ => Z_OK
  end.

Definition run_inflate (s : dec) (inp : list byte) (room : nat)
  : Z * nat * list byte * dec :=
  let '(used, out, s') := dec_run s inp room in
  (dec_status s', used, out, s').

(** The encoder: what it still has to hand out, and whether the last
    block has been made. *)
Record enc := mkEnc { held : list byte; finished : bool }.

(** A stored block that is not the last one. *)
Definition block (final : bool) (data : list byte) : list byte :=
  let n := Z.of_nat (length data) in
  [if final then 1 else 0; Z.land n 255; Z.shiftr n 8;
   Z.land (65535 - n) 255; Z.shiftr (65535 - n) 8] ++ data.

(** [deflate]: the input, at most a buffer of it, becomes one block;
    [Z_FINISH] adds an empty last block once.  Input that comes after
    the last block was asked for is refused.

    This encoder hands every block out as soon as it has the input,
    where zlib at the levels 1 to 9 holds input back until a block is
    worth making.  Both meet the contract of the class [Zlib]; what is
    stated of the library is proved for every instance of the class,
    and this one only runs the statements on sample files. *)
Definition run_deflate (s : enc) (inp : list byte) (room : nat) (flush : Z)
  : Z * nat * list byte * enc :=
  let take := if finished s then [] else firstn BUFSIZE inp in
  let made :=
    (if (0 <? length take)%nat then block false take else []) ++
    (if (flush =? Z_FINISH) && negb (finished s) then block true [] else []) in
  let all := held s ++ made in
  let s' := mkEnc (skipn room all) (finished s || (flush =? Z_FINISH)) in
  ((if (flush =? Z_FINISH) && (length (held s') =? 0)%nat then Z_STREAM_END
    else if finished s && (0 <? length inp)%nat then Z_BUF_ERROR
    else Z_OK),
   length take, firstn room all, s').

Definition todo (s : enc) : nat :=
  (length (held s) + (if finished s then 0 else 6))%nat.

Lemma deflate_feed_ok s inp room :
  finished s = false ->
  finished (snd (run_deflate s inp room Z_NO_FLUSH)) = false /\
  (Z_OK <= fst (fst (fst (run_deflate s inp room Z_NO_FLUSH))) \/
   fst (fst (fst (run_deflate s inp room Z_NO_FLUSH))) = Z_BUF_ERROR) /\
  (inp <> [] -> (0 < room)%nat ->
   (0 < snd (fst (fst (run_deflate s inp room Z_NO_FLUSH))))%nat \/
   (length (held (snd (run_deflate s inp room Z_NO_FLUSH))) < length (held s))%nat).
Proof.
  intros F. unfold run_deflate. rewrite F. cbn [fst snd held finished negb andb orb].
  replace (Z_NO_FLUSH =? Z_FINISH) with false by reflexivity.
  cbn [andb orb]. repeat split.
  - left. unfold Z_OK. lia.
  - intros Hinp _. left. destruct inp as [|b inp]; [contradiction|].
    rewrite length_firstn. cbn [length]. pose proof BUFSIZE_Z. lia.
Qed.

Lemma deflate_finish_ok s room :
  (0 < room)%nat ->
  (fst (fst (fst (run_deflate s [] room Z_FINISH))) = Z_STREAM_END /\
   firstn room (snd (fst (run_deflate s [] room Z_FINISH))) = []) \/
  (todo (snd (run_deflate s [] room Z_FINISH)) < todo s)%nat.
Proof.
  intros Hroom. unfold run_deflate, todo.
  replace (Z_FINISH =? Z_FINISH) with true by reflexivity.
  destruct (finished s) eqn:F; rewrite ?firstn_nil;
    cbn [length Nat.ltb Nat.leb app fst snd held finished andb orb negb].
  - rewrite app_nil_r.
    destruct (held s) as [|h hs] eqn:H.
    + left. destruct room; [lia|]. split; reflexivity.
    + right. rewrite length_skipn. cbn [length]. lia.
  - right. rewrite length_skipn, length_app. cbn [block length app]. lia.
Qed.

Definition zlib : Zlib dec enc :=
  {| inflateInit2_core := fun _ => (Z_OK, DHead);
     inflate_core := run_inflate;
     deflateInit2_core := fun _ => (Z_OK, mkEnc [] false);
     deflate_core := run_deflate;
     deflate_open := fun s => negb (finished s);
     deflate_pending := fun s => length (held s);
     deflate_todo := todo;
     deflate_init_open := fun _ _ => eq_refl;
     deflate_feed := fun s inp room H =>
       match deflate_feed_ok s inp room (proj1 (negb_true_iff _) H) with
       | conj A B => conj (proj2 (negb_true_iff _) A) B
       end;
     deflate_finish := deflate_finish_ok |}.

End Stored.

(** ** Sample files and handles

    Concrete inputs on which the statements below are run, with the
    stored-block codec standing for zlib. *)
Module Sample.

Definition file : Type := cups_file_s Stored.dec Stored.enc.

(** A handle opened with [cupsFileOpenFd(fd, "r")] on a regular file. *)
Definition reader (data : list byte) : file :=
  set_mode "r"%char (calloc_file (file_of data)).

(** A gzip member as [cupsFileOpenFd(fd, "w9")], [cupsFileWrite] and
    [cupsFileClose] produce it: header, one stored block, CRC and
    length. *)
Definition member (data : list byte) : list byte :=
  gzip_header 0 ++ Stored.block true data ++
  gzip_trailer (crc32 0 data) (Z.of_nat (length data)).

(** The first five bytes of a gzip file. *)
Definition magic5 : list byte := [0x1f; 0x8b; 8; 0; 0].

(** Plain text. *)
Definition hello : list byte := [104; 101; 108; 108; 111; 10].

(** The member of "a" with the lowest bit of its stored CRC flipped. *)
Definition corrupt : list byte :=
  gzip_header 0 ++ Stored.block true [97] ++
  gzip_trailer (Z.lxor (crc32 0 [97]) 1) 1.

(** The member of 5000 times "a", more than one buffer, with the lowest
    bit of its stored CRC flipped. *)
Definition corrupt_long : list byte :=
  gzip_header 0 ++ Stored.block true (repeat 97 5000) ++
  gzip_trailer (Z.lxor (crc32 0 (repeat 97 5000)) 1) 5000.

(** The handle on [corrupt_long] after the first fill, which hands out
    the first 4081 bytes. *)
Definition corrupt_long_filled : file :=
  snd (cups_fill (ZL := Stored.zlib) (reader corrupt_long)).

(** ... and at the end of the member, which the second fill meets. *)
Definition corrupt_long_end : file :=
  match member_end (ZL := Stored.zlib) (fill_enter corrupt_long_filled) with
  | Some fp => fp
  | None => corrupt_long_filled
  end.

(** The member of "abc". *)
Definition abc_gz : list byte := member [97; 98; 99].

(** A gzip file cut short: the header and a stored block that announces
    four bytes and holds two, "ab". *)
Definition truncated : list byte := gzip_header 0 ++ [1; 4; 0; 251; 255; 97; 98].

(** Two members, of "a" and of "b", one after the other. *)
Definition two_members : list byte := member [97] ++ member [98].

(** A handle opened with [cupsFileOpenFd(fd, mode)] for writing; the
    descriptor comes with a script for its [write] calls. *)
Definition writer (m : list ascii) (writes : list wr_event) : file :=
  match cupsFileOpenFd (ZL := Stored.zlib) (sink writes) m 0 with
  | Some fp => fp
  | None => calloc_file (sink writes)
  end.

(** What a write call leaves, for calls that are known to return. *)
Definition after (r : option (bool * file)) (fp : file) : file :=
  match r with
  | Some (_, fp') => fp'
  | None => fp
  end.

(** The calls [cupsFileWrite(fp, "a", 1)], [cupsFilePuts(fp, "b")] and
    [cupsFilePutChar(fp, 'c')]. *)
Definition abc_calls : list write_call :=
  [CallWrite [97]; CallPuts [98]; CallPutChar 99].

(** A compressed handle after these calls. *)
Definition abc_written : file :=
  match write_calls (ZL := Stored.zlib) 8 (writer ["w"; "9"]%char []) abc_calls with
  | Some fp => fp
  | None => writer ["w"; "9"]%char []
  end.

(** The file holding the one line "key value # comment". *)
Definition conf_text : list byte :=
  [107; 101; 121; 32; 118; 97; 108; 117; 101; 32; 35; 32;
   99; 111; 109; 109; 101; 110; 116; 10].

(** The file holding the one line "  key a\#b c", with a backslash
    before the [#]. *)
Definition conf_escaped : list byte :=
  [32; 32; 107; 101; 121; 32; 97; 92; 35; 98; 32; 99; 10].

(** The file holding the one line "key a\#b # c": a [#] behind a
    backslash, then a comment. *)
Definition conf_escaped_comment : list byte :=
  [107; 101; 121; 32; 97; 92; 35; 98; 32; 35; 32; 99; 10].

(** A text of 65536 characters. *)
Definition long_text : list byte := repeat 120 (Z.to_nat 65536).

(** A compressed handle with one byte written; of the three writes its
    descriptor will see, the second one fails. *)
Definition drain_fails : file :=
  after (cupsFileWrite (ZL := Stored.zlib) 8 (writer ["w"; "9"]%char [WrPart 10; WrErr]) [97])
        (writer ["w"; "9"]%char [WrPart 10; WrErr]).

(** Bytes that do not compress: the third byte of each state of the
    generator [x := (1103515245 * x + 12345) mod 2^32]. *)
Fixpoint noise (n : nat) (x : Z) : list byte :=
  match n with
  | O => []
  | S k =>
      let x := (x * 1103515245 + 12345) mod 2 ^ 32 in
      Z.land (Z.shiftr x 16) 255 :: noise k x
  end.

(** A compressed handle on which 65536 such bytes, the generator begun
    at 1, and then the byte "a" have been written with two
    [cupsFileWrite] calls; from now on the next [write] on its
    descriptor fails. *)
Definition flush_fails : file :=
  let fp0 := writer ["w"; "9"]%char [] in
  let fp1 := after (cupsFileWrite (ZL := Stored.zlib) 64 fp0 (noise (Z.to_nat 65536) 1)) fp0 in
  let fp2 := after (cupsFileWrite (ZL := Stored.zlib) 64 fp1 [97]) fp1 in
  set_fd (dset_writes [WrErr] (fd fp2)) fp2.

(** A handle on the file "hello" whose descriptor will be interrupted
    twice and then deliver two bytes. *)
Definition interrupted : file :=
  set_fd (dset_reads [RdIntr; RdIntr; RdShort 2] (file_of hello)) (reader hello).

(** A text without a line end, "hi". *)
Definition no_newline : list byte := [104; 105].

(** An uncompressed handle opened with [cupsFileOpenFd(fd, "w")]. *)
Definition plain_writer : file := writer ["w"%char] [].

(** The name "key" and the value "a#b". *)
Definition key : list byte := [107; 101; 121].
Definition a_hash_b : list byte := [97; 35; 98].

(** The file holding the line "key a\#b", as [cupsFilePutConf] writes
    it for this name and value. *)
Definition conf_quoted : list byte := [107; 101; 121; 32; 97; 92; 35; 98; 10].

(** The file holding a comment line and the line "key v". *)
Definition conf_commented : list byte :=
  [35; 32; 99; 10; 107; 101; 121; 32; 118; 10].

(** The file holding the line "key ", a name with a space behind it. *)
Definition conf_bare : list byte := [107; 101; 121; 32; 10].

(** A text of 2000 characters. *)
Definition text_2000 : list byte := repeat 120 2000.

End Sample.

Section CupsFileFacts.

Context {istate dstate : Type} {ZL : Zlib istate dstate}.

Abbreviation zinternal := (internal_state istate dstate).
Abbreviation z_stream := (z_stream_s istate dstate).
Abbreviation cups_file := (cups_file_s istate dstate).

Implicit Types fp fpk fpe : cups_file.

(** ** Facts about the primitives *)

Lemma overwrite_firstn (data old : list byte) :
  firstn (length data) (overwrite data old) = data.
Proof.
  unfold overwrite. rewrite firstn_app, Nat.sub_diag, firstn_all. simpl.
  apply app_nil_r.
Qed.

Lemma skipn_length_firstn {A} (k : nat) (l : list A) :
  skipn (length (firstn k l)) l = skipn k l.
Proof.
  revert l; induction k as [|k IH]; intros [|x l]; simpl; auto.
Qed.

Lemma f_rest_advance d k :
  f_rest d = firstn k (f_rest d) ++
             f_rest (dset_off (f_off d + length (firstn k (f_rest d))) d).
Proof.
  unfold f_rest at 3. simpl.
  rewrite Nat.add_comm, <- skipn_skipn. fold (f_rest d).
  rewrite skipn_length_firstn. symmetry. apply firstn_skipn.
Qed.

(** A [read] either fails and moves nothing, or hands over the next bytes
    of the file. *)
Lemma sys_read_spec d n t r got d' :
  sys_read d n = (t, r, got, d') ->
  (t = -1 /\ got = [] /\ f_rest d' = f_rest d /\
   (length (f_reads d') < length (f_reads d))%nat) \/
  (t = Z.of_nat (length got) /\ r = false /\ f_rest d = got ++ f_rest d' /\
   (length got <= n)%nat /\ (length (f_reads d') <= length (f_reads d))%nat).
Proof.
  unfold sys_read. destruct (f_reads d) as [|[k| |] evs] eqn:E; intros H;
    inversion H; subst; clear H.
  - right. repeat split; auto.
    + apply f_rest_advance.
    + rewrite length_firstn. lia.
    + simpl. rewrite E. simpl. lia.
  - right. repeat split; auto.
    + apply (f_rest_advance d (Nat.min k n)).
    + rewrite length_firstn. lia.
    + simpl. lia.
  - left. simpl. repeat split; auto.
  - left. simpl. repeat split; auto.
Qed.

Lemma cups_read_loop_spec fuel : forall d n t got d',
  cups_read_loop fuel d n = (t, got, d') ->
  (t = -1 /\ got = [] /\ f_rest d' = f_rest d) \/
  (t = Z.of_nat (length got) /\ f_rest d = got ++ f_rest d' /\ (length got <= n)%nat).
Proof.
  induction fuel as [|k IH]; intros d n t got d'; simpl;
    destruct (sys_read d n) as [[[t0 r0] got0] d0] eqn:E;
    destruct (sys_read_spec _ _ E) as [(-> & -> & Hr & Hl)|(-> & -> & Hr & Hl & _)].
  - simpl. destruct r0; intros H; inversion H; subst; auto.
  - destruct (0 <=? _) eqn:T; [|lia]. intros H; inversion H; subst; auto.
  - simpl. destruct r0; intros H.
    + destruct (IH _ _ _ _ _ H) as [(-> & -> & Hr')|(-> & Hr' & Hl')].
      * left. repeat split; congruence.
      * right. repeat split; auto. congruence.
    + inversion H; subst; auto.
  - destruct (0 <=? _) eqn:T; [|lia]. intros H; inversion H; subst; auto.
Qed.

Lemma cups_read_spec fp n t got fp' :
  cups_read fp n = (t, got, fp') ->
  fp' = set_fd (fd fp') fp /\
  ((t = -1 /\ got = [] /\ f_rest (fd fp') = f_rest (fd fp)) \/
   (t = Z.of_nat (length got) /\ f_rest (fd fp) = got ++ f_rest (fd fp') /\
    (length got <= n)%nat)).
Proof.
  unfold cups_read.
  destruct (cups_read_loop _ _ _) as [[t0 got0] d0] eqn:E.
  intros H; inversion H; subst; clear H. split; [reflexivity|].
  simpl. eapply cups_read_loop_spec; eauto.
Qed.


Lemma inflate_contract s inp room st used out s' :
  inflate s inp room = (st, used, out, s') ->
  (used <= length inp)%nat /\ (length out <= room)%nat /\
  (0 <= st -> st <> Z_STREAM_END -> out = [] -> (1 <= used)%nat).
Proof.
  unfold inflate.
  destruct (inflate_core s inp room) as [[[st0 used0] out0] s0].
  destruct ((0 <=? st0) && negb (st0 =? Z_STREAM_END) &&
            (Nat.min used0 (length inp) =? 0)%nat &&
            (length (firstn room out0) =? 0)%nat) eqn:C;
    intros H; inversion H; subst; clear H.
  - repeat split; simpl; try lia. unfold Z_BUF_ERROR. lia.
  - repeat split; try lia.
    + rewrite length_firstn. lia.
    + intros H0 H1 H2. rewrite H2 in C. simpl in C.
      rewrite andb_true_r in C.
      apply andb_false_iff in C. destruct C as [C|C].
      * apply andb_false_iff in C. destruct C as [C|C].
        -- apply Z.leb_gt in C. lia.
        -- apply negb_false_iff, Z.eqb_eq in C. contradiction.
      * apply Nat.eqb_neq in C. lia.
Qed.

(** Field projections of updated records. *)
Ltac fsimpl :=
  cbn [fd compressed mode buf ptr end_ is_stdio eof pos bufpos stream cbuf crc
       printf_buffer printf_size
       set_fd set_compressed set_mode set_buf set_ptr set_end set_is_stdio set_eof
       set_pos set_bufpos set_stream set_cbuf set_crc set_printf_buffer set_printf_size
       next_in avail_in next_out avail_out zstate
       zset_next_in zset_avail_in zset_next_out zset_avail_out zset_zstate
       f_data f_off f_reads f_out f_writes f_seekable f_close_fails f_closed
       dset_off dset_reads dset_out dset_writes dset_closed
       is_some off fst snd] in *.

(** [fill_decompress] leaves the descriptor and the buffer cursor alone
    and never hands out more than a buffer. *)
Lemma inflate_stream_contract z inp room st used out z' :
  inflate_stream z inp room = (st, used, out, z') ->
  (used <= length inp)%nat /\ (length out <= room)%nat /\
  (0 <= st -> st <> Z_STREAM_END -> out = [] -> (1 <= used)%nat).
Proof.
  unfold inflate_stream. destruct z as [|s|s].
  - intros [= <- <- <- <-]. cbn [length]. unfold Z_STREAM_ERROR. repeat split; lia.
  - destruct (inflate s inp room) as [[[st0 used0] out0] s0] eqn:HI.
    intros [= <- <- <- <-]. exact (inflate_contract _ _ _ HI).
  - intros [= <- <- <- <-]. cbn [length]. unfold Z_STREAM_ERROR. repeat split; lia.
Qed.

Lemma fill_decompress_spec fp st fp' :
  fill_decompress fp = (st, fp') ->
  fd fp' = fd fp /\ ptr fp' = ptr fp /\ end_ fp' = end_ fp /\ eof fp' = eof fp /\
  compressed fp' = compressed fp /\ pos fp' = pos fp /\ bufpos fp' = bufpos fp /\
  mode fp' = mode fp /\
  (avail_in (stream fp') <= avail_in (stream fp))%nat /\
  avail_out (stream fp') = (BUFSIZE - next_out (stream fp'))%nat /\
  (next_out (stream fp') <= BUFSIZE)%nat /\
  (0 <= st -> st <> Z_STREAM_END -> next_out (stream fp') = 0%nat ->
   (avail_in (stream fp') < avail_in (stream fp))%nat).
Proof.
  unfold fill_decompress.
  assert (Hinp : (length (window fp) <= avail_in (stream fp))%nat)
    by (unfold window; rewrite length_firstn; lia).
  destruct (inflate_stream _ _ _) as [[[st0 used] out] zs] eqn:HI.
  destruct (inflate_stream_contract _ _ _ HI) as (Hu & Ho & Hp).
  cbv zeta. fsimpl.
  destruct (0 <? length out)%nat eqn:T; intros [= <- <-];
    fsimpl; repeat split; try lia;
    intros; assert (out = []) by (destruct out; simpl in *; [auto|lia]);
    specialize (Hp ltac:(auto) ltac:(auto) ltac:(auto)); lia.
Qed.


Lemma same_place_refl fp : same_place fp fp.
Proof. unfold same_place; auto 10. Qed.

Lemma same_place_trans fp1 fp2 fp3 :
  same_place fp1 fp2 -> same_place fp2 fp3 -> same_place fp1 fp3.
Proof. unfold same_place; intuition congruence. Qed.

Lemma fill_input_spec fp :
  match fill_input fp with
  | Return r fp' => r <= 0 /\ eof fp' = true /\ ptr fp' = ptr fp /\ end_ fp' = end_ fp /\
                    same_place fp fp'
  | Next fp' =>
      (0 < avail_in (stream fp'))%nat /\
      (length (f_rest (fd fp')) + avail_in (stream fp') <=
       length (f_rest (fd fp)) + avail_in (stream fp))%nat /\
      ptr fp' = ptr fp /\ end_ fp' = end_ fp /\ eof fp' = eof fp /\
      compressed fp' = compressed fp /\ same_place fp fp'
  end.
Proof.
  unfold fill_input.
  destruct (avail_in (stream fp) =? 0)%nat eqn:A.
  - destruct (cups_read fp BUFSIZE) as [[bytes got] fp1] eqn:R.
    destruct (cups_read_spec _ _ R) as (Hfp & Hr). rewrite Hfp.
    destruct (bytes <=? 0) eqn:B; fsimpl.
    + repeat split; auto. lia.
    + apply Z.leb_gt in B. destruct Hr as [(-> & _)|(-> & Hr & Hl)]; [lia|].
      rewrite Nat2Z.id. rewrite Hr, length_app.
      repeat split; auto; lia.
  - apply Nat.eqb_neq in A. repeat split; auto; lia.
Qed.

Lemma fill_trailer_spec fp :
  match fill_trailer fp with
  | Return r fp' => r = -1 /\ eof fp' = true /\ ptr fp' = ptr fp /\ end_ fp' = end_ fp /\
                    same_place fp fp'
  | Next fp' =>
      compressed fp' = false /\ eof fp' = eof fp /\ ptr fp' = ptr fp /\
      end_ fp' = end_ fp /\ buf fp' = buf fp /\
      avail_out (stream fp') = avail_out (stream fp) /\
      same_place fp fp'
  end.
Proof.
  unfold fill_trailer. cbv zeta.
  destruct (0 <? avail_in (stream fp))%nat eqn:A;
  match goal with |- context [if (?t <? 8)%nat then _ else _] =>
    destruct (t <? 8)%nat eqn:T end.
  all: try (destruct (sys_read _ _) as [[[n r] got] d] eqn:R; fsimpl;
            destruct (n <? _) eqn:S).
  all: fsimpl.
  all: try (repeat split; reflexivity).
  all: match goal with |- context [negb ?c] => destruct c end; cbn [negb]; fsimpl.
  all: repeat split; reflexivity.
Qed.


Ltac same := unfold same_place; fsimpl; repeat split; reflexivity.

Lemma fill_header_spec fp :
  match fill_header fp with
  | Return r fp' =>
      same_place fp fp' /\
      ((r = -1 /\ eof fp' = true /\ ptr fp' = ptr fp /\ end_ fp' = end_ fp) \/
       (0 <= r /\ ptr fp' = Some 0%nat /\ end_ fp' = Some (Z.to_nat r) /\
        compressed fp' = false /\ eof fp' = eof fp /\ (Z.to_nat r <= BUFSIZE)%nat))
  | Next fp' =>
      same_place fp fp' /\ compressed fp' = true /\ ptr fp' = ptr fp /\
      end_ fp' = end_ fp /\ eof fp' = eof fp /\
      (length (f_rest (fd fp')) + avail_in (stream fp') <= length (f_rest (fd fp)))%nat
  end.
Proof.
  unfold fill_header. cbv zeta.
  destruct (cups_read (set_compressed false fp) BUFSIZE) as [[bytes got] fp1] eqn:R.
  destruct (cups_read_spec _ _ R) as (Hfp & Hr). rewrite Hfp. clear Hfp R.
  revert Hr. generalize (fd fp1). intros d Hr. fsimpl.
  destruct (bytes <? 0) eqn:B.
  { fsimpl. split; [same|left; auto 10]. }
  apply Z.ltb_ge in B.
  destruct Hr as [(-> & _)|(-> & Hr & Hl)]; [lia|].
  destruct (not_gzip _ _).
  { fsimpl. split; [same|right]. rewrite Nat2Z.id. repeat split; auto; lia. }
  destruct (gz_header _ _) as [p|].
  2:{ fsimpl. split; [same|left; auto 10]. }
  destruct (inflateInit2_core (-15)) as [status zs].
  destruct (negb (status =? Z_OK)).
  { destruct (0 <? _)%nat; fsimpl; (split; [same|left; auto 10]). }
  rewrite Nat2Z.id.
  destruct (0 <? _)%nat; fsimpl; (split; [same|]);
    repeat split; auto; rewrite Hr, length_app; lia.
Qed.

Lemma fill_inflate_spec fp :
  match fill_inflate fp with
  | Return r fp' =>
      same_place fp fp' /\
      ((r <= 0 /\ eof fp' = true /\ ptr fp' = ptr fp /\ end_ fp' = end_ fp) \/
       (0 < r /\ ptr fp' = Some 0%nat /\ end_ fp' = Some (Z.to_nat r) /\
        eof fp' = eof fp /\ eof fp = false /\ (Z.to_nat r <= BUFSIZE)%nat))
  | Next fp' =>
      same_place fp fp' /\ ptr fp' = Some 0%nat /\ end_ fp' = Some 0%nat /\
      eof fp' = false /\
      (compressed fp' = true ->
       (length (f_rest (fd fp')) + avail_in (stream fp') <
        length (f_rest (fd fp)) + avail_in (stream fp))%nat)
  end.
Proof.
  unfold fill_inflate.
  destruct (eof fp) eqn:E.
  { split; [apply same_place_refl|left; auto]. split; [lia|auto]. }
  pose proof (fill_input_spec fp) as HI.
  destruct (fill_input fp) as [r fp1|fp1].
  { destruct HI as (? & ? & ? & ? & ?). split; auto. }
  destruct HI as (Hav & Hm & Hp & He & Heof & Hc & Hs).
  destruct (fill_decompress fp1) as [status fp2] eqn:D.
  destruct (fill_decompress_spec _ D)
    as (Hfd & Hp2 & He2 & Heof2 & Hc2 & Hpos2 & Hbp2 & Hm2 & Hai & Hao & Hno & Hprog).
  assert (Hs2 : same_place fp fp2).
  { apply same_place_trans with fp1; auto.
    unfold same_place. unfold fill_decompress in D.
    revert D. destruct (inflate_stream _ _ _) as [[[? ?] ?] ?]. cbv zeta. fsimpl.
    destruct (0 <? _)%nat; intros [= <- <-]; fsimpl; auto 10. }
  destruct (status =? Z_STREAM_END) eqn:S1.
  - pose proof (fill_trailer_spec fp2) as HT.
    destruct (fill_trailer fp2) as [r fp3|fp3].
    + destruct HT as (-> & ? & ? & ? & ?). split.
      * eapply same_place_trans; eauto.
      * left. repeat split; try congruence. lia.
    + destruct HT as (Hc3 & Heof3 & Hp3 & He3 & Hb3 & Hao3 & Hs3).
      cbv zeta. rewrite Hao3, Hao.
      destruct (0 <? _)%nat eqn:T; fsimpl.
      * split; [eapply same_place_trans; eauto|]. right.
        apply Nat.ltb_lt in T. rewrite Nat2Z.id.
        repeat split; auto; try lia; congruence.
      * split; [eapply same_place_trans; eauto|].
        apply Nat.ltb_ge in T.
        repeat split; auto; try congruence; try (f_equal; lia).
  - destruct (status <? Z_OK) eqn:S2.
    + fsimpl. split; auto. left. repeat split; try congruence. lia.
    + cbv zeta. rewrite Hao.
      destruct (0 <? _)%nat eqn:T; fsimpl.
      * split; auto. right.
        apply Nat.ltb_lt in T. rewrite Nat2Z.id.
        repeat split; auto; try lia; congruence.
      * apply Nat.ltb_ge in T.
        split; auto. repeat split; auto; try congruence; try (f_equal; lia).
        intros _.
        apply Z.ltb_ge in S2. apply Z.eqb_neq in S1.
        rewrite Hfd.
        assert (next_out (stream fp2) = 0%nat) by lia.
        specialize (Hprog S2 S1 H). lia.
Qed.


Lemma fill_turn_spec fp :
  fill_cond fp = true ->
  match fill_turn fp with
  | Return r fp' =>
      same_place fp fp' /\
      ((r <= 0 /\ eof fp' = true /\ ptr fp' = ptr fp /\ end_ fp' = end_ fp) \/
       (0 <= r /\ ptr fp' = Some 0%nat /\ end_ fp' = Some (Z.to_nat r) /\
        (Z.to_nat r <= BUFSIZE)%nat /\ eof fp' = eof fp))
  | Next fp' =>
      same_place fp fp' /\ ptr fp' = Some 0%nat /\ end_ fp' = Some 0%nat /\
      eof fp' = false /\
      (compressed fp' = true -> (fill_measure fp' < fill_measure fp)%nat)
  end.
Proof.
  unfold fill_turn, fill_cond, fill_measure. intros C.
  destruct (ptr fp) as [p|] eqn:P; fsimpl.
  - simpl in C. rewrite C.
    pose proof (fill_inflate_spec fp) as HI.
    destruct (fill_inflate fp) as [r fp'|fp'].
    + destruct HI as (Hs & [(? & ? & ? & ?)|(? & ? & ? & ? & ? & ?)]); split; auto.
      * left. repeat split; auto. congruence.
      * right. repeat split; auto; try lia.
    + destruct HI as (Hs & Hp & He & Heof & Hm).
      refine (conj Hs (conj Hp (conj He (conj Heof _)))).
      intros Hc. rewrite Hp. fsimpl. auto.
  - pose proof (fill_header_spec fp) as HH.
    destruct (fill_header fp) as [r fp1|fp1].
    + destruct HH as (Hs & [(-> & ? & ? & ?)|(? & ? & ? & ? & ? & ?)]); split; auto.
      * left. repeat split; auto; try congruence. lia.
      * right. repeat split; auto.
    + destruct HH as (Hs & Hc & Hp & He & Heof & Hm). rewrite Hc.
      pose proof (fill_inflate_spec fp1) as HI.
      destruct (fill_inflate fp1) as [r fp'|fp'].
      * destruct HI as (Hs' & [(? & ? & ? & ?)|(? & ? & ? & ? & ? & ?)]);
          (split; [eapply same_place_trans; eauto|]).
        -- left. repeat split; auto; congruence.
        -- right. repeat split; auto; try lia. congruence.
      * destruct HI as (Hs' & Hp' & He' & Heof' & Hm').
        split; [eapply same_place_trans; eauto|].
        refine (conj Hp' (conj He' (conj Heof' _))).
        intros Hc'. rewrite Hp'. fsimpl. specialize (Hm' Hc'). lia.
Qed.


(** The loop of [cups_fill] ends before its fuel does: every turn that
    goes round again has fed at least one byte to the decompressor. *)
Lemma fill_loop_spec fuel : forall fp,
  (fill_measure fp < fuel)%nat ->
  exists res, fill_loop fuel fp = Some res /\ loop_post fp res.
Proof.
  induction fuel as [|k IH]; intros fp Hm; [lia|].
  simpl. destruct (fill_cond fp) eqn:C.
  2:{ exists (Next fp). split; auto. simpl. auto using same_place_refl. }
  pose proof (fill_turn_spec fp C) as HT.
  destruct (fill_turn fp) as [r fp1|fp1].
  - exists (Return r fp1). split; auto. simpl. unfold fill_post.
    destruct HT as (Hs & [(? & ? & ? & ?)|(? & ? & ? & ? & ?)]); (split; [auto|]).
    + left. auto 10.
    + right. repeat split; auto. intros; congruence.
  - destruct HT as (Hs & Hp & He & Heof & Hd).
    destruct (fill_cond fp1) eqn:C1.
    + assert (Hc : compressed fp1 = true).
      { unfold fill_cond in C1. rewrite Hp in C1. exact C1. }
      destruct (IH fp1) as (res & Hres & Hpost); [specialize (Hd Hc); lia|].
      exists res. split; auto.
      destruct res as [r fp'|fp']; simpl in *.
      * destruct Hpost as (Hs' & Hpost). split; [eapply same_place_trans; eauto|].
        destruct Hpost as [(? & ? & Hpe)|(? & ? & ? & ? & ?)].
        -- left. repeat split; auto. right.
           destruct Hpe as [(? & ?)|(? & ?)]; split; congruence.
        -- right. repeat split; auto.
      * destruct Hpost as (? & Hs' & Hpe). split; auto.
        split; [eapply same_place_trans; eauto|]. right.
        destruct Hpe as [->|?]; auto.
    + exists (Next fp1). split.
      * destruct k; simpl; rewrite C1; reflexivity.
      * simpl. auto 10.
Qed.

Lemma fill_raw_spec fp :
  match fill_raw fp with
  | (r, fp') =>
      same_place fp fp' /\ compressed fp' = compressed fp /\
      ptr fp' = Some 0%nat /\
      ((r <= 0 /\ eof fp' = true /\ end_ fp' = Some 0%nat) \/
       (0 < r /\ eof fp' = false /\ end_ fp' = Some (Z.to_nat r) /\
        (Z.to_nat r <= BUFSIZE)%nat))
  end.
Proof.
  unfold fill_raw.
  destruct (cups_read fp BUFSIZE) as [[bytes got] fp1] eqn:R.
  destruct (cups_read_spec _ _ R) as (Hfp & Hr). rewrite Hfp.
  destruct (bytes <=? 0) eqn:B; fsimpl.
  - split; [same|]. apply Z.leb_le in B. auto 10.
  - split; [same|]. apply Z.leb_gt in B. repeat split; auto. right.
    destruct Hr as [(-> & _)|(-> & Hr & Hl)]; [lia|].
    rewrite Nat2Z.id. auto.
Qed.

Lemma fill_enter_fields fp :
  pos (fill_enter fp) = pos fp /\ ptr (fill_enter fp) = ptr fp /\
  end_ (fill_enter fp) = end_ fp /\ eof (fill_enter fp) = eof fp /\
  compressed (fill_enter fp) = compressed fp /\ fd (fill_enter fp) = fd fp /\
  stream (fill_enter fp) = stream fp /\ mode (fill_enter fp) = mode fp.
Proof.
  unfold fill_enter.
  destruct (ptr fp) eqn:P, (end_ fp) eqn:E; fsimpl; rewrite ?P, ?E;
    repeat split; reflexivity.
Qed.

(** [cups_fill] never runs out of fuel, and ends as [fill_post] says. *)
Lemma cups_fill_spec fp :
  fill_post (fill_enter fp) (fst (cups_fill fp)) (snd (cups_fill fp)).
Proof.
  unfold cups_fill. cbv zeta.
  destruct (fill_loop_spec (fuel := S (fill_measure (fill_enter fp))) (fill_enter fp))
    as (res & -> & Hpost); [lia|].
  destruct res as [r fp'|fp']; simpl in *; auto.
  destruct Hpost as (Hc & Hs & Hpe).
  pose proof (fill_raw_spec fp') as HR.
  destruct (fill_raw fp') as [r fp2]. fsimpl.
  destruct HR as (Hs2 & Hc2 & Hp2 & HR).
  split; [eapply same_place_trans; eauto|].
  destruct HR as [(? & ? & ?)|(? & ? & ? & ?)].
  - left. auto 10.
  - right. repeat split; auto. lia.
Qed.


(** ** The first fill *)

Lemma cups_read_fd fp n :
  cups_read fp n =
  (fst (fst (cups_read_loop (length (f_reads (fd fp))) (fd fp) n)),
   snd (fst (cups_read_loop (length (f_reads (fd fp))) (fd fp) n)),
   set_fd (snd (cups_read_loop (length (f_reads (fd fp))) (fd fp) n)) fp).
Proof.
  unfold cups_read. destruct (cups_read_loop _ _ _) as [[t got] d]. reflexivity.
Qed.

(** With no buffer yet, a fill that leaves through the header block
    returns what that block returns. *)
Lemma cups_fill_first fp r fp' :
  ptr fp = None ->
  fill_header fp = Return r fp' ->
  cups_fill fp = (r, fp').
Proof.
  intros P H. unfold cups_fill, fill_enter. rewrite P. cbv zeta.
  cbn [fill_loop]. unfold fill_cond, fill_turn. rewrite P. cbn [is_some negb orb].
  rewrite H. reflexivity.
Qed.

Lemma byte_at_overwrite got old i :
  (i < length got)%nat -> byte_at (overwrite got old) i = byte_at got i.
Proof.
  intros H. unfold byte_at, overwrite. apply app_nth1. exact H.
Qed.

Lemma not_gzip_overwrite got old :
  not_gzip (Z.of_nat (length got)) (overwrite got old) =
  not_gzip (Z.of_nat (length got)) got.
Proof.
  unfold not_gzip. destruct (Z.of_nat (length got) <? 10) eqn:L; [reflexivity|].
  apply Z.ltb_ge in L. cbn [orb].
  rewrite !byte_at_overwrite by lia. reflexivity.
Qed.

(** What the "Not a gzip'd file!" branch does: the bytes just read are
    the buffer, the handle is not compressed, nothing else moves. *)
Lemma fill_header_raw fp n got fp1 :
  cups_read fp BUFSIZE = (n, got, fp1) ->
  0 <= n ->
  not_gzip n got = true ->
  fill_header fp =
  Return n (set_end (Some (Z.to_nat n)) (set_ptr (Some 0%nat)
             (set_buf (overwrite got (buf fp)) (set_compressed false fp1)))) /\
  n = Z.of_nat (length got).
Proof.
  intros R Hn G. unfold fill_header. cbv zeta.
  rewrite cups_read_fd in R. rewrite cups_read_fd. fsimpl.
  injection R as <- <- <-.
  set (res := cups_read_loop _ _ _) in *.
  destruct res as [[t got] d] eqn:E. fsimpl.
  destruct (cups_read_loop_spec _ _ _ E) as [(-> & _)|(-> & _ & _)]; [lia|].
  destruct (Z.of_nat (length got) <? 0) eqn:L; [apply Z.ltb_lt in L; lia|].
  rewrite not_gzip_overwrite, G. split; reflexivity.
Qed.


(** A fill on a handle that has a buffer and is not compressed skips the
    loop: it is one raw read into the buffer. *)
Lemma cups_fill_raw fp :
  is_some (ptr fp) = true ->
  compressed fp = false ->
  cups_fill fp = fill_raw (fill_enter fp).
Proof.
  intros P C. unfold cups_fill. cbv zeta.
  destruct (fill_enter_fields fp) as (_ & P' & _ & _ & C' & _).
  cbn [fill_loop]. unfold fill_cond. rewrite P', C', P, C. reflexivity.
Qed.

Lemma bad_gzip_header_not_gzip n b :
  bad_gzip_header b -> not_gzip n b = true.
Proof.
  unfold bad_gzip_header, not_gzip. intros H.
  destruct (n <? 10); [reflexivity|]. cbn [orb].
  destruct (byte_at b 0 =? 0x1f) eqn:E0; [|reflexivity].
  destruct (Z.land (byte_at b 1) 255 =? 0x8b) eqn:E1; [|reflexivity].
  destruct (byte_at b 2 =? 8) eqn:E2; [|reflexivity].
  destruct (Z.land (byte_at b 3) 0xe0 =? 0) eqn:E3; [|reflexivity].
  apply Z.eqb_eq in E0, E1, E2, E3. tauto.
Qed.

(** C10: when the first read of a handle delivers fewer than 10 bytes,
    whatever they are (the gzip magic included), [cups_fill] returns
    their number, the buffer holds exactly these bytes, the handle is
    left uncompressed and no error is flagged. *)
Theorem C10_short_first_fill_is_raw fp n got fp1 :
  ptr fp = None ->
  cups_read fp BUFSIZE = (n, got, fp1) ->
  0 <= n < 10 ->
  exists fp',
    cups_fill fp = (n, fp') /\
    n = Z.of_nat (length got) /\
    firstn (length got) (buf fp') = got /\
    ptr fp' = Some 0%nat /\ end_ fp' = Some (length got) /\
    compressed fp' = false /\ eof fp' = eof fp /\ fd fp' = fd fp1.
Proof.
  intros P R Hn.
  assert (G : not_gzip n got = true).
  { unfold not_gzip. destruct (n <? 10) eqn:L; [reflexivity|].
    apply Z.ltb_ge in L. lia. }
  destruct (fill_header_raw _ R (proj1 Hn) G) as (H & Hlen).
  eexists. split; [apply (cups_fill_first _ P H)|].
  rewrite cups_read_fd in R. injection R as _ _ <-.
  fsimpl. rewrite Hlen, Nat2Z.id, overwrite_firstn. auto 10.
Qed.

(** ** Pass-through of files that are not gzip *)

Lemma firstn_firstn_skipn {A} (a b : nat) (l : list A) :
  firstn a l ++ firstn b (skipn a l) = firstn (a + b) l.
Proof.
  revert l; induction a as [|a IH]; intros [|x l]; simpl; auto.
  - now rewrite firstn_nil.
  - now rewrite IH.
Qed.

Lemma firstn_length_firstn {A} (n : nat) (l : list A) :
  firstn (length (firstn n l)) l = firstn n l.
Proof.
  revert l; induction n as [|n IH]; intros [|x l]; simpl; auto.
  now rewrite IH.
Qed.

Lemma cups_read_plain fp n :
  f_reads (fd fp) = [] ->
  cups_read fp n =
  (Z.of_nat (length (firstn n (f_rest (fd fp)))), firstn n (f_rest (fd fp)),
   set_fd (dset_off (f_off (fd fp) + length (firstn n (f_rest (fd fp))))%nat (fd fp)) fp).
Proof.
  intros H. unfold cups_read. rewrite H. cbn [length cups_read_loop].
  unfold sys_read. rewrite H.
  destruct (0 <=? _) eqn:E; [reflexivity|]. apply Z.leb_gt in E. lia.
Qed.

Lemma byte_at_firstn b n i : (i < n)%nat -> byte_at (firstn n b) i = byte_at b i.
Proof.
  unfold byte_at. revert b i; induction n as [|n IH]; intros [|x b] [|i] H;
    simpl; auto; try lia. apply IH. lia.
Qed.

Lemma bad_header_sniffed data :
  bad_gzip_header data ->
  not_gzip (Z.of_nat (length (firstn BUFSIZE data))) (firstn BUFSIZE data) = true.
Proof.
  intros H. apply bad_gzip_header_not_gzip.
  pose proof BUFSIZE_Z. unfold bad_gzip_header in *.
  rewrite !byte_at_firstn by lia. exact H.
Qed.

(** The first fill of a fresh handle whose first bytes fail the gzip
    test. *)
Lemma first_fill_raw data fp :
  fresh_on data fp ->
  not_gzip (Z.of_nat (length (firstn BUFSIZE data))) (firstn BUFSIZE data) = true ->
  exists fp',
    cups_fill fp = (Z.of_nat (length (firstn BUFSIZE data)), fp') /\
    raw_at data 0 fp' /\ ptr fp' = Some 0%nat /\
    end_ fp' = Some (length (firstn BUFSIZE data)) /\ eof fp' = false /\
    firstn (length (firstn BUFSIZE data)) (buf fp') = firstn BUFSIZE data /\
    pos fp' = pos fp /\ bufpos fp' = bufpos fp.
Proof.
  intros (M & P & E & Eof & _ & _ & _ & D & R & O & _) G.
  assert (Hrest : f_rest (fd fp) = data).
  { unfold f_rest. rewrite O, D. reflexivity. }
  pose proof (cups_read_plain fp BUFSIZE R) as HR. rewrite Hrest in HR.
  destruct (fill_header_raw _ HR (Nat2Z.is_nonneg _) G) as (H & _).
  eexists. split; [apply (cups_fill_first _ P H)|].
  fsimpl. rewrite Nat2Z.id, overwrite_firstn.
  repeat split; auto.
  exists 0%nat, (length (firstn BUFSIZE data)). fsimpl.
  rewrite Nat.sub_0_r, O. cbn [skipn]. rewrite overwrite_firstn.
  repeat split; auto; try lia.
  - symmetry. apply firstn_length_firstn.
  - rewrite length_firstn. lia.
  - congruence.
Qed.

(** A fill of a pass-through handle whose buffer is used up. *)
Lemma next_fill_raw data k fp p :
  raw_at data k fp ->
  ptr fp = Some p -> end_ fp = Some p ->
  exists fp',
    cups_fill fp = (Z.of_nat (length (firstn BUFSIZE (skipn k data))), fp') /\
    raw_at data k fp' /\ ptr fp' = Some 0%nat /\
    end_ fp' = Some (length (firstn BUFSIZE (skipn k data))) /\
    pos fp' = pos fp /\ bufpos fp' = bufpos fp + Z.of_nat p.
Proof.
  intros (M & C & D & R & p0 & e0 & P0 & E0 & Hpe & O & B & Hk & Heof) P E.
  rewrite P in P0. rewrite E in E0. injection P0 as <-. injection E0 as <-.
  rewrite Nat.sub_diag, Nat.add_0_r in O.
  rewrite cups_fill_raw by (try rewrite P; auto).
  unfold fill_enter. rewrite P, E. unfold fill_raw.
  rewrite cups_read_plain by exact R. fsimpl.
  assert (Hrest : f_rest (fd fp) = skipn k data).
  { unfold f_rest. rewrite O, D. reflexivity. }
  rewrite Hrest.
  set (got := firstn BUFSIZE (skipn k data)).
  destruct (Z.of_nat (length got) <=? 0) eqn:L.
  - apply Z.leb_le in L. assert (Hg : got = []) by (destruct got; simpl in *; [auto|lia]).
    eexists. split; [reflexivity|]. fsimpl. rewrite Hg. cbn [length].
    repeat split; auto.
    exists 0%nat, 0%nat. fsimpl. repeat split; auto; try lia.
    intros _. pose proof BUFSIZE_Z.
    assert (Hl : length got = Nat.min BUFSIZE (length data - k)).
    { unfold got. rewrite length_firstn, length_skipn. reflexivity. }
    rewrite Hg in Hl. simpl in Hl. lia.
  - apply Z.leb_gt in L.
    eexists. split; [reflexivity|]. fsimpl. rewrite Nat2Z.id.
    repeat split; auto.
    exists 0%nat, (length got). fsimpl. rewrite Nat.sub_0_r.
    cbn [skipn]. rewrite overwrite_firstn.
    repeat split; auto; try lia; try discriminate.
    + unfold got. symmetry. apply firstn_length_firstn.
    + unfold got. rewrite length_firstn, length_skipn. lia.
Qed.

Lemma fill_passing data k fp :
  passing data k fp ->
  at_end fp = true ->
  exists fp',
    cups_fill fp = (Z.of_nat (length (firstn BUFSIZE (skipn k data))), fp') /\
    raw_at data k fp' /\ ptr fp' = Some 0%nat /\
    end_ fp' = Some (length (firstn BUFSIZE (skipn k data))).
Proof.
  intros [H|(-> & H & G)] A.
  - pose proof H as (_ & _ & _ & _ & p & e & P & E & Hpe & _).
    unfold at_end in A. rewrite P, E in A. apply Nat.leb_le in A.
    assert (e = p) by lia. subst e.
    destruct (next_fill_raw H P E) as (fp' & ? & ? & ? & ? & _). eauto 10.
  - destruct (first_fill_raw H G) as (fp' & ? & ? & ? & ? & _). cbn [skipn]. eauto 10.
Qed.

(** Moving the cursor of a pass-through handle forward. *)
Lemma raw_at_advance data k fp count :
  raw_at data k fp ->
  (count <= off (end_ fp) - off (ptr fp))%nat ->
  firstn count (skipn (off (ptr fp)) (buf fp)) = firstn count (skipn k data) /\
  length (firstn count (skipn k data)) = count /\
  raw_at data (k + count)
    (set_pos (pos fp + Z.of_nat count) (set_ptr (Some (off (ptr fp) + count)%nat) fp)).
Proof.
  intros (M & C & D & R & p & e & P & E & Hpe & O & B & Hk & Heof) Hc.
  rewrite P, E in *. cbn [off] in *.
  assert (H1 : firstn count (skipn p (buf fp)) = firstn count (skipn k data)).
  { apply (f_equal (firstn count)) in B. rewrite !firstn_firstn in B.
    replace (Nat.min count (e - p)) with count in B by lia. exact B. }
  split; [exact H1|]. split.
  { rewrite length_firstn, length_skipn. lia. }
  unfold raw_at. fsimpl. repeat split; auto.
  exists (p + count)%nat, e. repeat split; auto; try lia.
  - apply (f_equal (skipn count)) in B.
    rewrite !skipn_firstn_comm, !skipn_skipn in B.
    replace (e - (p + count))%nat with (e - p - count)%nat by lia.
    rewrite (Nat.add_comm p count), (Nat.add_comm k count). exact B.
  - intros H. specialize (Heof H). lia.
Qed.

Lemma read_loop_passing data : forall fuel fp bytes acc k,
  passing data k fp ->
  (bytes <= fuel)%nat ->
  exists r fp',
    read_loop fuel fp bytes acc = (r, acc ++ firstn bytes (skipn k data), fp') /\
    passing data (k + length (firstn bytes (skipn k data))) fp'.
Proof.
  induction fuel as [|fuel IH]; intros fp bytes acc k H Hb.
  { assert (bytes = 0%nat) by lia. subst. simpl.
    rewrite app_nil_r, Nat.add_0_r. eauto. }
  cbn [read_loop]. destruct (bytes =? 0)%nat eqn:B0.
  { apply Nat.eqb_eq in B0. subst. simpl. rewrite app_nil_r, Nat.add_0_r. eauto. }
  apply Nat.eqb_neq in B0.
  assert (Hstep : exists r fp1,
     (if at_end fp then cups_fill fp else (1, fp)) = (r, fp1) /\
     raw_at data k fp1 /\
     ((r <= 0 /\ skipn k data = []) \/
      (0 < r /\ (0 < off (end_ fp1) - off (ptr fp1))%nat))).
  { destruct (at_end fp) eqn:A.
    - destruct (fill_passing H A) as (fp1 & Hf & Hr & P1 & E1).
      exists (Z.of_nat (length (firstn BUFSIZE (skipn k data)))), fp1.
      split; [exact Hf|]. split; [exact Hr|].
      rewrite P1, E1. cbn [off]. pose proof BUFSIZE_Z.
      destruct (skipn k data) as [|x l] eqn:S.
      + left. rewrite firstn_nil. simpl. split; [lia|reflexivity].
      + right. rewrite length_firstn. cbn [length]. lia.
    - destruct H as [H|(_ & (_ & P & E & _) & _)].
      2:{ unfold at_end in A. rewrite P, E in A. discriminate. }
      exists 1, fp. split; [reflexivity|]. split; [exact H|]. right.
      destruct H as (_ & _ & _ & _ & p & e & P & E & _).
      unfold at_end in A. rewrite P, E in A. apply Nat.leb_gt in A.
      rewrite P, E. cbn [off]. lia. }
  destruct Hstep as (r & fp1 & -> & Hr & [(Hle & Hnil)|(Hlt & Hroom)]).
  - destruct (r <=? 0) eqn:L; [|apply Z.leb_gt in L; lia].
    rewrite Hnil, firstn_nil, app_nil_r. cbn [length]. rewrite Nat.add_0_r.
    destruct (0 <? length acc)%nat; eexists _, fp1; (split; [reflexivity|left; exact Hr]).
  - destruct (r <=? 0) eqn:L; [apply Z.leb_le in L; lia|].
    cbv zeta.
    set (count := Nat.min (off (end_ fp1) - off (ptr fp1)) bytes).
    assert (Hc : (count <= off (end_ fp1) - off (ptr fp1))%nat) by (unfold count; lia).
    destruct (raw_at_advance Hr Hc) as (Hd & Hlen & Hr2).
    rewrite Hd.
    destruct (IH _ (bytes - count)%nat (acc ++ firstn count (skipn k data))
                 (k + count)%nat (or_introl Hr2)) as (r' & fp' & Hrl & Hp').
    { unfold count. lia. }
    rewrite Hrl. exists r', fp'.
    assert (Hcat : firstn count (skipn k data) ++
                   firstn (bytes - count) (skipn (k + count) data) =
                   firstn bytes (skipn k data)).
    { rewrite (Nat.add_comm k count), <- skipn_skipn, firstn_firstn_skipn.
      f_equal. unfold count. lia. }
    split.
    + rewrite <- app_assoc, Hcat. reflexivity.
    + rewrite <- Hcat, length_app, Hlen, Nat.add_assoc. exact Hp'.
Qed.

Lemma cupsFileRead_passing data k fp n :
  passing data k fp ->
  exists r fp',
    cupsFileRead fp n = (r, firstn n (skipn k data), fp') /\
    passing data (k + length (firstn n (skipn k data))) fp'.
Proof.
  intros H. unfold cupsFileRead.
  assert (M : readable fp = true).
  { unfold readable. destruct H as [(M & _)|(_ & (M & _) & _)]; rewrite M; reflexivity. }
  rewrite M. cbn [negb].
  destruct (n =? 0)%nat eqn:N.
  { apply Nat.eqb_eq in N. subst. simpl. rewrite Nat.add_0_r. eauto. }
  destruct (eof fp) eqn:E.
  { assert (Hnil : skipn k data = []).
    { destruct H as [(_ & _ & _ & _ & p & e & _ & _ & _ & _ & _ & _ & Heof)|(_ & (_ & _ & _ & F & _) & _)];
        [|congruence].
      apply skipn_all2. auto. }
    rewrite Hnil, firstn_nil. simpl. rewrite Nat.add_0_r. eauto. }
  apply (read_loop_passing [] H (le_n n)).
Qed.

Lemma read_all_passing data : forall sizes k fp,
  passing data k fp ->
  read_all fp sizes = firstn (list_sum sizes) (skipn k data).
Proof.
  induction sizes as [|n ns IH]; intros k fp H; [reflexivity|].
  cbn [read_all list_sum].
  destruct (cupsFileRead_passing n H) as (r & fp' & -> & H').
  rewrite (IH _ _ H').
  rewrite (Nat.add_comm k), <- skipn_skipn, skipn_length_firstn.
  apply firstn_firstn_skipn.
Qed.

(** C3: a handle opened for reading on a file whose first bytes are not
    a gzip header (wrong magic, wrong method byte or reserved flag bits)
    gets the raw bytes with its first fill, the sniffed ones included, is
    left uncompressed, and hands the file over unchanged to every later
    read. *)
Theorem C3_non_gzip_passthrough data fp :
  fresh_on data fp ->
  bad_gzip_header data ->
  (exists fp',
     cups_fill fp = (Z.of_nat (length (firstn BUFSIZE data)), fp') /\
     firstn (length (firstn BUFSIZE data)) (buf fp') = firstn BUFSIZE data /\
     compressed fp' = false /\ eof fp' = false /\
     ptr fp' = Some 0%nat /\ end_ fp' = Some (length (firstn BUFSIZE data))) /\
  (forall sizes, read_all fp sizes = firstn (list_sum sizes) data).
Proof.
  intros F H. pose proof (bad_header_sniffed H) as G. split.
  - destruct (first_fill_raw F G) as (fp' & Hf & Hr & P & E & Eof & Hb & _).
    exists fp'. destruct Hr as (_ & C & _). auto 10.
  - intros sizes. apply (read_all_passing sizes (k := 0%nat)).
    right. auto.
Qed.

(** ** End of a member *)

Lemma fill_reaches_loop fp fpk :
  fill_reaches fp fpk ->
  forall r fp' fuel,
    fill_turn fpk = Return r fp' ->
    (fill_measure fp < fuel)%nat ->
    fill_loop fuel fp = Some (Return r fp').
Proof.
  induction 1 as [fp C|fp fp1 fp2 C T R IH]; intros r fp' fuel HT Hm.
  - destruct fuel as [|k]; [lia|]. cbn [fill_loop]. rewrite C, HT. reflexivity.
  - destruct fuel as [|k]; [lia|]. cbn [fill_loop]. rewrite C, T.
    apply IH; [exact HT|].
    pose proof (fill_turn_spec fp C) as HS. rewrite T in HS.
    destruct HS as (_ & P1 & _ & _ & Hd).
    assert (C1 : fill_cond fp1 = true) by (inversion R; assumption).
    unfold fill_cond in C1. rewrite P1 in C1. cbn in C1.
    specialize (Hd C1). lia.
Qed.

Lemma fill_trailer_mismatch fp :
  match member_trailer fp with
  | Some t => trailer_crc t <> crc fp
  | None => True
  end ->
  exists fp', fill_trailer fp = Return (-1) fp' /\ eof fp' = true.
Proof.
  unfold member_trailer, fill_trailer. cbv zeta.
  destruct (0 <? avail_in (stream fp))%nat eqn:A.
  - apply Nat.ltb_lt in A.
    destruct (Nat.min (avail_in (stream fp)) 8 <? 8)%nat eqn:T.
    + apply Nat.ltb_lt in T.
      destruct (8 - Nat.min (avail_in (stream fp)) 8 =? 0)%nat eqn:N;
        [apply Nat.eqb_eq in N; lia|].
      fsimpl.
      destruct (sys_read _ _) as [[[n r] got] d] eqn:R. fsimpl.
      rewrite Nat2Z.inj_sub by lia. change (Z.of_nat 8) with 8.
      destruct (n <? 8 - Z.of_nat (Nat.min (avail_in (stream fp)) 8)) eqn:S.
      * intros _. eexists. split; [reflexivity|reflexivity].
      * intros H. apply Z.eqb_neq in H. rewrite H. cbn [negb].
        eexists. split; reflexivity.
    + apply Nat.ltb_ge in T.
      destruct (8 - Nat.min (avail_in (stream fp)) 8 =? 0)%nat eqn:N;
        [|apply Nat.eqb_neq in N; lia].
      fsimpl. intros H. apply Z.eqb_neq in H. rewrite H. cbn [negb].
      eexists. split; reflexivity.
  - apply Nat.ltb_ge in A. replace (avail_in (stream fp)) with 0%nat by lia.
    cbn [Nat.min Nat.sub Nat.eqb Nat.ltb Nat.leb firstn app].
    destruct (sys_read _ _) as [[[n r] got] d] eqn:R. fsimpl.
    change (Z.of_nat 8 - Z.of_nat 0) with (Z.of_nat 8).
    destruct (n <? Z.of_nat 8) eqn:S.
    + intros _. eexists. split; reflexivity.
    + intros H. apply Z.eqb_neq in H. rewrite H. cbn [negb].
      eexists. split; reflexivity.
Qed.

(** *** The running CRC *)

Lemma crc32_nil c : crc32 c [] = c.
Proof.
  unfold crc32. cbn [fold_left].
  rewrite Z.lxor_assoc, Z.lxor_nilpotent, Z.lxor_0_r. reflexivity.
Qed.

Lemma crc32_more c a b : crc32 (crc32 c a) b = crc32 c (a ++ b).
Proof.
  unfold crc32. rewrite fold_left_app. f_equal. f_equal.
  rewrite Z.lxor_assoc, Z.lxor_nilpotent, Z.lxor_0_r. reflexivity.
Qed.

(** [inflate] and the update that follows: the CRC takes in the bytes
    produced, which stand at the start of the buffer. *)
Lemma fill_decompress_crc fp st fp' :
  fill_decompress fp = (st, fp') ->
  crc fp' = crc32 (crc fp) (member_output fp') /\
  avail_out (stream fp') = (BUFSIZE - next_out (stream fp'))%nat /\
  (next_out (stream fp') <= BUFSIZE)%nat /\
  compressed fp' = compressed fp /\ ptr fp' = ptr fp.
Proof.
  unfold fill_decompress, member_output.
  destruct (inflate_stream _ _ _) as [[[st0 used] out] zs] eqn:HI.
  destruct (inflate_stream_contract _ _ _ HI) as (_ & Ho & _).
  cbv zeta. fsimpl.
  destruct (0 <? length out)%nat eqn:T; intros [= <- <-]; fsimpl.
  - repeat split; auto.
  - apply Nat.ltb_ge in T. assert (E : length out = 0%nat) by lia.
    rewrite E. cbn [firstn]. rewrite crc32_nil. repeat split; auto. lia.
Qed.

Lemma fill_input_crc fp :
  crc (flow_handle (fill_input fp)) = crc fp /\
  compressed (flow_handle (fill_input fp)) = compressed fp /\
  ptr (flow_handle (fill_input fp)) = ptr fp.
Proof.
  unfold fill_input.
  destruct (avail_in (stream fp) =? 0)%nat; [|auto].
  destruct (cups_read fp BUFSIZE) as [[bytes got] fp1] eqn:R.
  destruct (cups_read_spec _ _ R) as (-> & _).
  destruct (bytes <=? 0); cbn [flow_handle]; fsimpl; auto.
Qed.

(** The block under [if (fp->compressed)]: when it hands out data, the
    CRC has taken that data in. *)
Lemma fill_inflate_crc fp :
  match fill_inflate fp with
  | Next fp' =>
      is_some (ptr fp') = true /\ (compressed fp' = true -> crc fp' = crc fp)
  | Return n fp' =>
      0 < n ->
      is_some (ptr fp') = true /\
      (compressed fp' = true ->
       crc fp' = crc32 (crc fp) (firstn (Z.to_nat n) (buf fp')))
  end.
Proof.
  unfold fill_inflate.
  destruct (eof fp); [intros; lia|].
  pose proof (fill_input_spec fp) as HI.
  pose proof (fill_input_crc fp) as (Hcrc1 & _).
  destruct (fill_input fp) as [r fp1|fp1]; [destruct HI; intros; lia|].
  cbn [flow_handle] in Hcrc1. clear HI.
  destruct (fill_decompress fp1) as [status fp2] eqn:D.
  destruct (fill_decompress_crc _ D) as (Hcrc2 & Hao & Hno & _ & _).
  unfold member_output in Hcrc2. rewrite Hcrc1 in Hcrc2.
  destruct (status =? Z_STREAM_END).
  - pose proof (fill_trailer_spec fp2) as HT.
    destruct (fill_trailer fp2) as [r fp3|fp3]; [destruct HT; intros; lia|].
    destruct HT as (Hc3 & _). cbv zeta.
    destruct (0 <? _)%nat; fsimpl; [intros _|]; (split; [reflexivity|]);
      intros Hc; rewrite Hc3 in Hc; discriminate Hc.
  - destruct (status <? Z_OK); [intros; lia|]. cbv zeta. rewrite Hao.
    replace (BUFSIZE - (BUFSIZE - next_out (stream fp2)))%nat
      with (next_out (stream fp2)) by lia.
    destruct (0 <? next_out (stream fp2))%nat eqn:T; fsimpl.
    + intros _. split; [reflexivity|]. intros _. rewrite Nat2Z.id. exact Hcrc2.
    + apply Nat.ltb_ge in T. split; [reflexivity|]. intros _.
      assert (E : next_out (stream fp2) = 0%nat) by lia.
      rewrite E in Hcrc2. cbn [firstn] in Hcrc2. rewrite crc32_nil in Hcrc2. exact Hcrc2.
Qed.

(** The header code starts the CRC afresh. *)
Lemma fill_header_crc fp :
  match fill_header fp with
  | Next fp' => crc fp' = 0 /\ compressed fp' = true /\ ptr fp' = ptr fp
  | Return n fp' => 0 < n -> is_some (ptr fp') = true /\ compressed fp' = false
  end.
Proof.
  pose proof (fill_header_spec fp) as HS.
  unfold fill_header in *. cbv zeta in *.
  destruct (cups_read (set_compressed false fp) BUFSIZE) as [[bytes got] fp1] eqn:R.
  destruct (cups_read_spec _ _ R) as (Hfp & _). rewrite Hfp in *. clear Hfp R.
  revert HS. generalize (fd fp1). intros d HS. fsimpl.
  destruct (bytes <? 0); [intros; lia|].
  destruct (not_gzip _ _).
  { destruct HS as (_ & [(? & _)|(_ & Hp & _ & Hc & _)]); intros; [lia|].
    rewrite Hp. auto. }
  destruct (gz_header _ _) as [p|]; [|intros; lia].
  destruct (inflateInit2_core (-15)) as [status zs].
  destruct (negb (status =? Z_OK)); [intros; lia|].
  destruct (0 <? _)%nat; fsimpl; auto.
Qed.

Lemma fill_turn_crc out fp :
  crc_tracks out fp ->
  match fill_turn fp with
  | Next fp' => crc_tracks out fp'
  | Return n fp' => 0 < n -> crc_tracks (out ++ firstn (Z.to_nat n) (buf fp')) fp'
  end.
Proof.
  unfold crc_tracks, fill_turn. intros H.
  assert (Hinfl : forall f o, compressed f = true -> crc f = crc32 0 o ->
    match fill_inflate f with
    | Next fp' =>
        if is_some (ptr fp') then compressed fp' = true -> crc fp' = crc32 0 o
        else o = []
    | Return n fp' =>
        0 < n ->
        if is_some (ptr fp')
        then compressed fp' = true -> crc fp' = crc32 0 (o ++ firstn (Z.to_nat n) (buf fp'))
        else o ++ firstn (Z.to_nat n) (buf fp') = []
    end).
  { intros f o Hc Hcrc. pose proof (fill_inflate_crc f) as HI.
    destruct (fill_inflate f) as [n fp'|fp'].
    - intros Hn. destruct (HI Hn) as (-> & Hx). intros Hc'.
      rewrite (Hx Hc'), Hcrc. apply crc32_more.
    - destruct HI as (-> & Hx). intros Hc'. rewrite (Hx Hc'). exact Hcrc. }
  destruct (ptr fp) as [p|] eqn:P; cbn [is_some] in *.
  - destruct (compressed fp) eqn:C.
    + apply Hinfl; auto.
    + rewrite P. cbn [is_some]. rewrite C. discriminate.
  - subst out. pose proof (fill_header_crc fp) as HH.
    destruct (fill_header fp) as [n fp1|fp1].
    + intros Hn. destruct (HH Hn) as (-> & Hc). rewrite Hc. discriminate.
    + destruct HH as (Hcrc & Hc & _). rewrite Hc.
      apply Hinfl; [exact Hc|]. rewrite Hcrc. reflexivity.
Qed.

Lemma fill_loop_crc : forall fuel out fp,
  crc_tracks out fp ->
  match fill_loop fuel fp with
  | Some (Return n fp') => 0 < n -> crc_tracks (out ++ firstn (Z.to_nat n) (buf fp')) fp'
  | Some (Next fp') => crc_tracks out fp' /\ fill_cond fp' = false
  | None => True
  end.
Proof.
  induction fuel as [|k IH]; intros out fp H; cbn [fill_loop];
    destruct (fill_cond fp) eqn:C; auto.
  pose proof (@fill_turn_crc out fp H) as HT.
  destruct (fill_turn fp) as [n fp'|fp']; [exact HT|]. apply IH, HT.
Qed.

(** A fill that hands out data keeps the CRC in step with it. *)
Lemma cups_fill_crc out fp n fp' :
  crc_tracks out fp -> cups_fill fp = (n, fp') -> 0 < n ->
  crc_tracks (out ++ firstn (Z.to_nat n) (buf fp')) fp'.
Proof.
  intros H. unfold cups_fill. cbv zeta.
  assert (He : crc_tracks out (fill_enter fp)).
  { unfold crc_tracks, fill_enter in *.
    destruct (ptr fp) as [p|] eqn:P; [|rewrite P; exact H].
    destruct (end_ fp); fsimpl; rewrite ?P; exact H. }
  pose proof (@fill_loop_crc (S (fill_measure (fill_enter fp))) out (fill_enter fp) He) as HL.
  destruct (fill_loop _ _) as [[r f|f]|].
  - intros [= <- <-]. exact HL.
  - destruct HL as (_ & Hc). unfold fill_cond in Hc.
    apply orb_false_iff in Hc as (Hp & Hc). apply negb_false_iff in Hp.
    unfold fill_raw.
    destruct (cups_read f BUFSIZE) as [[bytes got] f1] eqn:R.
    destruct (cups_read_spec _ _ R) as (-> & _).
    destruct (bytes <=? 0); intros [= <- <-] _; unfold crc_tracks; fsimpl;
      rewrite Hc; discriminate.
  - intros [= <- <-]. lia.
Qed.

(** From a handle on which nothing has been read yet, the CRC is that of
    all the data the fills have handed out. *)
Lemma delivered_crc fp0 out fp :
  ptr fp0 = None -> delivered fp0 out fp -> crc_tracks out fp.
Proof.
  intros P0. induction 1 as [fp|fp out fp1 n fp2 _ IH F Hn|fp out fp1 p q _ IH Hp].
  - unfold crc_tracks. rewrite P0. reflexivity.
  - exact (@cups_fill_crc out fp1 n fp2 (IH P0) F Hn).
  - specialize (IH P0). unfold crc_tracks in *. fsimpl. rewrite Hp in IH. exact IH.
Qed.

Lemma fill_reaches_crc out fp fpk :
  crc_tracks out fp -> fill_reaches fp fpk -> crc_tracks out fpk.
Proof.
  intros H R. induction R as [fp C|fp fp1 fp2 C T R IH]; [exact H|].
  apply IH. pose proof (@fill_turn_crc out fp H) as HT. rewrite T in HT. exact HT.
Qed.

(** At the end of a member the CRC covers the data handed out before
    and the bytes of the last [inflate]. *)
Lemma member_end_crc out fpk fpe :
  crc_tracks out fpk -> member_end fpk = Some fpe ->
  crc fpe = crc32 0 (out ++ member_output fpe).
Proof.
  unfold crc_tracks, member_end. intros H HE.
  assert (Hgo : forall f, compressed f = true -> crc f = crc32 0 out ->
    match fill_input f with
    | Next fp2 =>
        if fst (fill_decompress fp2) =? Z_STREAM_END
        then Some (snd (fill_decompress fp2)) else None
    | Return _ _ => None
    end = Some fpe ->
    crc fpe = crc32 0 (out ++ member_output fpe)).
  { intros f Hc Hcrc. pose proof (fill_input_crc f) as (Hcrc1 & _).
    destruct (fill_input f) as [|fp2]; [discriminate|]. cbn [flow_handle] in Hcrc1.
    destruct (fill_decompress fp2) as [st fp3] eqn:D. cbn [fst snd].
    destruct (st =? Z_STREAM_END); [|discriminate]. intros [= <-].
    destruct (fill_decompress_crc _ D) as (-> & _).
    rewrite Hcrc1, Hcrc. apply crc32_more. }
  destruct (ptr fpk) as [p|] eqn:P; cbn [is_some] in *.
  - destruct (compressed fpk) eqn:C; [|discriminate].
    destruct (eof fpk); [discriminate|]. cbn [andb negb] in HE.
    apply (Hgo fpk); auto.
  - subst out. pose proof (fill_header_crc fpk) as HH.
    destruct (fill_header fpk) as [|fp1]; [discriminate|].
    destruct HH as (Hcrc & Hc & _). rewrite Hc in HE.
    destruct (eof fp1); [discriminate|]. cbn [andb negb] in HE.
    apply (Hgo fp1); auto.
Qed.

(** C2: take a handle on which nothing has been read yet and the fills
    that have handed out the decompressed data [out].  When the next
    fill comes to the end of the gzip member and the CRC stored in the
    trailer is not the CRC-32 of the whole decompressed output, [out]
    and the bytes the last [inflate] produced (or the file ends before
    the 8 bytes of the trailer), [cups_fill] returns -1 and sets
    [eof]. *)
Theorem C2_trailer_crc_mismatch_fails fp0 out fp fpk fpe :
  ptr fp0 = None ->
  delivered fp0 out fp ->
  fill_reaches (fill_enter fp) fpk ->
  member_end fpk = Some fpe ->
  match member_trailer fpe with
  | Some t => trailer_crc t <> crc32 0 (out ++ member_output fpe)
  | None => True
  end ->
  exists fp', cups_fill fp = (-1, fp') /\ eof fp' = true.
Proof.
  intros P0 HD HR HE HT.
  assert (Hk : crc_tracks out fpk).
  { apply (@fill_reaches_crc out (fill_enter fp) fpk); [|exact HR].
    pose proof (@delivered_crc fp0 out fp P0 HD) as H.
    unfold crc_tracks, fill_enter in *.
    destruct (ptr fp) as [p|] eqn:P; [|rewrite P; exact H].
    destruct (end_ fp); fsimpl; rewrite ?P; exact H. }
  rewrite <- (@member_end_crc out fpk fpe Hk HE) in HT.
  destruct (fill_trailer_mismatch fpe HT) as (fp' & Htr & Heof).
  exists fp'. split; [|exact Heof].
  assert (Hturn : fill_turn fpk = Return (-1) fp').
  { unfold member_end in HE. unfold fill_turn.
    destruct (if is_some (ptr fpk) then Next fpk else fill_header fpk) as [|fp1];
      [discriminate|].
    destruct (compressed fp1) eqn:C; [|discriminate].
    destruct (eof fp1) eqn:E; [discriminate|]. cbn [andb negb] in HE.
    unfold fill_inflate. rewrite E.
    destruct (fill_input fp1) as [|fp2]; [discriminate|].
    destruct (fill_decompress fp2) as [st fp3]. cbn [fst snd] in HE.
    destruct (st =? Z_STREAM_END); [|discriminate].
    injection HE as ->. rewrite Htr. reflexivity. }
  unfold cups_fill. cbv zeta.
  rewrite (fill_reaches_loop HR Hturn (Nat.lt_succ_diag_r _)). reflexivity.
Qed.

(** ** Handles that reads cannot tell apart *)

Lemma same_view_refl fp : same_view fp fp.
Proof. unfold same_view, same_base, same_codec. auto 20. Qed.

Lemma cups_read_same fp fp' n :
  fd fp = fd fp' ->
  fst (cups_read fp n) = fst (cups_read fp' n) /\
  fd (snd (cups_read fp n)) = fd (snd (cups_read fp' n)).
Proof.
  intros H. rewrite !cups_read_fd, H. split; reflexivity.
Qed.

Lemma byte_at_ext b b' e i :
  firstn e b = firstn e b' -> (i < e)%nat -> byte_at b i = byte_at b' i.
Proof.
  intros H Hi. rewrite <- (byte_at_firstn b Hi), <- (byte_at_firstn b' Hi), H.
  reflexivity.
Qed.

Lemma skip_string_ext b b' e : forall n p,
  firstn e b = firstn e b' -> (p + n <= e)%nat ->
  skip_string b p n = skip_string b' p n.
Proof.
  induction n as [|n IH]; intros p H Hb; [reflexivity|].
  cbn [skip_string]. rewrite (@byte_at_ext _ _ _ _ H) by lia.
  destruct (byte_at b' p =? 0); [reflexivity|]. apply IH; [exact H|lia].
Qed.

Lemma skip_string_bound b : forall n p,
  (p <= skip_string b p n <= p + n)%nat.
Proof.
  induction n as [|n IH]; intros p; cbn [skip_string]; [lia|].
  destruct (byte_at b p =? 0); [lia|]. specialize (IH (S p)). lia.
Qed.

Lemma skip_cstring_ext b b' e p :
  firstn e b = firstn e b' -> (p <= e)%nat ->
  skip_cstring b p e = skip_cstring b' p e.
Proof.
  intros H Hp. unfold skip_cstring.
  rewrite (@skip_string_ext _ _ _ (e - p)%nat p H) by lia. reflexivity.
Qed.

Lemma skip_cstring_bound b p e q :
  skip_cstring b p e = Some q -> (p <= e)%nat -> (p < q <= e)%nat.
Proof.
  unfold skip_cstring. pose proof (skip_string_bound b (e - p) p).
  destruct (_ <? e)%nat eqn:L; [|discriminate].
  apply Nat.ltb_lt in L. intros [= <-] _. lia.
Qed.

(** The header parser only looks at the bytes that were read, and stops
    inside them. *)
Lemma gz_header_ext b b' e :
  firstn e b = firstn e b' -> (10 <= e)%nat ->
  gz_header b e = gz_header b' e /\
  (forall p, gz_header b e = Some p -> (10 <= p <= e)%nat).
Proof.
  intros H He. unfold gz_header, has_flag.
  rewrite !(@byte_at_ext _ _ _ 3 H) by lia.
  destruct (negb (Z.land (byte_at b' 3) 4 =? 0)).
  - destruct (e <? 10 + 2)%nat eqn:L1; [split; [reflexivity|discriminate]|].
    apply Nat.ltb_ge in L1.
    rewrite !(@byte_at_ext _ _ _ (10 + 1) H), !(@byte_at_ext _ _ _ 10 H) by lia.
    set (p1 := (10 + (2 + Z.to_nat _))%nat).
    destruct (e <? p1)%nat eqn:L2; [split; [reflexivity|discriminate]|].
    apply Nat.ltb_ge in L2. assert (10 <= p1)%nat by (unfold p1; lia).
    clearbody p1.
    destruct (negb (Z.land (byte_at b' 3) 8 =? 0)).
    + rewrite (@skip_cstring_ext _ _ _ p1 H) by lia.
      destruct (skip_cstring b' p1 e) as [p2|] eqn:S2; [|split; [reflexivity|discriminate]].
      pose proof (skip_cstring_bound _ S2 L2).
      destruct (negb (Z.land (byte_at b' 3) 16 =? 0)).
      * rewrite (@skip_cstring_ext _ _ _ p2 H) by lia.
        destruct (skip_cstring b' p2 e) as [p3|] eqn:S3; [|split; [reflexivity|discriminate]].
        pose proof (skip_cstring_bound _ S3 ltac:(lia)).
        destruct (negb (Z.land (byte_at b' 3) 2 =? 0)).
        -- destruct (e <? p3 + 2)%nat eqn:L4; split; try reflexivity; try discriminate.
           apply Nat.ltb_ge in L4. intros p [= <-]. lia.
        -- split; [reflexivity|]. intros p [= <-]. lia.
      * destruct (negb (Z.land (byte_at b' 3) 2 =? 0)).
        -- destruct (e <? p2 + 2)%nat eqn:L4; split; try reflexivity; try discriminate.
           apply Nat.ltb_ge in L4. intros p [= <-]. lia.
        -- split; [reflexivity|]. intros p [= <-]. lia.
    + destruct (negb (Z.land (byte_at b' 3) 16 =? 0)).
      * rewrite (@skip_cstring_ext _ _ _ p1 H) by lia.
        destruct (skip_cstring b' p1 e) as [p3|] eqn:S3; [|split; [reflexivity|discriminate]].
        pose proof (skip_cstring_bound _ S3 ltac:(lia)).
        destruct (negb (Z.land (byte_at b' 3) 2 =? 0)).
        -- destruct (e <? p3 + 2)%nat eqn:L4; split; try reflexivity; try discriminate.
           apply Nat.ltb_ge in L4. intros p [= <-]. lia.
        -- split; [reflexivity|]. intros p [= <-]. lia.
      * destruct (negb (Z.land (byte_at b' 3) 2 =? 0)).
        -- destruct (e <? p1 + 2)%nat eqn:L4; split; try reflexivity; try discriminate.
           apply Nat.ltb_ge in L4. intros p [= <-]. lia.
        -- split; [reflexivity|]. intros p [= <-]. lia.
  - destruct (negb (Z.land (byte_at b' 3) 8 =? 0)).
    + rewrite (@skip_cstring_ext _ _ _ 10 H) by lia.
      destruct (skip_cstring b' 10 e) as [p2|] eqn:S2; [|split; [reflexivity|discriminate]].
      pose proof (skip_cstring_bound _ S2 He).
      destruct (negb (Z.land (byte_at b' 3) 16 =? 0)).
      * rewrite (@skip_cstring_ext _ _ _ p2 H) by lia.
        destruct (skip_cstring b' p2 e) as [p3|] eqn:S3; [|split; [reflexivity|discriminate]].
        pose proof (skip_cstring_bound _ S3 ltac:(lia)).
        destruct (negb (Z.land (byte_at b' 3) 2 =? 0)).
        -- destruct (e <? p3 + 2)%nat eqn:L4; split; try reflexivity; try discriminate.
           apply Nat.ltb_ge in L4. intros p [= <-]. lia.
        -- split; [reflexivity|]. intros p [= <-]. lia.
      * destruct (negb (Z.land (byte_at b' 3) 2 =? 0)).
        -- destruct (e <? p2 + 2)%nat eqn:L4; split; try reflexivity; try discriminate.
           apply Nat.ltb_ge in L4. intros p [= <-]. lia.
        -- split; [reflexivity|]. intros p [= <-]. lia.
    + destruct (negb (Z.land (byte_at b' 3) 16 =? 0)).
      * rewrite (@skip_cstring_ext _ _ _ 10 H) by lia.
        destruct (skip_cstring b' 10 e) as [p3|] eqn:S3; [|split; [reflexivity|discriminate]].
        pose proof (skip_cstring_bound _ S3 He).
        destruct (negb (Z.land (byte_at b' 3) 2 =? 0)).
        -- destruct (e <? p3 + 2)%nat eqn:L4; split; try reflexivity; try discriminate.
           apply Nat.ltb_ge in L4. intros p [= <-]. lia.
        -- split; [reflexivity|]. intros p [= <-]. lia.
      * destruct (negb (Z.land (byte_at b' 3) 2 =? 0)).
        -- destruct (e <? 10 + 2)%nat eqn:L4; split; try reflexivity; try discriminate.
           apply Nat.ltb_ge in L4. intros p [= <-]. lia.
        -- split; [reflexivity|]. intros p [= <-]. lia.
Qed.

Lemma firstn_overwrite_ext e got b b' :
  firstn e b = firstn e b' ->
  firstn e (overwrite got b) = firstn e (overwrite got b').
Proof.
  intros H. unfold overwrite. rewrite !firstn_app. f_equal.
  rewrite <- !skipn_firstn_comm, H. reflexivity.
Qed.

Lemma overwrite_firstn_ge n data old :
  (length data = n)%nat -> firstn n (overwrite data old) = data.
Proof. intros <-. apply overwrite_firstn. Qed.

Lemma skipn_overwrite p got old :
  (p <= length got)%nat ->
  firstn (length got - p) (skipn p (overwrite got old)) = skipn p got.
Proof.
  intros H. unfold overwrite. rewrite skipn_app.
  replace (p - length got)%nat with 0%nat by lia. cbn [skipn].
  rewrite firstn_app, length_skipn, Nat.sub_diag. cbn [firstn].
  rewrite app_nil_r. apply firstn_all2. rewrite length_skipn. lia.
Qed.

Lemma window_advance (c : list byte) n a u :
  firstn (a - u) (skipn (n + u) c) = skipn u (firstn a (skipn n c)).
Proof.
  rewrite skipn_firstn_comm, skipn_skipn, (Nat.add_comm u n). reflexivity.
Qed.

Lemma window_take (c : list byte) n a t :
  (t <= a)%nat -> firstn t (skipn n c) = firstn t (firstn a (skipn n c)).
Proof.
  intros H. rewrite firstn_firstn. f_equal. lia.
Qed.

Ltac base_same :=
  unfold same_base in *; fsimpl; intuition (try congruence).

Lemma cong_header fp fp' :
  same_view fp fp' ->
  same_flow same_view (fill_header fp) (fill_header fp').
Proof.
  intros (Hb & Hbuf & _).
  pose proof Hb as (Hm & Hfd & Hp & He & Heof & Hpos & Hbp & Hc).
  rewrite <- He in Hbuf.
  unfold fill_header. cbv zeta.
  rewrite (cups_read_fd (set_compressed false fp)), (cups_read_fd (set_compressed false fp')).
  fsimpl. rewrite <- Hfd.
  destruct (cups_read_loop _ _ _) as [[n got] d] eqn:R. fsimpl.
  destruct (cups_read_loop_spec _ _ _ R) as [(-> & _)|(-> & _ & _)].
  { cbn [same_flow]. split; [reflexivity|]. unfold same_view, same_base. fsimpl.
    rewrite <- He. repeat split; auto; discriminate. }
  destruct (Z.of_nat (length got) <? 0) eqn:L; [apply Z.ltb_lt in L; lia|].
  rewrite !not_gzip_overwrite.
  destruct (not_gzip (Z.of_nat (length got)) got) eqn:G.
  { cbn [same_flow]. split; [reflexivity|]. unfold same_view, same_base. fsimpl.
    rewrite Nat2Z.id, !overwrite_firstn. repeat split; auto; discriminate. }
  assert (Hlen : (10 <= length got)%nat).
  { unfold not_gzip in G. destruct (Z.of_nat (length got) <? 10) eqn:L10;
      [discriminate|]. apply Z.ltb_ge in L10. lia. }
  rewrite Nat2Z.id.
  assert (Hpre : firstn (length got) (overwrite got (buf fp)) =
                 firstn (length got) (overwrite got (buf fp'))).
  { rewrite !overwrite_firstn. reflexivity. }
  destruct (@gz_header_ext _ _ _ Hpre Hlen) as (Hgz & Hbound). rewrite <- Hgz.
  destruct (gz_header (overwrite got (buf fp)) (length got)) as [p|] eqn:GZ.
  2:{ cbn [same_flow]. split; [reflexivity|]. unfold same_view, same_base. fsimpl.
      rewrite <- He. rewrite (@firstn_overwrite_ext _ got _ _ Hbuf).
      repeat split; auto; discriminate. }
  specialize (Hbound p eq_refl).
  rewrite !skipn_overwrite by lia.
  destruct (inflateInit2_core (-15)) as [status zs].
  destruct (negb (status =? Z_OK)).
  - destruct (0 <? length got - p)%nat; cbn [same_flow]; (split; [reflexivity|]);
      unfold same_view, same_base; fsimpl; rewrite <- He;
      rewrite (@firstn_overwrite_ext _ got _ _ Hbuf); repeat split; auto; discriminate.
  - destruct (0 <? length got - p)%nat eqn:L0; cbn [same_flow];
      unfold same_view, same_base, same_codec, window; fsimpl; rewrite <- He;
      rewrite (@firstn_overwrite_ext _ got _ _ Hbuf); repeat split; auto.
    + cbn [skipn]. rewrite !overwrite_firstn_ge; auto; rewrite length_skipn; lia.
    + apply Nat.ltb_ge in L0. replace (length got - p)%nat with 0%nat by lia.
      reflexivity.
Qed.

Lemma cong_raw fp fp' :
  same_view fp fp' ->
  fst (fill_raw fp) = fst (fill_raw fp') /\
  same_view (snd (fill_raw fp)) (snd (fill_raw fp')).
Proof.
  intros (Hb & Hbuf & Hcodec).
  pose proof Hb as (Hm & Hfd & Hp & He & Heof & Hpos & Hbp & Hc).
  unfold fill_raw. rewrite (cups_read_fd fp), (cups_read_fd fp'). rewrite <- Hfd.
  destruct (cups_read_loop _ _ _) as [[n got] d] eqn:R. fsimpl.
  destruct (n <=? 0) eqn:L; fsimpl; (split; [reflexivity|]).
  - unfold same_view, same_base. fsimpl.
    split; [auto 10|]. split; [reflexivity|].
    intros C. specialize (Hcodec C). unfold same_codec, window in *. fsimpl. exact Hcodec.
  - apply Z.leb_gt in L.
    destruct (cups_read_loop_spec _ _ _ R) as [(-> & _)|(-> & _ & _)]; [lia|].
    unfold same_view, same_base. fsimpl. rewrite Nat2Z.id, !overwrite_firstn.
    split; [auto 10|]. split; [reflexivity|].
    intros C. specialize (Hcodec C). unfold same_codec, window in *. fsimpl. exact Hcodec.
Qed.

Lemma same_live_view fp fp' :
  same_view fp fp' -> compressed fp = true -> same_live fp fp'.
Proof. intros H C. split; [exact H|]. destruct H as (_ & _ & H). auto. Qed.

Lemma cong_input fp fp' :
  same_live fp fp' ->
  same_flow same_live (fill_input fp) (fill_input fp').
Proof.
  intros ((Hb & Hbuf & _) & (Hst & Hcrc & Hwin)).
  pose proof Hb as (Hm & Hfd & Hp & He & Heof & Hpos & Hbp & Hc).
  unfold fill_input. rewrite <- Hst.
  destruct (avail_in (stream fp) =? 0)%nat.
  - rewrite (cups_read_fd fp), (cups_read_fd fp'). rewrite <- Hfd.
    destruct (cups_read_loop _ _ _) as [[n got] d] eqn:R. fsimpl.
    destruct (n <=? 0) eqn:L; cbn [same_flow].
    + split; [reflexivity|].
      unfold same_live, same_view, same_base, same_codec, window in *. fsimpl.
      auto 20.
    + apply Z.leb_gt in L.
      destruct (cups_read_loop_spec _ _ _ R) as [(-> & _)|(-> & _ & _)]; [lia|].
      unfold same_live, same_view, same_base, same_codec, window in *. fsimpl.
      rewrite Nat2Z.id. cbn [skipn]. rewrite !overwrite_firstn.
      rewrite <- Hst. auto 20.
  - cbn [same_flow].
    unfold same_live, same_view, same_base, same_codec, window in *. auto 20.
Qed.

Lemma cong_decompress fp fp' :
  same_live fp fp' ->
  fst (fill_decompress fp) = fst (fill_decompress fp') /\
  same_live (snd (fill_decompress fp)) (snd (fill_decompress fp')) /\
  firstn (next_out (stream (snd (fill_decompress fp)))) (buf (snd (fill_decompress fp))) =
  firstn (next_out (stream (snd (fill_decompress fp')))) (buf (snd (fill_decompress fp'))).
Proof.
  intros ((Hb & Hbuf & _) & (Hst & Hcrc & Hwin)).
  pose proof Hb as (Hm & Hfd & Hp & He & Heof & Hpos & Hbp & Hc).
  rewrite <- He in Hbuf. unfold window in Hwin. rewrite <- Hst in Hwin.
  unfold fill_decompress, window. cbv zeta.
  rewrite <- Hst, <- Hwin.
  destruct (inflate_stream _ _ _) as [[[status used] out] zs]. fsimpl.
  rewrite !overwrite_firstn.
  destruct (0 <? length out)%nat eqn:L; fsimpl; rewrite ?overwrite_firstn;
    (split; [reflexivity|]); (split; [|reflexivity]);
    unfold same_live, same_view, same_base, same_codec, window; fsimpl;
    rewrite <- He, <- ?Hcrc, !window_advance;
    rewrite <- Hwin, (@firstn_overwrite_ext _ out _ _ Hbuf); auto 20.
Qed.

Lemma set_stream_same fp : set_stream (stream fp) fp = fp.
Proof. destruct fp; reflexivity. Qed.

Lemma stream_eta (s : z_stream) :
  mkStream (next_in s) (avail_in s) (next_out s) (avail_out s) (zstate s) = s.
Proof. destruct s; reflexivity. Qed.

Lemma cong_trailer fp fp' :
  same_live fp fp' ->
  same_flow same_live (fill_trailer fp) (fill_trailer fp').
Proof.
  intros ((Hb & Hbuf & _) & (Hst & Hcrc & Hwin)).
  pose proof Hb as (Hm & Hfd & Hp & He & Heof & Hpos & Hbp & Hc).
  rewrite <- He in Hbuf. unfold window in Hwin. rewrite <- Hst in Hwin.
  unfold fill_trailer. cbv zeta. rewrite <- Hst.
  set (a := avail_in (stream fp)) in *.
  set (t := if (0 <? a)%nat then Nat.min a 8 else 0%nat).
  assert (Ht : (t <= a)%nat) by (unfold t; destruct (0 <? a)%nat; lia).
  rewrite (window_take (cbuf fp) (next_in (stream fp)) Ht).
  rewrite (window_take (cbuf fp') (next_in (stream fp)) Ht).
  rewrite <- Hwin.
  assert (Hrel : forall z b,
    same_live
      (set_eof b (set_stream (mkStream (next_in (stream fp) + t) (a - t)
         (next_out (stream fp)) (avail_out (stream fp)) z) fp))
      (set_eof b (set_stream (mkStream (next_in (stream fp) + t) (a - t)
         (next_out (stream fp)) (avail_out (stream fp)) z) fp'))).
  { intros z b. unfold same_live, same_view, same_base, same_codec, window. fsimpl.
    rewrite <- He, !window_advance, <- Hwin. auto 20. }
  assert (Hupd :
    forall fq : cups_file, stream fq = stream fp ->
    (if (0 <? a)%nat
     then set_stream (zset_avail_in (a - t) (zset_next_in (next_in (stream fp) + t)
                         (stream fp))) fq
     else fq) =
    set_stream (mkStream (next_in (stream fp) + t) (a - t)
                  (next_out (stream fp)) (avail_out (stream fp))
                  (zstate (stream fp))) fq).
  { intros fq Hq. unfold t, a. destruct (0 <? avail_in (stream fp))%nat eqn:A.
    - reflexivity.
    - apply Nat.ltb_ge in A.
      assert (A0 : avail_in (stream fp) = 0%nat) by lia.
      rewrite Nat.add_0_r, Nat.sub_0_r, stream_eta, <- Hq.
      symmetry. apply set_stream_same. }
  rewrite (Hupd fp eq_refl), (Hupd fp' (eq_sym Hst)). clear Hupd.
  destruct (t <? 8)%nat.
  - fsimpl. rewrite <- Hfd.
    destruct (sys_read (fd fp) (8 - t)) as [[[n r] got] d]. fsimpl.
    rewrite <- Hcrc.
    destruct (n <? _).
    + cbn [same_flow]. split; [reflexivity|].
      pose proof (Hrel (zstate (stream fp)) true) as Hr.
      unfold same_live, same_view, same_base, same_codec, window in *. fsimpl.
      intuition auto.
    + destruct (negb (_ =? crc fp)); cbn [same_flow].
      * split; [reflexivity|].
        pose proof (Hrel (zstate (stream fp)) true) as Hr.
        unfold same_live, same_view, same_base, same_codec, window in *. fsimpl.
        intuition auto.
      * pose proof (Hrel ZNone (eof fp)) as Hr.
        unfold same_live, same_view, same_base, same_codec, window in *. fsimpl.
        intuition auto.
  - fsimpl. rewrite <- Hcrc.
    destruct (negb (_ =? crc fp)); cbn [same_flow].
    + split; [reflexivity|]. apply Hrel.
    + pose proof (Hrel ZNone (eof fp)) as Hr.
      unfold same_live, same_view, same_base, same_codec, window in *. fsimpl.
      intuition auto.
Qed.

Lemma cong_inflate fp fp' :
  same_live fp fp' ->
  same_flow same_view (fill_inflate fp) (fill_inflate fp').
Proof.
  intros H. pose proof H as ((Hb & _) & _).
  pose proof Hb as (Hm & Hfd & Hp & He & Heof & Hpos & Hbp & Hc).
  unfold fill_inflate. rewrite <- Heof.
  destruct (eof fp).
  { cbn [same_flow]. split; [reflexivity|apply H]. }
  pose proof (cong_input H) as HI.
  destruct (fill_input fp) as [r a|a], (fill_input fp') as [r' a'|a'];
    cbn [same_flow] in HI; try contradiction.
  { destruct HI as (-> & HI). cbn [same_flow]. split; [reflexivity|apply HI]. }
  destruct (cong_decompress HI) as (Hs & HD & Hout).
  pose proof (fill_decompress_spec a) as SA.
  pose proof (fill_decompress_spec a') as SA'.
  destruct (fill_decompress a) as [st b], (fill_decompress a') as [st' b'].
  cbn [fst snd] in *. subst st'.
  specialize (SA _ _ eq_refl). specialize (SA' _ _ eq_refl).
  destruct SA as (_ & _ & _ & _ & _ & _ & _ & _ & _ & Hao & Hno & _).
  destruct SA' as (_ & _ & _ & _ & _ & _ & _ & _ & _ & Hao' & Hno' & _).
  assert (Hfin : forall c c' : cups_file,
     same_live c c' ->
     avail_out (stream c) = avail_out (stream b) -> buf c = buf b ->
     avail_out (stream c') = avail_out (stream b') -> buf c' = buf b' ->
     same_flow same_view
       (let bytes := (BUFSIZE - avail_out (stream c))%nat in
        let fp0 := set_end (Some bytes) (set_ptr (Some 0%nat) c) in
        if (0 <? bytes)%nat then Return (Z.of_nat bytes) fp0 else Next fp0)
       (let bytes := (BUFSIZE - avail_out (stream c'))%nat in
        let fp0 := set_end (Some bytes) (set_ptr (Some 0%nat) c') in
        if (0 <? bytes)%nat then Return (Z.of_nat bytes) fp0 else Next fp0)).
  { intros c c' Hcc Ac Bc Ac' Bc'. cbv zeta.
    rewrite Ac, Ac', Hao, Hao'.
    assert (N : next_out (stream b) = next_out (stream b')).
    { destruct HD as (_ & (S & _)). rewrite S. reflexivity. }
    rewrite <- N in *.
    replace (BUFSIZE - (BUFSIZE - next_out (stream b)))%nat
      with (next_out (stream b)) by lia.
    assert (V : same_view
       (set_end (Some (next_out (stream b))) (set_ptr (Some 0%nat) c))
       (set_end (Some (next_out (stream b))) (set_ptr (Some 0%nat) c'))).
    { destruct Hcc as ((Hcb & _ & _) & Hcodec).
      unfold same_view, same_base, same_codec, window in *. fsimpl.
      rewrite Bc, Bc'. intuition auto. }
    destruct (0 <? next_out (stream b))%nat; cbn [same_flow]; auto. }
  destruct (st =? Z_STREAM_END).
  - pose proof (cong_trailer HD) as HT.
    pose proof (fill_trailer_spec b) as TB.
    pose proof (fill_trailer_spec b') as TB'.
    destruct (fill_trailer b) as [r c|c], (fill_trailer b') as [r' c'|c'];
      cbn [same_flow] in HT; try contradiction.
    + destruct HT as (-> & HT). cbn [same_flow]. split; [reflexivity|apply HT].
    + destruct TB as (_ & _ & _ & _ & Bc & Ac & _).
      destruct TB' as (_ & _ & _ & _ & Bc' & Ac' & _).
      apply Hfin; auto.
  - destruct (st <? Z_OK).
    + cbn [same_flow]. split; [reflexivity|].
      destruct HD as ((HDb & HDbuf & _) & HDc).
      unfold same_view, same_base, same_codec, window in *. fsimpl.
      intuition auto.
    + apply Hfin; auto.
Qed.

Lemma cong_turn fp fp' :
  same_view fp fp' ->
  same_flow same_view (fill_turn fp) (fill_turn fp').
Proof.
  intros H. pose proof H as (Hb & _).
  pose proof Hb as (Hm & Hfd & Hp & He & Heof & Hpos & Hbp & Hc).
  unfold fill_turn. rewrite <- Hp.
  destruct (is_some (ptr fp)).
  - rewrite <- Hc. destruct (compressed fp) eqn:C; [|exact H].
    apply cong_inflate. apply same_live_view; assumption.
  - pose proof (cong_header H) as HH.
    pose proof (fill_header_spec fp) as SH.
    destruct (fill_header fp) as [r a|a], (fill_header fp') as [r' a'|a'];
      cbn [same_flow] in HH; try contradiction.
    + exact HH.
    + destruct SH as (_ & Ca & _).
      assert (Ca' : compressed a' = true).
      { destruct HH as ((_ & _ & _ & _ & _ & _ & _ & E) & _). congruence. }
      rewrite Ca, Ca'. apply cong_inflate. apply same_live_view; assumption.
Qed.

Lemma cong_cond fp fp' : same_view fp fp' -> fill_cond fp = fill_cond fp'.
Proof.
  intros ((_ & _ & Hp & _ & _ & _ & _ & Hc) & _). unfold fill_cond. congruence.
Qed.

Lemma cong_loop fuel : forall fp fp',
  same_view fp fp' ->
  match fill_loop fuel fp, fill_loop fuel fp' with
  | Some a, Some b => same_flow same_view a b
  | None, None => True
  | _, _ => False
  end.
Proof.
  induction fuel as [|k IH]; intros fp fp' H; cbn [fill_loop];
    rewrite <- (cong_cond H); destruct (fill_cond fp); try exact H; auto.
  pose proof (cong_turn H) as HT.
  destruct (fill_turn fp) as [r a|a], (fill_turn fp') as [r' a'|a'];
    cbn [same_flow] in HT; try contradiction.
  - exact HT.
  - apply IH. exact HT.
Qed.

Lemma fill_loop_more fuel : forall fp res,
  fill_loop fuel fp = Some res -> fill_loop (S fuel) fp = Some res.
Proof.
  induction fuel as [|k IH]; intros fp res.
  - cbn [fill_loop]. destruct (fill_cond fp); [discriminate|auto].
  - intros H. cbn [fill_loop] in H. change (fill_loop (S (S k)) fp) with
      (if fill_cond fp
       then match fill_turn fp with
            | Return r fp0 => Some (Return r fp0)
            | Next fp0 => fill_loop (S k) fp0
            end
       else Some (Next fp)).
    destruct (fill_cond fp); [|exact H].
    destruct (fill_turn fp) as [r a|a]; [exact H|]. apply IH. exact H.
Qed.

Lemma fill_loop_enough fp fuel :
  (fill_measure fp < fuel)%nat ->
  fill_loop fuel fp = fill_loop (S (fill_measure fp)) fp.
Proof.
  intros H.
  destruct (fill_loop_spec (fuel := S (fill_measure fp)) fp (Nat.lt_succ_diag_r _))
    as (res & Hres & _).
  rewrite Hres.
  assert (G : forall k, fill_loop (k + S (fill_measure fp)) fp = Some res).
  { induction k as [|k IH]; [exact Hres|]. apply fill_loop_more in IH. exact IH. }
  replace fuel with ((fuel - S (fill_measure fp)) + S (fill_measure fp))%nat by lia.
  apply G.
Qed.

(** Fills of two handles with the same view deliver the same thing. *)
Lemma cong_fill fp fp' :
  same_view fp fp' ->
  fst (cups_fill fp) = fst (cups_fill fp') /\
  same_view (snd (cups_fill fp)) (snd (cups_fill fp')).
Proof.
  intros H.
  assert (HE : same_view (fill_enter fp) (fill_enter fp')).
  { destruct H as (Hb & Hbuf & Hcodec).
    pose proof Hb as (Hm & Hfd & Hp & He & Heof & Hpos & Hbp & Hc).
    unfold fill_enter. rewrite <- Hp, <- He.
    destruct (ptr fp), (end_ fp) eqn:E;
      unfold same_view, same_base, same_codec, window in *; fsimpl;
      rewrite ?E in *; try (rewrite <- He in * ); intuition (try congruence). }
  unfold cups_fill. cbv zeta.
  set (m := Nat.max (fill_measure (fill_enter fp)) (fill_measure (fill_enter fp'))).
  rewrite <- (@fill_loop_enough (fill_enter fp) (S m)) by (unfold m; lia).
  rewrite <- (@fill_loop_enough (fill_enter fp') (S m)) by (unfold m; lia).
  pose proof (cong_loop (S m) HE) as HL.
  destruct (fill_loop (S m) (fill_enter fp)) as [[r a|a]|],
           (fill_loop (S m) (fill_enter fp')) as [[r' a'|a']|];
    cbn [same_flow] in HL; try contradiction.
  - destruct HL as (-> & HL). split; [reflexivity|exact HL].
  - apply cong_raw. exact HL.
  - split; [reflexivity|].
    destruct HE as (Hb & Hbuf & Hcodec).
    unfold same_view, same_base, same_codec, window in *. fsimpl. intuition auto.
Qed.

Lemma cong_read_loop fuel : forall fp fp' bytes acc,
  same_view fp fp' ->
  fst (read_loop fuel fp bytes acc) = fst (read_loop fuel fp' bytes acc) /\
  same_view (snd (read_loop fuel fp bytes acc)) (snd (read_loop fuel fp' bytes acc)).
Proof.
  induction fuel as [|k IH]; intros fp fp' bytes acc H; cbn [read_loop].
  { split; [reflexivity|exact H]. }
  destruct (bytes =? 0)%nat; [split; [reflexivity|exact H]|].
  assert (A : at_end fp = at_end fp').
  { destruct H as ((_ & _ & Hp & He & _) & _). unfold at_end. rewrite Hp, He. reflexivity. }
  rewrite <- A.
  assert (Hstep : fst (if at_end fp then cups_fill fp else (1, fp)) =
                  fst (if at_end fp then cups_fill fp' else (1, fp')) /\
                  same_view (snd (if at_end fp then cups_fill fp else (1, fp)))
                            (snd (if at_end fp then cups_fill fp' else (1, fp')))).
  { destruct (at_end fp); [apply cong_fill; exact H|split; [reflexivity|exact H]]. }
  destruct (if at_end fp then cups_fill fp else (1, fp)) as [r a].
  destruct (if at_end fp then cups_fill fp' else (1, fp')) as [r' a'].
  cbn [fst snd] in Hstep. destruct Hstep as (<- & Ha).
  destruct (r <=? 0).
  { destruct (0 <? length acc)%nat; split; auto. }
  cbv zeta.
  pose proof Ha as ((Hm & Hfd & Hp & He & Heof & Hpos & Hbp & Hc) & Hbuf & Hcodec).
  rewrite <- Hp, <- He, <- Hpos.
  set (count := Nat.min (off (end_ a) - off (ptr a)) bytes).
  assert (Hd : firstn count (skipn (off (ptr a)) (buf a)) =
               firstn count (skipn (off (ptr a)) (buf a'))).
  { rewrite <- He in Hbuf.
    apply (f_equal (fun l => firstn count (skipn (off (ptr a)) l))) in Hbuf.
    rewrite !skipn_firstn_comm, !firstn_firstn in Hbuf.
    replace (Nat.min count (off (end_ a) - off (ptr a))) with count in Hbuf
      by (unfold count; lia).
    exact Hbuf. }
  rewrite <- Hd. apply IH.
  unfold same_view, same_base, same_codec, window in *. fsimpl. intuition auto.
Qed.

Lemma cong_read fp fp' n :
  same_view fp fp' ->
  fst (cupsFileRead fp n) = fst (cupsFileRead fp' n).
Proof.
  intros H. pose proof H as ((Hm & _ & _ & _ & Heof & _) & _).
  unfold cupsFileRead, readable. rewrite <- Hm, <- Heof.
  destruct (negb _); [reflexivity|].
  destruct (n =? 0)%nat; [reflexivity|].
  destruct (eof fp); [reflexivity|].
  apply cong_read_loop. exact H.
Qed.

(** *** What reading leaves of the descriptor and of the anchor *)

Lemma same_file_refl d : same_file d d.
Proof. reflexivity. Qed.

Lemma same_file_trans d1 d2 d3 : same_file d1 d2 -> same_file d2 d3 -> same_file d1 d3.
Proof. unfold same_file. congruence. Qed.

Lemma same_file_reads d d' : same_file d d' -> f_reads d' = f_reads d.
Proof. unfold same_file. intros H. apply (f_equal f_reads) in H. exact H. Qed.

Lemma cups_read_file fp n :
  f_reads (fd fp) = [] -> same_file (fd fp) (fd (snd (cups_read fp n))).
Proof. intros H. rewrite cups_read_plain by exact H. reflexivity. Qed.

Lemma sys_read_file d n :
  f_reads d = [] -> same_file d (snd (sys_read d n)).
Proof. intros H. unfold sys_read. rewrite H. reflexivity. Qed.

Lemma fill_header_file fp :
  f_reads (fd fp) = [] -> same_file (fd fp) (fd (flow_handle (fill_header fp))).
Proof.
  intros H. unfold fill_header. cbv zeta.
  rewrite cups_read_plain by exact H. fsimpl.
  destruct (_ <? 0); [reflexivity|].
  destruct (not_gzip _ _); [reflexivity|].
  destruct (gz_header _ _); [|reflexivity].
  destruct (inflateInit2_core (-15)) as [status zs].
  destruct (negb _); destruct (0 <? _)%nat; reflexivity.
Qed.

Lemma fill_input_file fp :
  f_reads (fd fp) = [] -> same_file (fd fp) (fd (flow_handle (fill_input fp))).
Proof.
  intros H. unfold fill_input.
  destruct (_ =? 0)%nat; [|reflexivity].
  rewrite cups_read_plain by exact H.
  destruct (_ <=? 0); reflexivity.
Qed.

Lemma fill_trailer_file fp :
  f_reads (fd fp) = [] -> same_file (fd fp) (fd (flow_handle (fill_trailer fp))).
Proof.
  intros H. unfold fill_trailer. cbv zeta.
  destruct (0 <? avail_in (stream fp))%nat;
    match goal with |- context [if (?t <? 8)%nat then _ else _] =>
      destruct (t <? 8)%nat end; fsimpl.
  all: try (unfold sys_read; rewrite H; fsimpl).
  all: repeat match goal with
       | |- context [if ?c then _ else _] => destruct c
       end; reflexivity.
Qed.

Lemma fill_raw_file fp :
  f_reads (fd fp) = [] -> same_file (fd fp) (fd (snd (fill_raw fp))).
Proof.
  intros H. unfold fill_raw. rewrite cups_read_plain by exact H.
  destruct (_ <=? 0); reflexivity.
Qed.

Lemma fill_inflate_file fp :
  f_reads (fd fp) = [] -> same_file (fd fp) (fd (flow_handle (fill_inflate fp))).
Proof.
  intros H. unfold fill_inflate.
  destruct (eof fp); [reflexivity|].
  pose proof (fill_input_file fp H) as HI.
  destruct (fill_input fp) as [r a|a]; [exact HI|]. cbn [flow_handle] in HI.
  pose proof (same_file_reads HI) as Ra. rewrite H in Ra.
  destruct (fill_decompress a) as [st b] eqn:D.
  destruct (fill_decompress_spec _ D) as (Hfd & _).
  destruct (st =? Z_STREAM_END).
  - assert (Rb : f_reads (fd b) = []) by congruence.
    pose proof (fill_trailer_file b Rb) as HT. rewrite Hfd in HT.
    destruct (fill_trailer b) as [r c|c]; cbn [flow_handle] in *.
    + eapply same_file_trans; eauto.
    + cbv zeta. destruct (0 <? _)%nat; cbn [flow_handle]; fsimpl;
        eapply same_file_trans; eauto.
  - destruct (st <? Z_OK); cbv zeta.
    + cbn [flow_handle]. fsimpl. rewrite Hfd. exact HI.
    + destruct (0 <? _)%nat; cbn [flow_handle]; fsimpl; rewrite Hfd; exact HI.
Qed.

Lemma fill_turn_file fp :
  f_reads (fd fp) = [] -> same_file (fd fp) (fd (flow_handle (fill_turn fp))).
Proof.
  intros H. unfold fill_turn.
  destruct (is_some (ptr fp)).
  - destruct (compressed fp); [apply fill_inflate_file; exact H|reflexivity].
  - pose proof (fill_header_file fp H) as HH.
    destruct (fill_header fp) as [r a|a]; [exact HH|]. cbn [flow_handle] in HH.
    pose proof (same_file_reads HH) as Ra. rewrite H in Ra.
    destruct (compressed a); [|exact HH].
    eapply same_file_trans; [exact HH|]. apply fill_inflate_file. exact Ra.
Qed.

Lemma fill_loop_file fuel : forall fp res,
  f_reads (fd fp) = [] ->
  fill_loop fuel fp = Some res ->
  same_file (fd fp) (fd (flow_handle res)).
Proof.
  induction fuel as [|k IH]; intros fp res H; cbn [fill_loop];
    destruct (fill_cond fp); try discriminate;
    try (intros [= <-]; reflexivity).
  pose proof (fill_turn_file fp H) as HT.
  destruct (fill_turn fp) as [r a|a]; cbn [flow_handle] in HT.
  - intros [= <-]. exact HT.
  - intros HL. eapply same_file_trans; [exact HT|].
    apply IH; [|exact HL]. rewrite (same_file_reads HT). exact H.
Qed.

(** A fill changes the descriptor in its offset only, and moves the
    anchor by the length of the buffer it replaces. *)
Lemma cups_fill_keeps fp :
  f_reads (fd fp) = [] ->
  same_file (fd fp) (fd (snd (cups_fill fp))) /\
  mode (snd (cups_fill fp)) = mode fp /\
  pos (snd (cups_fill fp)) = pos fp /\
  bufpos (snd (cups_fill fp)) = bufpos (fill_enter fp).
Proof.
  intros H.
  pose proof (cups_fill_spec fp) as ((Hpos & Hbp & Hm & _) & _).
  destruct (fill_enter_fields fp) as (Hpos' & _ & _ & _ & _ & Hfd & _ & Hm').
  split; [|repeat split; congruence].
  unfold cups_fill. cbv zeta.
  destruct (fill_loop_spec (fuel := S (fill_measure (fill_enter fp))) (fill_enter fp))
    as (res & Hres & _); [lia|].
  rewrite Hres.
  assert (He : f_reads (fd (fill_enter fp)) = []) by congruence.
  pose proof (fill_loop_file _ _ He Hres) as HL. rewrite Hfd in HL.
  destruct res as [r a|a]; cbn [flow_handle snd] in *; [exact HL|].
  eapply same_file_trans; [exact HL|]. apply fill_raw_file.
  rewrite (same_file_reads HL). exact H.
Qed.

Lemma fill_enter_bufpos fp : bufpos fp <= bufpos (fill_enter fp).
Proof.
  unfold fill_enter. destruct (ptr fp), (end_ fp); fsimpl; lia.
Qed.

Lemma read_loop_keeps fuel : forall fp bytes acc,
  f_reads (fd fp) = [] ->
  same_file (fd fp) (fd (snd (read_loop fuel fp bytes acc))) /\
  mode (snd (read_loop fuel fp bytes acc)) = mode fp /\
  bufpos fp <= bufpos (snd (read_loop fuel fp bytes acc)).
Proof.
  induction fuel as [|k IH]; intros fp bytes acc H; cbn [read_loop].
  { cbn [snd]. repeat split; try reflexivity; lia. }
  destruct (bytes =? 0)%nat.
  { cbn [snd]. repeat split; try reflexivity; lia. }
  assert (Hstep :
    same_file (fd fp) (fd (snd (if at_end fp then cups_fill fp else (1, fp)))) /\
    mode (snd (if at_end fp then cups_fill fp else (1, fp))) = mode fp /\
    bufpos fp <= bufpos (snd (if at_end fp then cups_fill fp else (1, fp)))).
  { destruct (at_end fp).
    - destruct (cups_fill_keeps fp H) as (? & ? & ? & Hb).
      pose proof (fill_enter_bufpos fp). repeat split; auto. lia.
    - cbn [snd]. repeat split; try reflexivity; lia. }
  destruct (if at_end fp then cups_fill fp else (1, fp)) as [r a].
  cbn [snd] in Hstep. destruct Hstep as (Hf & Hm & Hb).
  destruct (r <=? 0).
  { destruct (0 <? length acc)%nat; cbn [snd]; auto. }
  cbv zeta.
  match goal with |- context [read_loop k ?s ?b ?c] =>
    destruct (IH s b c) as (Hf' & Hm' & Hb') end.
  { fsimpl. rewrite (same_file_reads Hf). exact H. }
  fsimpl. repeat split.
  - eapply same_file_trans; eauto.
  - congruence.
  - lia.
Qed.

(** *** Reading, rewinding and reading again *)

Lemma read_loop_done fuel fp acc :
  read_loop fuel fp 0 acc = (Z.of_nat (length acc), acc, fp).
Proof. destruct fuel; reflexivity. Qed.

(** A turn of the read loop that starts with an exhausted buffer moves
    the anchor past that buffer for good. *)
Lemma read_loop_exhausted fuel fp bytes acc p e :
  f_reads (fd fp) = [] ->
  ptr fp = Some p -> end_ fp = Some e -> (e <= p)%nat -> (0 < bytes)%nat ->
  bufpos fp + Z.of_nat e <= bufpos (snd (read_loop (S fuel) fp bytes acc)).
Proof.
  intros H P E Hep Hb. cbn [read_loop].
  destruct (Nat.eqb_spec bytes 0) as [->|_]; [lia|].
  unfold at_end. rewrite P, E.
  destruct (Nat.leb_spec e p) as [_|]; [|lia].
  destruct (cups_fill_keeps fp H) as (Hf & _ & _ & Hbp).
  assert (Hen : bufpos (fill_enter fp) = bufpos fp + Z.of_nat e).
  { unfold fill_enter. rewrite P, E. reflexivity. }
  destruct (cups_fill fp) as [r a]. cbn [snd] in *.
  destruct (r <=? 0).
  { destruct (0 <? length acc)%nat; cbn [snd]; lia. }
  cbv zeta.
  match goal with |- context [read_loop fuel ?s ?b ?c] =>
    destruct (read_loop_keeps fuel s b c) as (_ & _ & Hle) end.
  { fsimpl. rewrite (same_file_reads Hf). exact H. }
  fsimpl. lia.
Qed.

(** The first turn of a read on a handle just opened. *)
Lemma read_fresh_turn data fp k :
  fresh_on data fp ->
  0 < fst (fst (cupsFileRead fp (S k))) ->
  exists c s1,
    cups_fill fp = (Z.of_nat c, s1) /\ (0 < c)%nat /\
    mode s1 = "r"%char /\ pos s1 = 0 /\ bufpos s1 = 0 /\
    ptr s1 = Some 0%nat /\ end_ s1 = Some c /\ eof s1 = false /\
    same_file (fd fp) (fd s1) /\
    cupsFileRead fp (S k) =
    read_loop k (set_pos (Z.of_nat (Nat.min c (S k)))
                   (set_ptr (Some (Nat.min c (S k))) s1))
              (S k - Nat.min c (S k)) (firstn (Nat.min c (S k)) (buf s1)).
Proof.
  intros F. pose proof F as (Hm & Hp & He & Heof & Hpos & Hbp & Hc & _ & Hr & _).
  unfold cupsFileRead, readable. rewrite Hm, Heof.
  change (negb (Ascii.eqb "r" "r" || Ascii.eqb "r" "s")) with false.
  cbn [Nat.eqb read_loop]. cbv iota.
  unfold at_end. rewrite He.
  replace (match ptr fp with Some _ | _ => true end) with true by (destruct (ptr fp); reflexivity).
  pose proof (cups_fill_spec fp) as (HS & HP).
  destruct (cups_fill_keeps fp Hr) as (Hf & _).
  assert (HE : fill_enter fp = fp) by (unfold fill_enter; rewrite Hp; reflexivity).
  rewrite HE in *.
  destruct (cups_fill fp) as [r s1]. cbn [fst snd] in *.
  destruct (Z.leb_spec r 0) as [Hr0|Hr0].
  { cbn [length Nat.ltb Nat.leb fst]. lia. }
  intros _. destruct HP as [(? & _)|(_ & P1 & E1 & _ & Heof1)]; [lia|].
  destruct HS as (Hpos1 & Hbp1 & Hm1 & _).
  exists (Z.to_nat r), s1. rewrite Z2Nat.id by lia.
  repeat split; auto; try congruence; try lia.
  cbv zeta. rewrite P1, E1. fsimpl. rewrite Hpos1, Hpos, Nat.sub_0_r.
  cbn [Nat.add skipn app Z.add]. reflexivity.
Qed.

Lemma fdesc_at_start d : f_off d = 0%nat -> dset_off 0 d = d.
Proof. destruct d. cbn. intros ->. reflexivity. Qed.

(** C6: on a handle just opened on a regular file, a read that returns
    data, a seek to position 0 and the same read again: the seek succeeds
    and the second read returns the same count and the same bytes, whether
    the file is gzip or not. *)
Theorem C6_read_rewind_read data fp n :
  fresh_on data fp ->
  0 < fst (fst (cupsFileRead fp n)) ->
  fst (cupsFileSeek (snd (cupsFileRead fp n)) 0) = 0 /\
  fst (cupsFileRead (snd (cupsFileSeek (snd (cupsFileRead fp n)) 0)) n) =
  fst (cupsFileRead fp n).
Proof.
  intros F HR.
  destruct n as [|k].
  { exfalso. revert HR. unfold cupsFileRead.
    destruct (negb (readable fp)); cbn; lia. }
  destruct (read_fresh_turn k F HR)
    as (c & s1 & Hfill & Hc & Hm1 & Hpos1 & Hbp1 & P1 & E1 & Heof1 & Hf1 & Hread).
  pose proof F as (Hm & Hp & He & Heof & Hpos & Hbp & Hcomp & _ & Hr & Hoff & Hseek).
  assert (Hkeep := read_loop_keeps (S k) fp (S k) [] Hr).
  assert (Hsame : cupsFileRead fp (S k) = read_loop (S k) fp (S k) []).
  { unfold cupsFileRead, readable. rewrite Hm, Heof. reflexivity. }
  rewrite <- Hsame in Hkeep. destruct Hkeep as (Hfile & Hmode & _).
  unfold cupsFileSeek at 1 2. rewrite Hmode, Hm.
  change ((0 <? 0) || negb (Ascii.eqb "r" "r")) with false.
  change (0 =? 0) with true. cbv iota.
  destruct (Nat.le_gt_cases (S k) c) as [Hle|Hgt].
  - (* the first buffer holds all that is asked for *)
    rewrite Hread. rewrite Nat.min_r by exact Hle.
    rewrite Nat.sub_diag, read_loop_done. cbn [fst snd].
    unfold cupsFileRewind. fsimpl. rewrite Hm1, Hbp1.
    change (negb (Ascii.eqb "r" "r")) with false.
    change (0 =? 0) with true. cbn [is_some fst snd]. split; [reflexivity|].
    unfold cupsFileRead, readable. fsimpl. rewrite Hm1.
    change (negb (Ascii.eqb "r" "r" || Ascii.eqb "r" "s")) with false.
    cbn [Nat.eqb read_loop]. cbv iota.
    unfold at_end. fsimpl. rewrite E1.
    destruct (Nat.leb_spec c 0) as [|_]; [lia|].
    cbv zeta. cbn [Z.leb Z.compare]. fsimpl. rewrite E1.
    rewrite Nat.sub_0_r, Nat.min_r by exact Hle.
    rewrite Nat.sub_diag, !read_loop_done. reflexivity.
  - (* a second fill was needed: the rewind starts over *)
    assert (Hpos2 : 0 < bufpos (snd (cupsFileRead fp (S k)))).
    { rewrite Hread. rewrite Nat.min_l by lia.
      destruct k as [|k']; [lia|].
      match goal with |- context [read_loop (S k') ?s ?b ?a] =>
        pose proof (@read_loop_exhausted k' s b a c c) as Hx end.
      fsimpl. rewrite Hbp1 in Hx.
      assert (f_reads (fd s1) = []) by (rewrite (same_file_reads Hf1); exact Hr).
      specialize (Hx ltac:(assumption) eq_refl E1 (Nat.le_refl _) ltac:(lia)).
      lia. }
    set (s := snd (cupsFileRead fp (S k))) in *.
    assert (Hrw : fst (cupsFileRewind s) = 0 /\ same_view fp (snd (cupsFileRewind s))).
    { unfold cupsFileRewind. rewrite Hmode, Hm.
      change (negb (Ascii.eqb "r" "r")) with false. cbv iota.
      destruct (Z.eqb_spec (bufpos s) 0) as [|_]; [lia|].
      cbv zeta.
      assert (Hsk : f_seekable (fd s) = true).
      { rewrite <- Hseek. unfold same_file in Hfile.
        apply (f_equal f_seekable) in Hfile. exact Hfile. }
      assert (Hfd : dset_off 0 (fd s) = fd fp).
      { rewrite Hfile. apply fdesc_at_start. exact Hoff. }
      unfold sys_lseek.
      destruct (compressed s) eqn:Cs; fsimpl; rewrite Hsk; cbn [andb Z.leb Z.compare];
        cbn [Z.to_nat Z.eqb negb fst snd]; fsimpl;
        (split; [reflexivity|]);
        unfold same_view, same_base, same_codec; fsimpl;
        rewrite Hmode, Hm, Hfd, Hp, He, Heof, Hpos, Hbp, Hcomp;
        rewrite ?Cs; repeat split; try reflexivity; try discriminate. }
    destruct Hrw as (Hr0 & Hview). split; [exact Hr0|].
    symmetry. apply cong_read. exact Hview.
Qed.

(** *** The anchor of the buffer *)

(** A fill that succeeds on an exhausted buffer, or on a handle without
    a buffer whose anchor is the position, leaves the position at the
    anchor of the new buffer. *)
Lemma fill_keeps_anchor fp :
  match ptr fp, end_ fp with
  | Some p, Some e => p = e /\ pos fp = bufpos fp + Z.of_nat p
  | _, _ => pos fp = bufpos fp
  end ->
  0 < fst (cups_fill fp) ->
  anchored (snd (cups_fill fp)).
Proof.
  intros HA Hr.
  pose proof (cups_fill_spec fp) as ((Hpos & Hbp & _) & HP).
  destruct HP as [(? & _)|(_ & P1 & _)]; [lia|].
  unfold anchored. rewrite P1, Hpos, Hbp.
  unfold fill_enter.
  destruct (ptr fp) as [p|], (end_ fp) as [e|]; fsimpl; lia.
Qed.

Lemma settled_anchored fp : settled fp -> anchored fp.
Proof.
  unfold settled, anchored.
  destruct (ptr fp), (end_ fp); intuition.
Qed.

(** A fill that does not fail, where [cupsFileRead] asks for one, leaves
    the cursor settled at the start of the new buffer. *)
Lemma fill_settled fp :
  settled fp -> at_end fp = true ->
  0 < fst (cups_fill fp) \/ eof (snd (cups_fill fp)) = false ->
  settled (snd (cups_fill fp)) /\ is_some (end_ (snd (cups_fill fp))) = true.
Proof.
  intros HS HA Hr.
  pose proof (cups_fill_spec fp) as ((Hpos & Hbp & _) & HP).
  destruct HP as [(? & He & _)|(_ & P1 & E1 & _)].
  { destruct Hr as [|Hr]; [lia|]. rewrite He in Hr. discriminate Hr. }
  split; [|rewrite E1; reflexivity].
  unfold settled in *. rewrite P1, E1, Hpos, Hbp.
  unfold at_end, fill_enter in *.
  destruct (ptr fp) as [p|], (end_ fp) as [e|]; fsimpl; try contradiction;
    try discriminate; split; try lia.
  apply Nat.leb_le in HA. lia.
Qed.

(** A read during which no fill fails keeps the cursor settled. *)
Lemma read_loop_settled fuel : forall fp bytes acc,
  settled fp ->
  eof (snd (read_loop fuel fp bytes acc)) = false ->
  settled (snd (read_loop fuel fp bytes acc)).
Proof.
  induction fuel as [|k IH]; intros fp bytes acc HS; cbn [read_loop]; [auto|].
  destruct (bytes =? 0)%nat; [auto|].
  assert (Hstep :
    0 < fst (if at_end fp then cups_fill fp else (1, fp)) \/
    eof (snd (if at_end fp then cups_fill fp else (1, fp))) = false ->
    settled (snd (if at_end fp then cups_fill fp else (1, fp))) /\
    is_some (end_ (snd (if at_end fp then cups_fill fp else (1, fp)))) = true).
  { destruct (at_end fp) eqn:HA; cbn [fst snd]; [apply fill_settled; assumption|].
    intros _. split; [exact HS|]. revert HA. unfold at_end.
    destruct (ptr fp), (end_ fp); cbn; congruence. }
  destruct (if at_end fp then cups_fill fp else (1, fp)) as [r a].
  cbn [fst snd] in Hstep.
  destruct (Z.leb_spec r 0) as [Hle|Hgt].
  { destruct (0 <? length acc)%nat; cbn [snd]; intros He; apply Hstep; auto. }
  cbv zeta. apply IH.
  destruct (Hstep (or_introl Hgt)) as (Hs & He). unfold settled in *. fsimpl.
  destruct (ptr a) as [p|], (end_ a) as [e|]; try contradiction; try discriminate He;
    cbn [off]; lia.
Qed.

Lemma cupsFileRead_settled fp n :
  settled fp -> eof (snd (cupsFileRead fp n)) = false ->
  settled (snd (cupsFileRead fp n)).
Proof.
  intros HS. unfold cupsFileRead.
  destruct (negb (readable fp)); [auto|].
  destruct (n =? 0)%nat; [auto|].
  destruct (eof fp); [auto|].
  apply read_loop_settled. exact HS.
Qed.

Lemma seek_loop_window fuel : forall fp p,
  0 < fst (seek_loop fuel fp p) ->
  in_window (snd (seek_loop fuel fp p)) p (fst (seek_loop fuel fp p)) = true.
Proof.
  induction fuel as [|k IH]; intros fp p; cbn [seek_loop];
    destruct (cups_fill fp) as [bytes a];
    destruct (Z.leb_spec bytes 0); cbn [fst snd]; try lia;
    destruct (in_window a p bytes) eqn:W; cbn [fst snd]; auto; lia.
Qed.

(** A seek that succeeds leaves the position in step with the anchor,
    whatever the handle was like before. *)
Lemma cupsFileSeek_anchored fp p :
  0 <= fst (cupsFileSeek fp p) -> anchored (snd (cupsFileSeek fp p)).
Proof.
  unfold cupsFileSeek.
  destruct ((p <? 0) || negb (Ascii.eqb (mode fp) "r")); [cbn; lia|].
  destruct (p =? 0).
  { unfold cupsFileRewind.
    destruct (negb (Ascii.eqb (mode fp) "r")); [cbn; lia|].
    destruct (Z.eqb_spec (bufpos fp) 0) as [E|_].
    - intros _. cbn [snd]. fsimpl.
      destruct (ptr fp) eqn:P; cbn [is_some]; unfold anchored; fsimpl;
        rewrite ?P; [lia|exact I].
    - cbv zeta. destruct (sys_lseek _ 0) as [r d].
      destruct (negb (r =? 0)); [cbn; lia|]. intros _. exact I. }
  destruct (is_some (ptr fp) && in_window fp p (Z.of_nat (off (end_ fp)))) eqn:W.
  { intros _. apply andb_prop in W as (_ & W). unfold in_window in W.
    apply andb_prop in W as (W & _). apply Z.leb_le in W.
    unfold anchored. cbn [snd]. fsimpl. lia. }
  destruct (if negb (compressed fp) && negb (is_some (ptr fp)) then cups_fill fp else (1, fp))
    as [r a].
  destruct (r <=? 0); [cbn; lia|]. cbv zeta. fsimpl.
  destruct (compressed a).
  - match goal with |- context [seek_loop ?f ?s p] =>
      pose proof (@seek_loop_window f s p) as HW;
      destruct (seek_loop f s p) as [bytes b] end.
    cbn [fst snd] in HW.
    destruct (Z.leb_spec bytes 0); [cbn; lia|]. intros _.
    specialize (HW ltac:(lia)). unfold in_window in HW.
    apply andb_prop in HW as (HW & _). apply Z.leb_le in HW.
    unfold anchored. cbn [snd]. fsimpl. lia.
  - destruct (sys_lseek (fd a) p) as [r' d]. intros _. exact I.
Qed.

(** ** Writes on the descriptor *)

Lemma firstn_plus (a k : nat) (l : list byte) :
  firstn (a + k) l = firstn a l ++ firstn k (skipn a l).
Proof.
  revert l. induction a as [|a IH]; intros [|x l]; cbn [Nat.add firstn skipn app];
    try reflexivity.
  - rewrite firstn_nil. reflexivity.
  - rewrite IH. reflexivity.
Qed.

Lemma cups_write_loop_outcome fuel : forall d data,
  (length (f_writes d) < fuel)%nat ->
  (fst (cups_write_loop fuel d data) = true ->
   f_out (snd (cups_write_loop fuel d data)) = f_out d ++ data) /\
  (fst (cups_write_loop fuel d data) = false ->
   In WrErr (f_writes d) /\
   exists k, f_out (snd (cups_write_loop fuel d data)) = f_out d ++ firstn k data).
Proof.
  induction fuel as [|fuel IH]; intros d data Hfuel; [lia|].
  destruct data as [|b data'] eqn:D.
  { cbn. split; [intros _; rewrite app_nil_r; reflexivity|discriminate]. }
  rewrite <- D. assert (Hne : data <> []) by (rewrite D; discriminate).
  clear D b data'.
  assert (Hunfold : cups_write_loop (S fuel) d data =
    let '(count, retry, d') := sys_write d data in
    if count <? 0 then
      if retry then cups_write_loop fuel d' data else (false, d')
    else cups_write_loop fuel d' (skipn (Z.to_nat count) data)).
  { destruct data; [contradiction|reflexivity]. }
  rewrite Hunfold. clear Hunfold. unfold sys_write.
  destruct (f_writes d) as [|[n| |] evs] eqn:W.
  - (* the script is used up: everything goes out at once *)
    destruct (Z.ltb_spec (Z.of_nat (length data)) 0) as [|_]; [lia|].
    rewrite Nat2Z.id, skipn_all.
    replace (cups_write_loop fuel (dset_out (f_out d ++ data) d) [])
      with (true, dset_out (f_out d ++ data) d) by (destruct fuel; reflexivity).
    cbn [fst snd]. fsimpl. split; [auto|discriminate].
  - (* a short write: the rest is written by the next turns *)
    destruct (Z.ltb_spec (Z.of_nat (length (firstn n data))) 0) as [|_]; [lia|].
    rewrite Nat2Z.id.
    set (d1 := dset_writes evs (dset_out (f_out d ++ firstn n data) d)).
    destruct (IH d1 (skipn (length (firstn n data)) data)) as (Hok & Hko).
    { unfold d1. fsimpl. cbn [length] in Hfuel. lia. }
    assert (Hput : firstn (length (firstn n data)) data = firstn n data).
    { rewrite length_firstn. destruct (Nat.le_ge_cases n (length data)).
      - rewrite Nat.min_l by assumption. reflexivity.
      - rewrite Nat.min_r by assumption.
        rewrite firstn_all, firstn_all2 by assumption. reflexivity. }
    split.
    + intros H. rewrite (Hok H). unfold d1. fsimpl.
      rewrite <- app_assoc. f_equal.
      rewrite <- Hput at 1. apply firstn_skipn.
    + intros H. destruct (Hko H) as (Hin & k & Hk). unfold d1 in Hin. fsimpl.
      split; [right; exact Hin|].
      exists (length (firstn n data) + k)%nat. rewrite Hk. unfold d1. fsimpl.
      rewrite <- app_assoc, firstn_plus, Hput. reflexivity.
  - (* interrupted: the same bytes are tried again *)
    cbn [Z.ltb Z.compare].
    destruct (IH (dset_writes evs d) data) as (Hok & Hko).
    { fsimpl. cbn [length] in Hfuel. lia. }
    fsimpl. split; [exact Hok|].
    intros H. destruct (Hko H) as (Hin & Hk). split; [right; exact Hin|exact Hk].
  - cbn [Z.ltb Z.compare fst snd]. fsimpl. split; [discriminate|].
    intros _. split; [left; reflexivity|]. exists 0%nat. cbn. rewrite app_nil_r. reflexivity.
Qed.

Lemma cups_write_loop_fields fuel : forall d data,
  let d' := snd (cups_write_loop fuel d data) in
  incl (f_writes d') (f_writes d) /\ f_close_fails d' = f_close_fails d /\
  f_closed d' = f_closed d.
Proof.
  induction fuel as [|fuel IH]; intros d data; cbn zeta.
  { destruct data; cbn; auto using incl_refl. }
  destruct data as [|b data'] eqn:Dd; [cbn; auto using incl_refl|].
  rewrite <- Dd. assert (Hne : data <> []) by (rewrite Dd; discriminate).
  clear Dd b data'.
  assert (Hunfold : cups_write_loop (S fuel) d data =
    let '(count, retry, d') := sys_write d data in
    if count <? 0 then
      if retry then cups_write_loop fuel d' data else (false, d')
    else cups_write_loop fuel d' (skipn (Z.to_nat count) data)).
  { destruct data; [contradiction|reflexivity]. }
  rewrite Hunfold. clear Hunfold.
  unfold sys_write.
  destruct (f_writes d) as [|[n| |] evs] eqn:W.
  - destruct (Z.ltb_spec (Z.of_nat (length data)) 0); [lia|].
    destruct (IH (dset_out (f_out d ++ data) d) (skipn (Z.to_nat (Z.of_nat (length data))) data))
      as (Hi & Hc & Hcl).
    fsimpl. rewrite W in Hi. repeat split; auto.
  - destruct (Z.ltb_spec (Z.of_nat (length (firstn n data))) 0); [lia|].
    match goal with |- context [cups_write_loop fuel ?x ?y] =>
      destruct (IH x y) as (Hi & Hc & Hcl) end.
    fsimpl. repeat split; auto. apply incl_tl. exact Hi.
  - cbn [Z.ltb Z.compare].
    destruct (IH (dset_writes evs d) data) as (Hi & Hc & Hcl).
    fsimpl. repeat split; auto. apply incl_tl. exact Hi.
  - cbn [Z.ltb Z.compare snd]. fsimpl. repeat split; auto.
    apply incl_tl, incl_refl.
Qed.

(** On a descriptor whose writes never fail for good, [cups_write]
    succeeds and adds the bytes to the file. *)
Lemma cups_write_clean fp data :
  ~ In WrErr (f_writes (fd fp)) ->
  exists d, cups_write fp data = (true, set_fd d fp) /\
    f_out d = f_out (fd fp) ++ data /\ ~ In WrErr (f_writes d) /\
    f_close_fails d = f_close_fails (fd fp) /\ f_closed d = f_closed (fd fp).
Proof.
  intros Hclean. unfold cups_write.
  pose proof (@cups_write_loop_outcome (S (length (f_writes (fd fp)))) (fd fp) data
                (Nat.lt_succ_diag_r _)) as (Hok & Hko).
  pose proof (cups_write_loop_fields (S (length (f_writes (fd fp)))) (fd fp) data)
    as (Hi & Hc & Hcl).
  destruct (cups_write_loop _ (fd fp) data) as [ok d]. cbn [fst snd] in *.
  destruct ok.
  - exists d. repeat split; auto.
  - destruct (Hko eq_refl) as (X & _). contradiction.
Qed.

(** ** Writing compressed data *)



Lemma overwrite_at_length p data old :
  (p + length data <= length old)%nat -> length (overwrite_at p data old) = length old.
Proof.
  intros H. unfold overwrite_at.
  rewrite !length_app, length_firstn, length_skipn. lia.
Qed.

Lemma overwrite_at_firstn p data old :
  (p <= length old)%nat ->
  firstn (p + length data) (overwrite_at p data old) = firstn p old ++ data.
Proof.
  intros H. unfold overwrite_at. rewrite app_assoc.
  rewrite firstn_app.
  replace (p + length data - length (firstn p old ++ data))%nat with 0%nat
    by (rewrite length_app, length_firstn; lia).
  cbn [firstn]. rewrite app_nil_r. apply firstn_all2.
  rewrite length_app, length_firstn. lia.
Qed.




Lemma compress_loop_S k fp data :
  compress_loop (S k) fp data =
  if (avail_in (stream fp) =? 0)%nat then Some (true, fp)
  else
    let '(ok, fp) :=
      if (avail_out (stream fp) <? CBUF_LOW)%nat then
        let '(ok, fp) := cups_write fp (firstn (next_out (stream fp)) (cbuf fp)) in
        (ok, if ok then reset_out fp else fp)
      else (true, fp) in
    if negb ok then Some (false, fp)
    else
      let '(status, fp) := do_deflate fp data Z_NO_FLUSH in
      if (status <? Z_OK) && negb (status =? Z_BUF_ERROR) then Some (false, fp)
      else compress_loop k fp data.
Proof. reflexivity. Qed.























(** *** Opening for compressed writing *)


(** *** Closing a compressed write handle *)

Lemma drain_loop_eq fuel fp status done :
  drain_loop fuel fp status done =
  let '(status, fp) :=
    if (0 <? next_out (stream fp))%nat then
      let '(ok, fp) := cups_write fp (firstn (next_out (stream fp)) (cbuf fp)) in
      (ok, reset_out fp)
    else (status, fp) in
  if done || negb status then Some (status, done, fp)
  else
    match fuel with
    | O => None
    | S k =>
        let '(zstatus, fp) := do_deflate fp [] Z_FINISH in
        drain_loop k fp status
          ((zstatus =? Z_STREAM_END) && (next_out (stream fp) =? 0)%nat)
    end.
Proof. destruct fuel; reflexivity. Qed.










(** *** Closing when a write fails *)

Lemma cups_write_handle fp data :
  snd (cups_write fp data) = set_fd (fd (snd (cups_write fp data))) fp.
Proof. unfold cups_write. destruct (cups_write_loop _ _ _). reflexivity. Qed.

Lemma do_deflate_fields fp data flush :
  mode (snd (do_deflate fp data flush)) = mode fp /\
  compressed (snd (do_deflate fp data flush)) = compressed fp /\
  is_stdio (snd (do_deflate fp data flush)) = is_stdio fp /\
  is_deflate (zstate (stream (snd (do_deflate fp data flush)))) =
    is_deflate (zstate (stream fp)).
Proof.
  unfold do_deflate. destruct (zstate (stream fp)) as [|s|s] eqn:Z;
    cbn [snd]; rewrite ?Z; auto.
  destruct (deflate s _ _ flush) as [[[st used] out] s']. cbn [snd]. fsimpl. auto.
Qed.

Lemma compress_loop_fields : forall fuel fp data r,
  compress_loop fuel fp data = Some r ->
  mode (snd r) = mode fp /\ compressed (snd r) = compressed fp /\
  is_stdio (snd r) = is_stdio fp /\
  is_deflate (zstate (stream (snd r))) = is_deflate (zstate (stream fp)).
Proof.
  induction fuel as [|k IH]; intros fp data r.
  - cbn [compress_loop]. destruct (avail_in (stream fp) =? 0)%nat; [|discriminate].
    intros [= <-]. auto.
  - rewrite compress_loop_S.
    destruct (avail_in (stream fp) =? 0)%nat; [intros [= <-]; auto|].
    assert (Hw : forall ok f1,
      (if (avail_out (stream fp) <? CBUF_LOW)%nat then
         let '(ok, fp) := cups_write fp (firstn (next_out (stream fp)) (cbuf fp)) in
         (ok, if ok then reset_out fp else fp)
       else (true, fp)) = (ok, f1) ->
      mode f1 = mode fp /\ compressed f1 = compressed fp /\ is_stdio f1 = is_stdio fp /\
      is_deflate (zstate (stream f1)) = is_deflate (zstate (stream fp))).
    { intros ok f1. destruct (avail_out (stream fp) <? CBUF_LOW)%nat.
      - pose proof (cups_write_handle fp (firstn (next_out (stream fp)) (cbuf fp))) as Hh.
        destruct (cups_write fp _) as [ok1 f0]. cbn [snd] in Hh. rewrite Hh.
        destruct ok1; intros [= <- <-]; unfold reset_out; fsimpl; auto.
      - intros [= <- <-]. auto. }
    destruct (if (avail_out (stream fp) <? CBUF_LOW)%nat then _ else _) as [ok f1].
    destruct (Hw _ _ eq_refl) as (M1 & C1 & I1 & Z1).
    destruct (negb ok); [intros [= <-]; auto|].
    pose proof (do_deflate_fields f1 data Z_NO_FLUSH) as (M2 & C2 & I2 & Z2).
    destruct (do_deflate f1 data Z_NO_FLUSH) as [status f2]. cbn [snd] in *.
    destruct ((status <? Z_OK) && negb (status =? Z_BUF_ERROR)).
    + intros [= <-]. cbn [snd]. repeat split; congruence.
    + intros H. destruct (IH _ _ _ H) as (? & ? & ? & ?). repeat split; congruence.
Qed.

Lemma cupsFileFlush_fields fuel fp r :
  cupsFileFlush fuel fp = Some r ->
  mode (snd r) = mode fp /\ compressed (snd r) = compressed fp /\
  is_stdio (snd r) = is_stdio fp /\
  is_deflate (zstate (stream (snd r))) = is_deflate (zstate (stream fp)).
Proof.
  unfold cupsFileFlush.
  destruct (negb _); [intros [= <-]; auto|].
  destruct (0 <? _)%nat; [|intros [= <-]; auto].
  destruct (compressed fp) eqn:C.
  - destruct (cups_compress fuel fp _) as [[ret f1]|] eqn:E; [|discriminate].
    intros [= <-]. unfold cups_compress in E. cbv zeta in E.
    apply compress_loop_fields in E. cbn [snd] in *. fsimpl. rewrite C in E. exact E.
  - pose proof (cups_write_handle fp (firstn (off (ptr fp)) (buf fp))) as Hh.
    destruct (cups_write fp _) as [ok f1]. cbn [snd] in Hh. rewrite Hh.
    intros [= <-]. cbn [snd]. fsimpl. auto.
Qed.

Lemma drain_loop_fields : forall fuel fp status done r,
  drain_loop fuel fp status done = Some r ->
  mode (snd r) = mode fp /\ is_stdio (snd r) = is_stdio fp.
Proof.
  induction fuel as [|k IH]; intros fp status done r; rewrite drain_loop_eq.
  all: assert (Hw : forall st f1,
      (if (0 <? next_out (stream fp))%nat then
         let '(ok, fp) := cups_write fp (firstn (next_out (stream fp)) (cbuf fp)) in
         (ok, reset_out fp)
       else (status, fp)) = (st, f1) ->
      mode f1 = mode fp /\ is_stdio f1 = is_stdio fp).
  1,3: intros st f1; destruct (0 <? next_out (stream fp))%nat;
       [pose proof (cups_write_handle fp (firstn (next_out (stream fp)) (cbuf fp))) as Hh;
        destruct (cups_write fp _) as [ok1 f0]; cbn [snd] in Hh; rewrite Hh;
        intros [= <- <-]; unfold reset_out; fsimpl; auto
       |intros [= <- <-]; auto].
  all: destruct (if (0 <? next_out (stream fp))%nat then _ else _) as [st f1];
       destruct (Hw _ _ eq_refl) as (M1 & I1);
       destruct (done || negb st); [intros [= <-]; auto| ].
  - discriminate.
  - pose proof (do_deflate_fields f1 [] Z_FINISH) as (M2 & _ & I2 & _).
    destruct (do_deflate f1 [] Z_FINISH) as [zst f2]. cbn [snd] in *.
    intros H. destruct (IH _ _ _ _ H) as (? & ?). split; congruence.
Qed.

(** C5 (what the code does), for any compressor.  [cupsFileClose] on a
    compressed write handle, when a write on the descriptor fails:
    - while the flush at its start compresses the buffered bytes
      ([cupsFileFlush] returns [false]): the close returns [false] and
      gives back the handle, but the block that ends in [deflateEnd] is
      skipped, so the compressor's state is not released;
    - later, on the compression buffer inside the drain loop (the loop
      ends with the status [false]), when the write of the trailer then
      succeeds: the status of the trailer write replaces the failure,
      and the close returns [true] unless [close] itself fails. *)
Theorem C5_close_after_failed_write fuel fp ok fpf :
  mode fp = "w"%char -> compressed fp = true -> is_stdio fp = false ->
  is_deflate (zstate (stream fp)) = true ->
  cupsFileFlush fuel fp = Some (ok, fpf) ->
  (ok = false \/
   exists done fpd,
     drain_loop fuel (set_stream (zset_avail_in 0 (stream fpf)) fpf) true false =
       Some (false, done, fpd) /\
     fst (cups_write fpd (gzip_trailer (crc fpd) (pos fpd))) = true) ->
  exists res,
    cupsFileClose fuel fp = Some res /\ cl_freed res = true /\
    if ok
    then cl_status res = negb (f_close_fails (cl_fd res)) /\ cl_zstate res = ZNone
    else cl_status res = false /\ is_deflate (cl_zstate res) = true.
Proof.
  intros Hm Hc Hio Hz HF Hcase.
  destruct (cupsFileFlush_fields _ _ HF) as (Hmf & Hcf & Hiof & Hzf). cbn [snd] in *.
  unfold cupsFileClose. rewrite Hm. change (Ascii.eqb "w" "w") with true. cbv iota.
  rewrite HF. rewrite Hcf, Hc, Hmf, Hm. cbn [andb].
  destruct ok.
  - destruct Hcase as [|(done & fpd & HD & HT)]; [discriminate|].
    change (Ascii.eqb "w" "r") with false. cbv iota zeta.
    rewrite HD.
    destruct (drain_loop_fields _ _ _ _ HD) as (Hmd & Hiod). cbn [snd] in *. fsimpl.
    pose proof (cups_write_handle fpd (gzip_trailer (crc fpd) (pos fpd))) as Hh.
    destruct (cups_write fpd _) as [st ft]. cbn [fst snd] in *. subst st.
    rewrite Hh. fsimpl. rewrite Hiod, Hiof, Hio, Hmd, Hmf, Hm.
    change (Ascii.eqb "w" "s") with false. cbv iota.
    unfold sys_close. eexists. split; [reflexivity|].
    cbn [cl_freed cl_status cl_fd cl_zstate]. fsimpl.
    split; [reflexivity|]. split; [|reflexivity].
    destruct (f_close_fails (fd ft)); reflexivity.
  - rewrite Hiof, Hio, Hmf, Hm.
    change (Ascii.eqb "w" "s") with false. cbv iota.
    unfold sys_close. eexists. split; [reflexivity|].
    cbn [cl_freed cl_status cl_fd cl_zstate].
    split; [reflexivity|]. split; [|congruence].
    destruct (f_close_fails (fd fpf)); reflexivity.
Qed.

(** ** Configuration lines *)

(** *** Strings in arrays *)

Lemma byte_at_middle (pre : list byte) x rest : byte_at (pre ++ x :: rest) (length pre) = x.
Proof. unfold byte_at. apply nth_middle. Qed.

Lemma skipn_app_length (pre rest : list byte) : skipn (length pre) (pre ++ rest) = rest.
Proof. induction pre; cbn; auto. Qed.

Lemma firstn_app_length (pre rest : list byte) : firstn (length pre) (pre ++ rest) = pre.
Proof. induction pre; cbn; congruence. Qed.

Lemma poke_middle (pre : list byte) x rest v :
  poke (pre ++ x :: rest) (length pre) v = pre ++ v :: rest.
Proof.
  unfold poke. rewrite firstn_app_length. f_equal. f_equal.
  change (S (length pre)) with (1 + length pre)%nat.
  rewrite <- skipn_skipn, skipn_app_length. reflexivity.
Qed.

Lemma cstring_app s rest :
  forallb (fun c => negb (c =? 0)) s = true -> cstring (s ++ 0 :: rest) = s.
Proof.
  induction s as [|x s IH]; cbn; [reflexivity|].
  intros H. apply andb_prop in H as (Hx & Hs).
  destruct (x =? 0); [discriminate|]. rewrite IH by exact Hs. reflexivity.
Qed.

Lemma cstring_at_app pre s rest :
  forallb (fun c => negb (c =? 0)) s = true ->
  cstring_at (pre ++ s ++ 0 :: rest) (length pre) = s.
Proof. intros H. unfold cstring_at. rewrite skipn_app_length. apply cstring_app, H. Qed.

Lemma strchr_from_found s rest i :
  forallb plain_char s = true ->
  strchr_from (s ++ 35 :: rest) i 35 = Some (i + length s)%nat.
Proof.
  revert i. induction s as [|x s IH]; intros i; cbn [app strchr_from forallb length].
  - intros _. cbn. f_equal. lia.
  - intros H. apply andb_prop in H as (Hx & Hs). apply andb_prop in Hx as (H0 & Hc).
    destruct (x =? 35); [discriminate|]. destruct (x =? 0); [discriminate|].
    rewrite IH by exact Hs. f_equal. lia.
Qed.

Lemma strchr_from_none s i :
  forallb plain_char s = true -> strchr_from (s ++ [0]) i 35 = None.
Proof.
  revert i. induction s as [|x s IH]; intros i; cbn [app strchr_from forallb].
  - reflexivity.
  - intros H. apply andb_prop in H as (Hx & Hs). apply andb_prop in Hx as (H0 & Hc).
    destruct (x =? 35); [discriminate|]. destruct (x =? 0); [discriminate|].
    apply IH, Hs.
Qed.

Lemma skip_space_run ws : forall fuel pre x rest,
  spaces ws = true -> _cups_isspace x = false -> (length ws <= fuel)%nat ->
  skip_space fuel (pre ++ ws ++ x :: rest) (length pre) = (length pre + length ws)%nat.
Proof.
  induction ws as [|w ws IH]; intros fuel pre x rest Hws Hx Hfuel.
  - cbn [app length]. rewrite Nat.add_0_r.
    destruct fuel; cbn [skip_space]; [reflexivity|].
    rewrite byte_at_middle, Hx. reflexivity.
  - cbn [spaces forallb] in Hws. apply andb_prop in Hws as (Hw & Hws).
    destruct fuel as [|k]; [cbn in Hfuel; lia|].
    cbn [skip_space app]. rewrite byte_at_middle, Hw.
    replace (pre ++ w :: ws ++ x :: rest) with ((pre ++ [w]) ++ ws ++ x :: rest)
      by (rewrite <- app_assoc; reflexivity).
    replace (S (length pre)) with (length (pre ++ [w]))
      by (rewrite length_app; cbn; lia).
    rewrite IH; auto; [|cbn in Hfuel; lia].
    rewrite length_app. cbn [length]. lia.
Qed.

Lemma find_space_run tok : forall fuel pre x rest,
  forallb (fun c => negb (_cups_isspace c) && negb (c =? 0)) tok = true ->
  (x =? 0) || _cups_isspace x = true ->
  (length tok <= fuel)%nat ->
  find_space fuel (pre ++ tok ++ x :: rest) (length pre) = (length pre + length tok)%nat.
Proof.
  induction tok as [|c tok IH]; intros fuel pre x rest Htok Hx Hfuel.
  - cbn [app length]. rewrite Nat.add_0_r.
    destruct fuel; cbn [find_space]; [reflexivity|].
    rewrite byte_at_middle.
    destruct (x =? 0); [reflexivity|]. cbn [orb] in Hx. rewrite Hx. reflexivity.
  - cbn [forallb] in Htok. apply andb_prop in Htok as (Hc & Htok).
    apply andb_prop in Hc as (Hsp & H0).
    destruct fuel as [|k]; [cbn in Hfuel; lia|].
    cbn [find_space app]. rewrite byte_at_middle.
    destruct (c =? 0); [discriminate|]. destruct (_cups_isspace c); [discriminate|].
    replace (pre ++ c :: tok ++ x :: rest) with ((pre ++ [c]) ++ tok ++ x :: rest)
      by (rewrite <- app_assoc; reflexivity).
    replace (S (length pre)) with (length (pre ++ [c]))
      by (rewrite length_app; cbn; lia).
    rewrite IH; auto; [|cbn in Hfuel; lia].
    rewrite length_app. cbn [length]. lia.
Qed.

Lemma zero_space_run ws : forall fuel pre x rest,
  spaces ws = true -> _cups_isspace x = false -> (length ws <= fuel)%nat ->
  zero_space fuel (pre ++ ws ++ x :: rest) (length pre) =
  (pre ++ repeat 0 (length ws) ++ x :: rest, (length pre + length ws)%nat).
Proof.
  induction ws as [|w ws IH]; intros fuel pre x rest Hws Hx Hfuel.
  - cbn [app length repeat]. rewrite Nat.add_0_r.
    destruct fuel; cbn [zero_space]; [reflexivity|].
    rewrite byte_at_middle, Hx. reflexivity.
  - cbn [spaces forallb] in Hws. apply andb_prop in Hws as (Hw & Hws).
    destruct fuel as [|k]; [cbn in Hfuel; lia|].
    cbn [zero_space app length repeat]. rewrite byte_at_middle, Hw, poke_middle.
    change (pre ++ 0 :: ws ++ x :: rest) with (pre ++ [0] ++ ws ++ x :: rest).
    rewrite (app_assoc pre [0]).
    replace (S (length pre)) with (length (pre ++ [0]))
      by (rewrite length_app; cbn; lia).
    rewrite IH; auto; [|cbn in Hfuel; lia].
    rewrite length_app, <- app_assoc. cbn [length app]. f_equal. lia.
Qed.

Lemma byte_at_last (pre : list byte) x rest :
  byte_at ((pre ++ [x]) ++ rest) (length (pre ++ [x]) - 1) = x.
Proof.
  rewrite length_app. cbn [length]. rewrite Nat.add_sub, <- app_assoc.
  apply byte_at_middle.
Qed.

Lemma strip_back_run ws : forall q pre x rest,
  q = pre ++ [x] -> spaces ws = true -> _cups_isspace x = false ->
  strip_back (q ++ ws ++ rest) (length q + length ws) = length q.
Proof.
  induction ws as [|w ws IH] using rev_ind; intros q pre x rest Hq Hws Hx.
  - cbn [app length]. rewrite Nat.add_0_r. subst q.
    rewrite length_app. cbn [length]. rewrite Nat.add_1_r. cbn [strip_back].
    rewrite <- app_assoc. cbn [app]. rewrite byte_at_middle, Hx. reflexivity.
  - unfold spaces in *. rewrite forallb_app in Hws.
    apply andb_prop in Hws as (Hws & Hw). cbn [forallb] in Hw.
    rewrite andb_true_r in Hw.
    rewrite (length_app ws). cbn [length].
    replace (length q + (length ws + 1))%nat
      with (S (length q + length ws)) by lia.
    cbn [strip_back].
    replace (q ++ (ws ++ [w]) ++ rest) with ((q ++ ws) ++ w :: rest)
      by (rewrite <- !app_assoc; reflexivity).
    replace (length q + length ws)%nat with (length (q ++ ws))
      by (rewrite length_app; reflexivity).
    rewrite byte_at_middle, Hw.
    rewrite length_app, <- app_assoc.
    apply (IH q pre x (w :: rest)); auto.
Qed.

Lemma strip_trailing_stop b p value :
  _cups_isspace (byte_at b p) = false -> strip_trailing b p value = b.
Proof.
  intros H. destruct p; cbn [strip_trailing]; rewrite H, andb_false_r; reflexivity.
Qed.

Lemma space_is_plain c : _cups_isspace c = true -> plain_char c = true.
Proof.
  unfold _cups_isspace, plain_char. intros H.
  destruct (Z.eqb_spec c 0) as [->|_]; [discriminate H|].
  destruct (Z.eqb_spec c 35) as [->|_]; [discriminate H|]. reflexivity.
Qed.

Lemma spaces_plain s : spaces s = true -> forallb plain_char s = true.
Proof.
  unfold spaces. induction s as [|c s IH]; cbn [forallb]; [auto|].
  intros H. apply andb_prop in H as (Hc & Hs).
  rewrite (space_is_plain _ Hc), IH by exact Hs. reflexivity.
Qed.

Lemma plain_no_nul s :
  forallb plain_char s = true -> forallb (fun c => negb (c =? 0)) s = true.
Proof.
  induction s as [|c s IH]; cbn [forallb]; [auto|].
  intros H. apply andb_prop in H as (Hc & Hs). unfold plain_char in Hc.
  apply andb_prop in Hc as (-> & _). rewrite IH by exact Hs. reflexivity.
Qed.

Lemma token_facts key :
  is_token key = true ->
  exists k0 key', key = k0 :: key' /\ k0 <> 60 /\ k0 <> 0 /\ _cups_isspace k0 = false /\
    forallb plain_char key = true /\
    forallb (fun c => negb (_cups_isspace c) && negb (c =? 0)) key = true.
Proof.
  unfold is_token. destruct key as [|k0 key']; [discriminate|].
  intros H. apply andb_prop in H as (H60 & Hall).
  exists k0, key'. split; [reflexivity|].
  assert (Hboth : forall s,
    forallb (fun c => negb (_cups_isspace c) && plain_char c) s = true ->
    forallb plain_char s = true /\
    forallb (fun c => negb (_cups_isspace c) && negb (c =? 0)) s = true).
  { induction s as [|c s IH]; cbn [forallb]; [auto|].
    intros Hs. apply andb_prop in Hs as (Hc & Hs). apply andb_prop in Hc as (Hsp & Hpl).
    destruct (IH Hs) as (-> & ->). rewrite Hsp, Hpl.
    unfold plain_char in Hpl. apply andb_prop in Hpl as (-> & _). auto. }
  destruct (Hboth _ Hall) as (Hp & Hq).
  pose proof Hall as Hhd. cbn [forallb] in Hhd.
  apply andb_prop in Hhd as (Hhd & _). apply andb_prop in Hhd as (Hsp & Hpl).
  unfold plain_char in Hpl. apply andb_prop in Hpl as (H0 & _).
  repeat split; auto.
  - intros ->. discriminate H60.
  - intros ->. discriminate H0.
  - destruct (_cups_isspace k0); [discriminate Hsp|reflexivity].
Qed.

Lemma text_facts value :
  is_text value = true ->
  exists vi vl, value = vi ++ [vl] /\ _cups_isspace vl = false /\
    _cups_isspace (hd 32 value) = false /\ hd 32 value <> 0 /\
    forallb (fun c => negb (c =? 0)) value = true.
Proof.
  unfold is_text. intros H. apply andb_prop in H as (H & Hall).
  apply andb_prop in H as (Hhd & Hlast).
  destruct value as [|v0 value'] using rev_ind; [discriminate Hhd|].
  clear IHvalue'. exists value', v0. rewrite last_last in Hlast.
  split; [reflexivity|].
  split; [destruct (_cups_isspace v0); [discriminate|reflexivity]|].
  split; [destruct (_cups_isspace _); [discriminate|reflexivity]|].
  split; [|exact Hall].
  destruct value' as [|a l]; cbn [app hd forallb] in *;
    apply andb_prop in Hall as (Ha & _); intros ->; discriminate Ha.
Qed.

(** *** The steps of [cupsFileGetConf] on one line *)

Ltac flat := rewrite <- ?app_assoc; cbn [app]; rewrite <- ?app_assoc; cbn [app].

(** "Yes, grab any value and return...": the whitespace after the name
    is zeroed and the value starts behind it. *)
Lemma conf_value_shape key sep value rest :
  is_token key = true -> spaces sep = true -> sep <> [] -> is_text value = true ->
  conf_value (key ++ sep ++ value ++ 0 :: rest) =
  (key ++ repeat 0 (length sep) ++ value ++ 0 :: rest, Some (length key + length sep)%nat).
Proof.
  intros Hkey Hsep Hne Hval.
  destruct (token_facts _ Hkey) as (k0 & key' & Ek & Hk60 & Hk0 & Hksp & _ & Htok).
  destruct (text_facts _ Hval) as (vi & vl & Ev & Hvl & Hv0sp & Hv0 & Hvnul).
  destruct sep as [|s0 sep']; [contradiction|]. clear Hne.
  assert (Hs0 : _cups_isspace s0 = true).
  { cbn [spaces forallb] in Hsep. apply andb_prop in Hsep as (? & _). assumption. }
  assert (Hs0n : (s0 =? 0) = false).
  { pose proof (space_is_plain _ Hs0) as Hp. unfold plain_char in Hp.
    apply andb_prop in Hp as (Hp & _). destruct (s0 =? 0); [discriminate|reflexivity]. }
  set (b := key ++ (s0 :: sep') ++ value ++ 0 :: rest).
  set (b3 := key ++ repeat 0 (length (s0 :: sep')) ++ value ++ 0 :: rest).
  unfold conf_value.
  (* the end of the name *)
  assert (Hfind : find_space (length b) b 0 = length key).
  { unfold b. cbn [app].
    apply (@find_space_run key (length (key ++ s0 :: sep' ++ value ++ 0 :: rest))
             [] s0 (sep' ++ value ++ 0 :: rest) Htok).
    - rewrite Hs0. apply orb_true_r.
    - rewrite length_app. apply Nat.le_add_r. }
  rewrite Hfind.
  assert (Hat : byte_at b (length key) = s0) by (unfold b; cbn [app]; apply byte_at_middle).
  rewrite Hat, Hs0n. cbn [negb].
  (* the whitespace before the value *)
  assert (Hv : exists v0 value', value = v0 :: value' /\ _cups_isspace v0 = false /\ v0 <> 0).
  { destruct value as [|v0 value']; [destruct vi; discriminate Ev|].
    exists v0, value'. cbn [hd] in *. auto. }
  destruct Hv as (v0 & value' & Ev0 & Hv0s & Hv0n).
  assert (Hzero : zero_space (length b) b (length key) = (b3, (length key + length (s0 :: sep'))%nat)).
  { unfold b, b3. rewrite Ev0. cbn [app].
    apply (@zero_space_run (s0 :: sep')
             (length (key ++ s0 :: sep' ++ v0 :: value' ++ 0 :: rest))
             key v0 (value' ++ 0 :: rest) Hsep Hv0s).
    rewrite length_app. cbn [length]. rewrite length_app. cbn [length]. lia. }
  rewrite Hzero.
  set (p2 := (length key + length (s0 :: sep'))%nat).
  assert (Hlen : length (key ++ repeat 0 (length (s0 :: sep'))) = p2).
  { rewrite length_app, repeat_length. reflexivity. }
  assert (Hb3 : b3 = (key ++ repeat 0 (length (s0 :: sep'))) ++ value ++ 0 :: rest).
  { unfold b3. rewrite <- app_assoc. reflexivity. }
  assert (Hp2 : byte_at b3 p2 = v0).
  { rewrite Hb3, Ev0, <- Hlen. cbn [app]. apply byte_at_middle. }
  assert (Hstr : strlen b3 p2 = length value).
  { unfold strlen. rewrite Hb3, <- Hlen, cstring_at_app by exact Hvnul. reflexivity. }
  rewrite Hp2, Hstr.
  destruct (Z.eqb_spec v0 0) as [|_]; [contradiction|]. cbn [negb].
  assert (H0 : byte_at b3 0 = k0) by (unfold b3; rewrite Ek; reflexivity).
  rewrite H0. destruct (Z.eqb_spec k0 60) as [|_]; [contradiction|]. cbn [andb].
  rewrite strip_trailing_stop; [reflexivity|].
  (* the last character of the value *)
  assert (Hb3' : b3 = ((key ++ repeat 0 (length (s0 :: sep'))) ++ vi) ++ vl :: 0 :: rest).
  { rewrite Hb3, Ev. flat. reflexivity. }
  replace (p2 + length value - 1)%nat
    with (length ((key ++ repeat 0 (length (s0 :: sep'))) ++ vi)).
  - rewrite Hb3', byte_at_middle. exact Hvl.
  - rewrite (length_app _ vi), Hlen, Ev, length_app. cbn [length]. lia.
Qed.

(** "Strip leading whitespace...": the text moves to the start of the
    array. *)
Lemma conf_leading_shape lead k0 body' rest :
  spaces lead = true -> _cups_isspace k0 = false ->
  forallb (fun c => negb (c =? 0)) (k0 :: body') = true ->
  exists rest', conf_leading (lead ++ (k0 :: body') ++ 0 :: rest) = (k0 :: body') ++ 0 :: rest'.
Proof.
  intros Hlead Hk0 Hnul. unfold conf_leading.
  assert (Hskip : skip_space (length (lead ++ (k0 :: body') ++ 0 :: rest))
                    (lead ++ (k0 :: body') ++ 0 :: rest) 0 = length lead).
  { apply (@skip_space_run lead (length (lead ++ (k0 :: body') ++ 0 :: rest))
             [] k0 (body' ++ 0 :: rest) Hlead Hk0).
    rewrite length_app. apply Nat.le_add_r. }
  rewrite Hskip. cbv zeta.
  destruct lead as [|l0 lead'].
  - cbn [length Nat.ltb Nat.leb app]. eexists. reflexivity.
  - change (0 <? length (l0 :: lead'))%nat with true. cbv iota.
    unfold _cups_strcpy, strlen. cbn [firstn].
    replace ((l0 :: lead') ++ (k0 :: body') ++ 0 :: rest)
      with ((l0 :: lead') ++ (k0 :: body') ++ 0 :: rest) by reflexivity.
    rewrite cstring_at_app by exact Hnul.
    cbn [app]. eexists. reflexivity.
Qed.

Lemma last_app_r (l1 l2 : list byte) d : l2 <> [] -> last (l1 ++ l2) d = last l2 d.
Proof.
  intros H. induction l1 as [|a l1 IH]; [reflexivity|].
  cbn [app]. destruct (l1 ++ l2) eqn:E.
  - destruct l1; [cbn in E; contradiction|discriminate E].
  - rewrite <- E at 1. cbn [last]. rewrite <- E in IH. rewrite <- IH.
    rewrite E. reflexivity.
Qed.

Lemma byte_at_before (p : list byte) rest :
  p <> [] -> byte_at (p ++ rest) (length p - 1) = last p 0.
Proof.
  intros H. destruct (exists_last H) as (p' & z & ->).
  rewrite byte_at_last, last_last. reflexivity.
Qed.

(** "Strip any comments...": whichever way the value stands in the line,
    the array then holds it up to a terminator. *)
Lemma conf_comment_shape lead key sep value tail :
  spaces lead = true -> is_token key = true -> spaces sep = true ->
  is_text value = true -> value_in_line value tail ->
  exists rest,
    conf_comment ((lead ++ key ++ sep ++ tail) ++ [0]) =
    lead ++ (key ++ sep ++ value) ++ 0 :: rest.
Proof.
  intros Hlead Hkey Hsep Hval Hin.
  destruct (token_facts _ Hkey) as (_ & _ & _ & _ & _ & _ & Hkp & _).
  destruct (text_facts _ Hval) as (vi & vl & Ev & Hvl & _ & _ & Hvnul).
  assert (Hhead : forallb plain_char (lead ++ key ++ sep) = true).
  { rewrite !forallb_app, (spaces_plain _ Hlead), Hkp, (spaces_plain _ Hsep). reflexivity. }
  set (h := lead ++ key ++ sep) in *.
  assert (Eh : forall t, lead ++ key ++ sep ++ t = h ++ t).
  { intros t. unfold h. flat. reflexivity. }
  assert (Eh' : forall t, lead ++ (key ++ sep ++ value) ++ t = (h ++ value) ++ t).
  { intros t. unfold h. flat. reflexivity. }
  setoid_rewrite Eh'. rewrite Eh. clear Eh Eh'.
  unfold conf_comment, strchr.
  destruct Hin as [trail comment Hplain Htrail Hlast | v1 v2 Evalue Hplain | Hplain].
  - (* a comment after the value *)
    replace ((h ++ value ++ trail ++ 35 :: comment) ++ [0])
      with ((h ++ value ++ trail) ++ 35 :: (comment ++ [0])) by (flat; reflexivity).
    rewrite strchr_from_found
      by (rewrite !forallb_app, Hhead, Hplain, (spaces_plain _ Htrail); reflexivity).
    cbn [Nat.add].
    assert (Hne : h ++ value ++ trail <> []).
    { rewrite Ev. destruct h; [destruct vi|]; discriminate. }
    rewrite byte_at_before by exact Hne.
    assert (Hl : last (h ++ value ++ trail) 0 = last (value ++ trail) 0).
    { apply last_app_r. rewrite Ev. destruct vi; discriminate. }
    rewrite Hl.
    destruct (Z.eqb_spec (last (value ++ trail) 0) 92) as [|_]; [contradiction|].
    rewrite andb_false_r.
    replace ((h ++ value ++ trail) ++ 35 :: comment ++ [0])
      with ((h ++ value) ++ trail ++ 35 :: comment ++ [0]) by (flat; reflexivity).
    replace (length (h ++ value ++ trail))
      with (length (h ++ value) + length trail)%nat
      by (rewrite !length_app; lia).
    rewrite (@strip_back_run trail (h ++ value) (h ++ vi) vl _) ;
      [|rewrite Ev, app_assoc; reflexivity|exact Htrail|exact Hvl].
    destruct (trail ++ 35 :: comment ++ [0]) as [|y rest'] eqn:E.
    { destruct trail; discriminate E. }
    rewrite poke_middle. exists rest'. reflexivity.
  - (* a # of its own, escaped *)
    replace ((h ++ v1 ++ 92 :: 35 :: v2) ++ [0])
      with (((h ++ v1) ++ [92]) ++ 35 :: (v2 ++ [0])) by (flat; reflexivity).
    rewrite strchr_from_found
      by (rewrite !forallb_app, Hhead, Hplain; reflexivity).
    cbn [Nat.add]. rewrite byte_at_last.
    replace (Nat.ltb 0 (length ((h ++ v1) ++ [92]))) with true
      by (rewrite (length_app (h ++ v1)); cbn [length];
          symmetry; apply Nat.ltb_lt; lia).
    cbn [andb Z.eqb Pos.eqb]. cbv iota.
    assert (Hv2 : forallb (fun c => negb (c =? 0)) (35 :: v2) = true).
    { rewrite Evalue, forallb_app in Hvnul. apply andb_prop in Hvnul as (_ & ?). assumption. }
    set (b := ((h ++ v1) ++ [92]) ++ 35 :: v2 ++ [0]).
    assert (Hc : cstring_at b (length ((h ++ v1) ++ [92])) = 35 :: v2).
    { exact (@cstring_at_app ((h ++ v1) ++ [92]) (35 :: v2) [] Hv2). }
    assert (Hn : Nat.sub (length ((h ++ v1) ++ [92])) 1 = length (h ++ v1)).
    { rewrite (length_app (h ++ v1)). cbn [length]. lia. }
    assert (Hf : firstn (length (h ++ v1)) b = h ++ v1).
    { unfold b. rewrite <- (app_assoc (h ++ v1)). apply firstn_app_length. }
    unfold _cups_strcpy, strlen. rewrite Hc, Hn, Hf.
    eexists. rewrite Evalue. flat. reflexivity.
  - (* nothing after the value *)
    rewrite strchr_from_none
      by (rewrite !forallb_app, Hhead, Hplain; reflexivity).
    exists []. reflexivity.
Qed.

(** C8, as the code has it: [cupsFileGetConf] looks at the first [#] of
    a line only.  On a line made of optional whitespace, a name,
    whitespace and a value it returns the name as directive and counts
    the line; the value is what stands before the first [#], trailing
    whitespace removed, when no backslash precedes that [#]; when one
    does, the backslash is removed and the rest of the line stays in the
    value, any later [#] and what follows it included; without a [#] it
    is the rest of the line.  For the line "key value # comment" these
    are "key" and "value". *)
Theorem C8_conf_directive_and_value fuel fp fp' buflen linenum lead key sep value tail :
  readable fp = true -> (2 <= buflen)%nat ->
  cupsFileGets fp buflen = (Some (lead ++ key ++ sep ++ tail), fp') ->
  spaces lead = true -> is_token key = true ->
  spaces sep = true -> sep <> [] ->
  is_text value = true -> value_in_line value tail ->
  exists c,
    cupsFileGetConf (S fuel) fp buflen linenum = Some (Some c, fp') /\
    directive_of c = key /\ value_of c = Some value /\ conf_line c = linenum + 1.
Proof.
  intros Hmode Hlen Hgets Hlead Hkey Hsep Hne Hval Hin.
  unfold cupsFileGetConf. rewrite Hmode.
  destruct (Nat.ltb_spec buflen 2) as [|_]; [lia|].
  cbn [negb orb conf_loop]. rewrite Hgets. cbv zeta.
  destruct (@conf_comment_shape lead key sep value tail Hlead Hkey Hsep Hval Hin) as (rest & ->).
  destruct (token_facts _ Hkey) as (k0 & key' & Ek & Hk60 & Hk0 & Hksp & Hkp & _).
  destruct (text_facts _ Hval) as (_ & _ & _ & _ & _ & _ & Hvnul).
  assert (Hbody : forallb (fun c => negb (c =? 0)) (k0 :: key' ++ sep ++ value) = true).
  { change (k0 :: key' ++ sep ++ value) with ((k0 :: key') ++ sep ++ value).
    rewrite <- Ek, !forallb_app.
    apply andb_true_intro. split; [exact (plain_no_nul _ Hkp)|].
    apply andb_true_intro. split; [exact (plain_no_nul _ (spaces_plain _ Hsep))|exact Hvnul]. }
  destruct (@conf_leading_shape lead k0 (key' ++ sep ++ value) rest Hlead Hksp Hbody)
    as (rest' & Hl).
  match goal with |- context [conf_leading ?x] => set (b := conf_leading x) end.
  assert (Hb : b = key ++ sep ++ value ++ 0 :: rest').
  { unfold b. rewrite Ek. etransitivity; [exact Hl|]. flat. reflexivity. }
  clearbody b. subst b.
  assert (H0 : byte_at (key ++ sep ++ value ++ 0 :: rest') 0 = k0) by (rewrite Ek; reflexivity).
  rewrite H0.
  destruct (Z.eqb_spec k0 0) as [|_]; [contradiction|]. cbn [negb].
  rewrite (@conf_value_shape key sep value rest' Hkey Hsep Hne Hval).
  eexists. split; [reflexivity|].
  unfold directive_of, value_of. cbn [conf_buf conf_val conf_line option_map].
  split; [|split; [|reflexivity]].
  - destruct sep as [|s0 sep']; [contradiction|]. cbn [length repeat app].
    apply (@cstring_at_app [] key _ (plain_no_nul _ Hkp)).
  - f_equal. rewrite app_assoc.
    replace (length key + length sep)%nat with (length (key ++ repeat 0 (length sep)))
      by (rewrite length_app, repeat_length; reflexivity).
    apply cstring_at_app. exact Hvnul.
Qed.

(** * Further properties of the code *)

(** ** [cups_write] and [cups_read] against short transfers and
    interruptions *)

(** X1: [cups_write] completes short writes and retries interrupted
    ones.  When it returns [true] the file has gained exactly the bytes
    given, in order, whatever the single [write] calls did; it returns
    [false] only when a [write] failed with an error that asks for no
    retry, and then a prefix of the bytes has been written.  Nothing but
    the descriptor changes in the handle. *)
Theorem X1_cups_write_completes fp data :
  snd (cups_write fp data) = set_fd (fd (snd (cups_write fp data))) fp /\
  (fst (cups_write fp data) = true ->
   f_out (fd (snd (cups_write fp data))) = f_out (fd fp) ++ data) /\
  (fst (cups_write fp data) = false ->
   In WrErr (f_writes (fd fp)) /\
   exists k, f_out (fd (snd (cups_write fp data))) = f_out (fd fp) ++ firstn k data).
Proof.
  unfold cups_write.
  pose proof (@cups_write_loop_outcome (S (length (f_writes (fd fp)))) (fd fp) data
                (Nat.lt_succ_diag_r _)) as H.
  destruct (cups_write_loop _ (fd fp) data) as [ok d]. cbn [fst snd] in *.
  split; [reflexivity|exact H].
Qed.

Lemma cups_read_loop_retries n : forall k fuel d evs,
  f_reads d = repeat RdIntr k ++ evs -> hd RdErr evs <> RdIntr -> (k <= fuel)%nat ->
  cups_read_loop fuel d n =
  let got := firstn (match evs with RdShort m :: _ => Nat.min m n | _ => n end) (f_rest d) in
  match evs with
  | RdErr :: evs' => (-1, [], dset_reads evs' d)
  | _ => (Z.of_nat (length got), got,
          dset_reads (tl evs) (dset_off (f_off d + length got) d))
  end.
Proof.
  induction k as [|k IH]; intros fuel d evs H Hhd Hfuel; cbn [repeat app] in H.
  - assert (Hstep : cups_read_loop fuel d n =
              let '(total, retry, got, d') := sys_read d n in
              if 0 <=? total then (total, got, d') else (-1, [], d')).
    { destruct fuel; cbn [cups_read_loop]; unfold sys_read; rewrite H;
        destruct evs as [|[m| |] evs']; cbn [hd] in Hhd; try congruence;
        try reflexivity;
        match goal with |- context [0 <=? Z.of_nat ?x] =>
          destruct (Z.leb_spec 0 (Z.of_nat x)); [reflexivity|lia] end. }
    rewrite Hstep. unfold sys_read. rewrite H. cbv zeta.
    destruct evs as [|[m| |] evs']; cbn [hd tl] in *; try congruence.
    + destruct (Z.leb_spec 0 (Z.of_nat (length (firstn n (f_rest d))))); [|lia].
      f_equal. destruct d; cbn in *; subst; reflexivity.
    + destruct (Z.leb_spec 0 (Z.of_nat (length (firstn (Nat.min m n) (f_rest d)))));
        [reflexivity|lia].
    + reflexivity.
  - destruct fuel as [|fuel]; [lia|].
    cbn [cups_read_loop]. unfold sys_read at 1. rewrite H. cbn [Z.leb Z.compare].
    rewrite (IH fuel (dset_reads (repeat RdIntr k ++ evs) d) evs eq_refl Hhd)
      by lia.
    destruct evs as [|[m| |] evs']; reflexivity.
Qed.

(** X2: [cups_read] retries interrupted reads.  The interruptions that
    come first, [k] of them, are passed over, and the call returns what
    the read behind them gives: -1 and nothing stored when that read
    fails for good; otherwise the next bytes of the file and their
    number, as many as asked for, fewer only when the file ends first or
    the read is short.  The interruptions and that read are used up, the
    file offset stands behind the bytes read, and nothing but the
    descriptor changes in the handle. *)
Theorem X2_cups_read_retries fp n k evs :
  f_reads (fd fp) = repeat RdIntr k ++ evs ->
  hd RdErr evs <> RdIntr ->
  let got := firstn (match evs with RdShort m :: _ => Nat.min m n | _ => n end)
                    (f_rest (fd fp)) in
  fst (cups_read fp n) =
    match evs with
    | RdErr :: _ => (-1, [])
    | _ => (Z.of_nat (length got), got)
    end /\
  snd (cups_read fp n) =
    set_fd (dset_reads (tl evs)
              match evs with
              | RdErr :: _ => fd fp
              | _ => dset_off (f_off (fd fp) + length got) (fd fp)
              end) fp.
Proof.
  intros H Hhd. cbv zeta. unfold cups_read.
  rewrite (@cups_read_loop_retries n k (length (f_reads (fd fp))) (fd fp) evs H Hhd).
  - cbv zeta. destruct evs as [|[m| |] evs']; cbn [fst snd tl]; split; reflexivity.
  - rewrite H, length_app, repeat_length. lia.
Qed.

(** ** Uncompressed files *)

Lemma firstn_overwrite_all (got old : list byte) :
  firstn (length got) (overwrite got old) = got.
Proof. unfold overwrite. apply firstn_app_length. Qed.

Lemma length_firstn_le n (l : list byte) : (length (firstn n l) <= length l)%nat.
Proof. rewrite length_firstn. lia. Qed.

Lemma firstn_length_self n (l : list byte) :
  firstn (length (firstn n l)) l = firstn n l.
Proof.
  rewrite length_firstn. destruct (Nat.le_ge_cases n (length l)).
  - rewrite Nat.min_l by assumption. reflexivity.
  - rewrite Nat.min_r by assumption. rewrite firstn_all, firstn_all2 by assumption.
    reflexivity.
Qed.

Lemma pass_plain data fp :
  fresh_on data fp -> plain_from data 0 = true -> plain_at data 0 fp.
Proof.
  intros (M & P & E & Eof & Hpos & Hbp & C & D & R & O & Sk) G.
  unfold plain_at. rewrite P, E. repeat split; auto.
Qed.

(** A fill on an uncompressed handle whose buffer is used up, or that has
    none: the next bytes of the file become the buffer. *)
Lemma fill_plain data k fp :
  plain_at data k fp -> at_end fp = true ->
  exists fp',
    cups_fill fp = (Z.of_nat (length (firstn BUFSIZE (skipn k data))), fp') /\
    plain_at data k fp' /\ ptr fp' = Some 0%nat /\
    end_ fp' = Some (length (firstn BUFSIZE (skipn k data))) /\
    ((0 < length (firstn BUFSIZE (skipn k data)))%nat -> eof fp' = false).
Proof.
  intros (M & C & D & R & Sk & Hpos & HB) A.
  set (got := firstn BUFSIZE (skipn k data)).
  assert (Hgot : (length got <= length data - k)%nat).
  { unfold got. rewrite length_firstn, length_skipn. lia. }
  assert (Hfg : firstn (length got) (skipn k data) = got)
    by (apply firstn_length_self).
  destruct (ptr fp) as [p|] eqn:P, (end_ fp) as [e|] eqn:E; try contradiction.
  - destruct HB as (b & Hbp & Hk & Hpe & O & Hbuf & He & Heof).
    unfold at_end in A. rewrite P, E in A. apply Nat.leb_le in A.
    assert (p = e) by lia. subst p.
    rewrite cups_fill_raw by (try rewrite P; auto).
    unfold fill_enter. rewrite P, E. unfold fill_raw.
    rewrite cups_read_plain by exact R. fsimpl.
    assert (Hrest : f_rest (fd fp) = skipn k data).
    { unfold f_rest. rewrite O, D, Hk. reflexivity. }
    rewrite Hrest. fold got.
    destruct (Z.leb_spec (Z.of_nat (length got)) 0) as [L|L].
    + assert (Hg : length got = 0%nat) by lia.
      eexists. split; [reflexivity|]. rewrite Hg. fsimpl.
      split; [|split; [reflexivity|split; [reflexivity|lia]]].
      unfold plain_at. fsimpl. rewrite M, C, D, R, Sk, Hpos.
      repeat split; auto.
      exists k. repeat split; auto; try lia.
      intros _. unfold got in Hg. rewrite length_firstn, length_skipn in Hg.
      pose proof BUFSIZE_Z. lia.
    + eexists. split; [reflexivity|]. fsimpl. rewrite Nat2Z.id.
      split; [|split; [reflexivity|split; [reflexivity|reflexivity]]].
      unfold plain_at. fsimpl. rewrite M, C, D, R, Sk, Hpos.
      repeat split; auto.
      exists k. rewrite firstn_overwrite_all.
      repeat split; auto; try lia; try discriminate.
  - destruct HB as (Hbp & O & Heof & G).
    assert (Hrest : f_rest (fd fp) = skipn k data).
    { unfold f_rest. rewrite O, D. reflexivity. }
    pose proof (cups_read_plain fp BUFSIZE R) as HR. rewrite Hrest in HR. fold got in HR.
    destruct (fill_header_raw _ HR (Nat2Z.is_nonneg _) G) as (H & _).
    eexists. split; [apply (cups_fill_first _ P H)|].
    fsimpl. rewrite Nat2Z.id.
    split; [|split; [reflexivity|split; [reflexivity|intros _; exact Heof]]].
    unfold plain_at. fsimpl. rewrite M, D, R, Sk, Hpos.
    repeat split; auto.
    exists k. rewrite firstn_overwrite_all, O.
    repeat split; auto; try lia. rewrite Heof. discriminate.
Qed.

Lemma nth_of_skipn (l : list byte) k x rest : skipn k l = x :: rest -> nth k l 0 = x.
Proof.
  revert l. induction k as [|k IH]; intros [|y l]; cbn [skipn nth];
    try discriminate.
  - intros [= -> _]. reflexivity.
  - apply IH.
Qed.

Lemma skipn_nth_cons (l : list byte) k :
  (k < length l)%nat -> skipn k l = nth k l 0 :: skipn (S k) l.
Proof.
  revert l. induction k as [|k IH]; intros [|y l] H; cbn [length] in H; try lia.
  - reflexivity.
  - cbn [skipn nth]. rewrite <- IH by lia. reflexivity.
Qed.

(** The test [fp->ptr >= fp->end] and the fill it asks for, on an
    uncompressed handle: at the end of the file the fill fails; before
    it the cursor then stands on the byte at offset [k]. *)
Lemma plain_next data k fp :
  plain_at data k fp ->
  exists r a,
    (if at_end fp then cups_fill fp else (1, fp)) = (r, a) /\
    plain_at data k a /\
    (((length data <= k)%nat /\ r <= 0) \/
     ((k < length data)%nat /\ 0 < r /\ eof a = false /\
      exists p e, ptr a = Some p /\ end_ a = Some e /\ (p < e)%nat /\
        byte_at (buf a) p = nth k data 0)).
Proof.
  intros H. pose BUFSIZE_Z as HB.
  assert (Hbyte : forall (a : cups_file) p e,
    plain_at data k a -> ptr a = Some p -> end_ a = Some e -> (p < e)%nat ->
    (k < length data)%nat /\ byte_at (buf a) p = nth k data 0 /\
    (eof a = true -> False)).
  { intros a p e (_ & _ & _ & _ & _ & _ & HA) P E Hlt. rewrite P, E in HA.
    destruct HA as (b & _ & Hk & _ & _ & Hbuf & He & Heof).
    assert (Hkl : (k < length data)%nat) by lia.
    split; [exact Hkl|]. split; [|intros X; specialize (Heof X); lia].
    apply (f_equal (fun l => nth p l 0)) in Hbuf.
    unfold byte_at. rewrite !nth_firstn in Hbuf.
    destruct (Nat.ltb_spec p e); [|lia].
    rewrite Hbuf, nth_skipn, Hk. reflexivity. }
  destruct (at_end fp) eqn:A.
  - destruct (fill_plain H A) as (a & Hf & Ha & P & E & Heof).
    exists (Z.of_nat (length (firstn BUFSIZE (skipn k data)))), a.
    split; [exact Hf|]. split; [exact Ha|].
    destruct (Nat.le_gt_cases (length data) k) as [Hend|Hin].
    + left. split; [exact Hend|]. rewrite length_firstn, length_skipn. lia.
    + right. assert (Hl : (0 < length (firstn BUFSIZE (skipn k data)))%nat).
      { rewrite length_firstn, length_skipn. lia. }
      destruct (Hbyte a 0%nat _ Ha P E Hl) as (_ & Hb & _).
      split; [exact Hin|]. split; [lia|]. split; [auto|]. eauto 10.
  - exists 1, fp. split; [reflexivity|]. split; [exact H|]. right.
    pose proof H as (_ & _ & _ & _ & _ & _ & HA).
    unfold at_end in A.
    destruct (ptr fp) as [p|] eqn:P, (end_ fp) as [e|] eqn:E;
      try contradiction; try discriminate.
    apply Nat.leb_gt in A.
    destruct (Hbyte fp p e H P E A) as (Hk & Hb & Heof).
    split; [exact Hk|]. split; [lia|].
    split; [destruct (eof fp); [exfalso; auto|reflexivity]|]. eauto 10.
Qed.

(** Moving the cursor forward inside the buffer. *)
Lemma plain_advance data k fp p e n fp' :
  plain_at data k fp -> ptr fp = Some p -> end_ fp = Some e -> (p + n <= e)%nat ->
  mode fp' = mode fp -> compressed fp' = compressed fp -> fd fp' = fd fp ->
  buf fp' = buf fp -> end_ fp' = end_ fp -> eof fp' = eof fp ->
  bufpos fp' = bufpos fp ->
  ptr fp' = Some (p + n)%nat -> pos fp' = pos fp + Z.of_nat n ->
  plain_at data (k + n) fp' /\
  firstn n (skipn p (buf fp)) = firstn n (skipn k data) /\
  length (firstn n (skipn k data)) = n.
Proof.
  intros (M & C & D & R & Sk & Hpos & HA) P E Hn M' C' F' B' E' Eo' Bp' P' Pos'.
  rewrite P, E in HA. destruct HA as (b & Hbp & Hk & Hpe & O & Hbuf & He & Heof).
  split; [|split].
  - unfold plain_at. rewrite M', C', F', B', E', Eo', Bp', P', Pos', E.
    repeat split; auto; try lia.
    exists b. repeat split; auto; try lia.
    intros X. specialize (Heof X). lia.
  - apply (f_equal (fun l => firstn n (skipn p l))) in Hbuf.
    rewrite !skipn_firstn_comm, !firstn_firstn, !skipn_skipn in Hbuf.
    replace (Nat.min n (e - p)) with n in Hbuf by lia.
    rewrite Hk, (Nat.add_comm b p). exact Hbuf.
  - rewrite length_firstn, length_skipn. lia.
Qed.

Lemma plain_readable data k fp : plain_at data k fp -> readable fp = true.
Proof. intros (M & _). unfold readable. rewrite M. reflexivity. Qed.

Lemma plain_eof data k fp :
  plain_at data k fp -> eof fp = true -> (length data <= k)%nat.
Proof.
  intros (_ & _ & _ & _ & _ & _ & HA) He.
  destruct (ptr fp), (end_ fp); try contradiction.
  - destruct HA as (b & _ & _ & _ & _ & _ & _ & Heof). auto.
  - destruct HA as (_ & _ & Hf & _). congruence.
Qed.

(** X3: on an uncompressed file, [cupsFileGetChar] and
    [cupsFilePeekChar] at offset [k] both return the byte of the file at
    [k], or -1 at the end of the file; [cupsFileGetChar] leaves the
    handle at [k + 1] and [cupsFilePeekChar] at [k], so that
    [cupsFileTell] counts the bytes taken. *)
Theorem X3_getchar_peekchar_plain data k fp :
  plain_at data k fp ->
  fst (cupsFilePeekChar fp) = fst (cupsFileGetChar fp) /\
  plain_at data k (snd (cupsFilePeekChar fp)) /\
  ((k < length data)%nat ->
   fst (cupsFileGetChar fp) = Z.land (nth k data 0) 255 /\
   plain_at data (k + 1) (snd (cupsFileGetChar fp)) /\
   cupsFileTell (snd (cupsFileGetChar fp)) = cupsFileTell fp + 1) /\
  ((length data <= k)%nat ->
   fst (cupsFileGetChar fp) = -1 /\ plain_at data k (snd (cupsFileGetChar fp))).
Proof.
  intros H. unfold cupsFilePeekChar, cupsFileGetChar, cupsFileTell.
  rewrite (plain_readable H). cbn [negb].
  destruct (plain_next H) as (r & a & Hstep & Ha & Hcase).
  rewrite Hstep.
  destruct Hcase as [(Hend & Hr)|(Hin & Hr & Heof & p & e & P & E & Hpe & Hb)].
  - destruct (Z.leb_spec r 0) as [_|]; [|lia]. cbn [fst snd].
    destruct (eof fp) eqn:Eo; cbn [fst snd].
    + split; [reflexivity|]. split; [exact Ha|]. split; [lia|].
      intros _. split; [reflexivity|exact H].
    + split; [reflexivity|]. split; [exact Ha|]. split; [lia|].
      intros _. split; [reflexivity|exact Ha].
  - destruct (Z.leb_spec r 0) as [|_]; [lia|]. cbn [fst snd].
    assert (Eo : eof fp = false).
    { destruct (eof fp) eqn:Eo; [|reflexivity].
      pose proof (plain_eof H Eo). lia. }
    rewrite Eo, P. cbn [off fst snd]. rewrite Hb.
    split; [reflexivity|]. split; [exact Ha|]. split; [|lia].
    intros _. split; [reflexivity|].
    pose proof Ha as (_ & _ & _ & _ & _ & Hpos & _).
    pose proof H as (_ & _ & _ & _ & _ & Hpos0 & _).
    split; [|fsimpl; lia].
    eapply (@plain_advance data k a p e 1); eauto; fsimpl; try reflexivity; try lia.
    rewrite Nat.add_1_r. reflexivity.
Qed.

Lemma read_loop_plain data : forall fuel fp bytes acc k,
  plain_at data k fp -> (bytes <= fuel)%nat ->
  exists fp',
    read_loop fuel fp bytes acc =
      ((if (bytes =? 0)%nat || (0 <? length (acc ++ firstn bytes (skipn k data)))%nat
        then Z.of_nat (length (acc ++ firstn bytes (skipn k data))) else -1),
       acc ++ firstn bytes (skipn k data), fp') /\
    plain_at data (k + length (firstn bytes (skipn k data))) fp'.
Proof.
  induction fuel as [|fuel IH]; intros fp bytes acc k H Hb.
  { assert (bytes = 0%nat) by lia. subst. cbn [read_loop firstn Nat.eqb orb length].
    rewrite app_nil_r, Nat.add_0_r. eauto. }
  cbn [read_loop]. destruct (Nat.eqb_spec bytes 0) as [->|B0].
  { cbn [firstn orb length]. rewrite app_nil_r, Nat.add_0_r. eauto. }
  cbn [orb].
  destruct (plain_next H) as (r & a & -> & Ha & Hcase).
  destruct Hcase as [(Hend & Hr)|(Hin & Hr & Heof & p & e & P & E & Hpe & Hbyte)].
  - destruct (Z.leb_spec r 0) as [_|]; [|lia].
    rewrite (skipn_all2 data Hend), firstn_nil, app_nil_r. cbn [length].
    rewrite Nat.add_0_r.
    destruct (0 <? length acc)%nat; eauto.
  - destruct (Z.leb_spec r 0) as [|_]; [lia|]. cbv zeta.
    rewrite P, E. cbn [off].
    set (count := Nat.min (e - p) bytes).
    assert (Hc : (p + count <= e)%nat) by (unfold count; lia).
    assert (Hc0 : (0 < count)%nat) by (unfold count; lia).
    destruct (@plain_advance data k a p e count
                (set_pos (pos a + Z.of_nat count) (set_ptr (Some (p + count)%nat) a))
                Ha P E Hc) as (Hadv & Hd & Hlen); try reflexivity.
    rewrite Hd.
    destruct (IH _ (bytes - count)%nat (acc ++ firstn count (skipn k data))
                 (k + count)%nat Hadv) as (fp' & Hrl & Hp').
    { unfold count. lia. }
    rewrite Hrl. exists fp'.
    assert (Hcat : firstn count (skipn k data) ++
                   firstn (bytes - count) (skipn (k + count) data) =
                   firstn bytes (skipn k data)).
    { rewrite (Nat.add_comm k count), <- skipn_skipn, firstn_firstn_skipn.
      f_equal. unfold count. lia. }
    rewrite <- app_assoc, Hcat.
    assert (Hpos : (0 <? length (acc ++ firstn bytes (skipn k data)))%nat = true).
    { apply Nat.ltb_lt. rewrite <- Hcat, !length_app, Hlen. lia. }
    rewrite Hpos, orb_true_r. split; [reflexivity|].
    rewrite <- Hcat, length_app, Hlen, Nat.add_assoc. exact Hp'.
Qed.

(** X4: [cupsFileRead] on an uncompressed file at offset [k]: the bytes
    stored are the next [n] bytes of the file, fewer when the file ends
    first; the value returned is their number, or -1 when [n] is not 0 and
    there is none left; the handle is left just behind them. *)
Theorem X4_read_plain data k fp n :
  plain_at data k fp ->
  fst (cupsFileRead fp n) =
    ((if (n =? 0)%nat || (k <? length data)%nat
      then Z.of_nat (length (firstn n (skipn k data))) else -1),
     firstn n (skipn k data)) /\
  plain_at data (k + length (firstn n (skipn k data))) (snd (cupsFileRead fp n)).
Proof.
  intros H. unfold cupsFileRead. rewrite (plain_readable H). cbn [negb].
  destruct (Nat.eqb_spec n 0) as [->|N].
  { cbn [firstn length fst snd orb]. rewrite Nat.add_0_r. auto. }
  cbn [orb].
  destruct (eof fp) eqn:Eo.
  { pose proof (plain_eof H Eo) as Hend.
    rewrite (skipn_all2 data Hend), firstn_nil. cbn [length fst snd].
    rewrite Nat.add_0_r. destruct (Nat.ltb_spec k (length data)); [lia|]. auto. }
  destruct (@read_loop_plain data n fp n [] k H (Nat.le_refl _)) as (fp' & -> & Hp).
  cbn [app fst snd]. split; [|exact Hp].
  destruct (Nat.eqb_spec n 0) as [|_]; [contradiction|]. cbn [orb].
  f_equal.
  destruct (Nat.ltb_spec k (length data)) as [Hin|Hend].
  - replace (0 <? length (firstn n (skipn k data)))%nat with true; [reflexivity|].
    symmetry. apply Nat.ltb_lt. rewrite length_firstn, length_skipn. lia.
  - rewrite (skipn_all2 data Hend), firstn_nil. reflexivity.
Qed.

(** ** Peeking *)

(** What the test [fp->ptr >= fp->end] and a fill that succeeds leave:
    a cursor before the end of the buffer, the mode, the position and a
    clear [eof] untouched. *)
Lemma next_ready fp r a :
  (if at_end fp then cups_fill fp else (1, fp)) = (r, a) -> 0 < r ->
  at_end a = false /\ mode a = mode fp /\ pos a = pos fp /\
  (eof fp = false -> eof a = false).
Proof.
  destruct (at_end fp) eqn:A; [|intros [= <- <-]; auto].
  intros Hf Hr.
  pose proof (cups_fill_spec fp) as ((Hpos & _ & Hm & _) & HP).
  destruct (fill_enter_fields fp) as (Hpos' & _ & _ & Heof' & _ & _ & _ & Hm').
  rewrite Hf in *. cbn [fst snd] in *.
  destruct HP as [(? & _)|(_ & P1 & E1 & _ & He)]; [lia|].
  split; [unfold at_end; rewrite P1, E1; apply Nat.leb_gt; lia|].
  split; [congruence|]. split; [congruence|].
  intros X. apply He. congruence.
Qed.

(** X5: on any read handle that is not at end of file, compressed or
    not, a [cupsFilePeekChar] that delivers a character changes nothing
    for the reader: the position is the same, and [cupsFileGetChar] after
    it returns that character and leaves the handle that
    [cupsFileGetChar] alone would have left. *)
Theorem X5_peek_then_get fp :
  eof fp = false -> 0 <= fst (cupsFilePeekChar fp) ->
  cupsFileTell (snd (cupsFilePeekChar fp)) = cupsFileTell fp /\
  fst (cupsFileGetChar (snd (cupsFilePeekChar fp))) = fst (cupsFilePeekChar fp) /\
  cupsFileGetChar (snd (cupsFilePeekChar fp)) = cupsFileGetChar fp.
Proof.
  unfold cupsFilePeekChar, cupsFileGetChar at 3, cupsFileTell. intros Eo.
  destruct (negb (readable fp)) eqn:Rd; [cbn; lia|]. rewrite Eo.
  destruct (if at_end fp then cups_fill fp else (1, fp)) as [r a] eqn:Hst.
  destruct (Z.leb_spec r 0) as [|Hr]; [cbn; lia|]. cbn [fst snd]. intros _.
  destruct (next_ready _ Hst Hr) as (A & M & P & E).
  assert (HG : cupsFileGetChar a =
               (Z.land (byte_at (buf a) (off (ptr a))) 255,
                set_ptr (Some (S (off (ptr a)))) (set_pos (pos a + 1) a))).
  { unfold cupsFileGetChar, readable in *. rewrite M, Rd, (E Eo), A.
    cbn [Z.leb Z.compare]. reflexivity. }
  rewrite HG. cbn [fst]. auto.
Qed.

(** ** Lines of an uncompressed file *)

Lemma skipn_cons_inv (l : list byte) k x rest :
  skipn k l = x :: rest ->
  (k < length l)%nat /\ nth k l 0 = x /\ skipn (k + 1) l = rest.
Proof.
  intros H.
  assert (Hk : (k < length l)%nat).
  { destruct (Nat.lt_ge_cases k (length l)); [assumption|].
    rewrite skipn_all2 in H by assumption. discriminate. }
  split; [exact Hk|]. split; [apply (nth_of_skipn _ _ H)|].
  rewrite (skipn_nth_cons _ Hk) in H. injection H as _ H.
  rewrite Nat.add_1_r. exact H.
Qed.

(** One turn of the loops of [cupsFileGets] and [cupsFileGetLine] on an
    uncompressed handle that has a byte to give. *)
Lemma plain_take data k fp x rest :
  plain_at data k fp -> skipn k data = x :: rest ->
  exists r a,
    (if at_end fp then cups_fill fp else (1, fp)) = (r, a) /\
    (r <=? 0) = false /\ byte_at (buf a) (off (ptr a)) = x /\
    plain_at data (k + 1)
      (set_pos (pos a + 1) (set_ptr (Some (S (off (ptr a)))) a)) /\
    skipn (k + 1) data = rest.
Proof.
  intros H Hs. destruct (skipn_cons_inv _ _ Hs) as (Hk & Hx & Hrest).
  destruct (plain_next H) as (r & a & Hstep & Ha & Hcase).
  destruct Hcase as [(Hend & _)|(_ & Hr & _ & p & e & P & E & Hpe & Hb)]; [lia|].
  exists r, a. split; [exact Hstep|].
  split; [apply Z.leb_gt; exact Hr|]. rewrite P. cbn [off].
  split; [congruence|]. split; [|exact Hrest].
  eapply (@plain_advance data k a p e 1); eauto; fsimpl; try reflexivity; try lia.
  rewrite Nat.add_1_r. reflexivity.
Qed.

(** ... and one that has none. *)
Lemma plain_dry data k fp :
  plain_at data k fp -> skipn k data = [] ->
  exists r a,
    (if at_end fp then cups_fill fp else (1, fp)) = (r, a) /\
    (r <=? 0) = true /\ plain_at data k a.
Proof.
  intros H Hs.
  assert (Hk : (length data <= k)%nat).
  { destruct (Nat.lt_ge_cases k (length data)) as [Hlt|]; [|assumption].
    rewrite (skipn_nth_cons _ Hlt) in Hs. discriminate. }
  destruct (plain_next H) as (r & a & Hstep & Ha & Hcase).
  destruct Hcase as [(_ & Hr)|(Hin & _)]; [|lia].
  exists r, a. split; [exact Hstep|]. split; [apply Z.leb_le; exact Hr|exact Ha].
Qed.

Lemma in_line_not c : in_line c = true -> (c =? 13) = false /\ (c =? 10) = false.
Proof.
  unfold in_line. intros H. apply andb_prop in H as (H1 & H2).
  split; [destruct (c =? 13)|destruct (c =? 10)]; auto; discriminate.
Qed.

(** The loop of [cupsFileGets] over a run of bytes that end no line. *)
Lemma gets_run data : forall line room fp k acc tail,
  plain_at data k fp -> skipn k data = line ++ tail ->
  forallb in_line line = true -> (length line <= room)%nat ->
  exists fp',
    gets_loop room fp acc = gets_loop (room - length line) fp' (acc ++ line) /\
    plain_at data (k + length line) fp'.
Proof.
  induction line as [|c line IH]; intros room fp k acc tail H Hs Hreg Hroom.
  { exists fp. cbn [length]. rewrite Nat.sub_0_r, Nat.add_0_r, app_nil_r. auto. }
  cbn [forallb] in Hreg. apply andb_prop in Hreg as (Hc & Hreg).
  destruct (in_line_not _ Hc) as (H13 & H10).
  destruct room as [|room]; [cbn in Hroom; lia|].
  cbn [app] in Hs.
  destruct (plain_take H Hs) as (r & a & Hstep & Hr & Hb & Hadv & Hrest).
  cbn [gets_loop]. rewrite Hstep, Hr. cbv zeta. rewrite Hb, H13, H10.
  destruct (IH room _ (k + 1)%nat (acc ++ [c]) tail Hadv Hrest Hreg) as (fp' & Hl & Hp).
  { cbn [length] in Hroom. lia. }
  exists fp'. rewrite Hl. cbn [length Nat.sub].
  rewrite <- app_assoc. cbn [app].
  split; [reflexivity|].
  replace (k + S (length line))%nat with (k + 1 + length line)%nat by lia. exact Hp.
Qed.

(** How the loops deal with the end of a line, given the handle on its
    first byte. *)
Lemma line_end_cases term rest :
  line_end term rest = true ->
  term = [10] \/ term = [13; 10] \/ (term = [13] /\ (hd 0 rest =? 10) = false).
Proof.
  unfold line_end. destruct term as [|c [|d [|? ?]]]; try discriminate.
  - destruct (Z.eqb_spec c 10) as [->|_]; [auto|]. cbn [orb].
    destruct (Z.eqb_spec c 13) as [->|_]; [|discriminate]. cbn [andb].
    destruct (hd 0 rest =? 10); [discriminate|auto].
  - destruct (Z.eqb_spec c 13) as [->|_]; [|discriminate].
    destruct (Z.eqb_spec d 10) as [->|_]; [auto|discriminate].
Qed.

Lemma gets_end data room fp k acc term rest :
  plain_at data k fp -> skipn k data = term ++ rest ->
  line_end term rest = true ->
  exists fp',
    gets_loop (S room) fp acc = (Some acc, fp') /\
    plain_at data (k + length term) fp'.
Proof.
  intros H Hs Hend.
  destruct (line_end_cases _ _ Hend) as [->|[->|(-> & Hrest10)]]; cbn [app length] in *.
  - destruct (plain_take H Hs) as (r & a & Hstep & Hr & Hb & Hadv & _).
    cbn [gets_loop]. rewrite Hstep, Hr. cbv zeta. rewrite Hb.
    cbn [Z.eqb Pos.eqb]. eauto.
  - destruct (plain_take H Hs) as (r & a & Hstep & Hr & Hb & Hadv & Hrest).
    cbn [gets_loop]. rewrite Hstep, Hr. cbv zeta. rewrite Hb.
    cbn [Z.eqb Pos.eqb].
    destruct (plain_take Hadv Hrest) as (r2 & a2 & Hstep2 & Hr2 & Hb2 & Hadv2 & _).
    rewrite Hstep2, Hr2, Hb2. cbn [Z.eqb Pos.eqb].
    eexists. split; [reflexivity|].
    replace (k + 2)%nat with (k + 1 + 1)%nat by lia. exact Hadv2.
  - destruct (plain_take H Hs) as (r & a & Hstep & Hr & Hb & Hadv & Hrest).
    cbn [gets_loop]. rewrite Hstep, Hr. cbv zeta. rewrite Hb.
    cbn [Z.eqb Pos.eqb].
    destruct rest as [|x rest'].
    + destruct (plain_dry Hadv Hrest) as (r2 & a2 & Hstep2 & Hr2 & Ha2).
      rewrite Hstep2, Hr2. eauto.
    + destruct (plain_next Hadv) as (r2 & a2 & Hstep2 & Ha2 & Hcase).
      destruct (skipn_cons_inv _ _ Hrest) as (Hk & Hx & _).
      destruct Hcase as [(? & _)|(_ & Hr2 & _ & p & e & P & E & _ & Hb2)]; [lia|].
      rewrite Hstep2. destruct (Z.leb_spec r2 0) as [|_]; [lia|].
      rewrite P. cbn [off]. rewrite Hb2, Hx. cbn [hd] in Hrest10. rewrite Hrest10.
      eauto.
Qed.

Lemma cupsFileGets_plain data k fp buflen :
  plain_at data k fp -> (2 <= buflen)%nat ->
  cupsFileGets fp buflen = gets_loop (buflen - 1) fp [].
Proof.
  intros H Hb. unfold cupsFileGets. rewrite (plain_readable H).
  destruct (Nat.ltb_spec buflen 2); [lia|]. reflexivity.
Qed.

(** X6: [cupsFileGets] on an uncompressed file takes LF, CR LF and a CR
    that no LF follows as the end of a line alike: it returns the bytes
    before the terminator and leaves the handle behind it. *)
Theorem X6_gets_line_ends data k fp buflen line term rest :
  plain_at data k fp ->
  skipn k data = line ++ term ++ rest ->
  forallb in_line line = true -> line_end term rest = true ->
  (length line < buflen - 1)%nat ->
  fst (cupsFileGets fp buflen) = Some line /\
  plain_at data (k + length line + length term) (snd (cupsFileGets fp buflen)).
Proof.
  intros H Hs Hreg Hend Hlen.
  rewrite (cupsFileGets_plain H) by lia.
  destruct (@gets_run data line (buflen - 1) fp k [] (term ++ rest) H Hs Hreg)
    as (fp1 & -> & H1); [lia|].
  assert (Hs1 : skipn (k + length line) data = term ++ rest).
  { rewrite Nat.add_comm, <- skipn_skipn, Hs, skipn_app_length. reflexivity. }
  destruct (buflen - 1 - length line)%nat as [|room] eqn:R; [lia|].
  destruct (@gets_end data room fp1 _ ([] ++ line) term rest H1 Hs1 Hend)
    as (fp2 & -> & H2).
  cbn [fst snd app]. auto.
Qed.

(** X7: a line that does not fit is cut, not lost: when none of the next
    [buflen - 1] bytes ends a line, [cupsFileGets] returns exactly these
    bytes and leaves the handle behind them, for the next call to go
    on. *)
Theorem X7_gets_cuts_long_line data k fp buflen line tail :
  plain_at data k fp ->
  skipn k data = line ++ tail ->
  forallb in_line line = true ->
  (2 <= buflen)%nat -> length line = (buflen - 1)%nat ->
  fst (cupsFileGets fp buflen) = Some line /\
  plain_at data (k + length line) (snd (cupsFileGets fp buflen)).
Proof.
  intros H Hs Hreg Hb Hlen.
  rewrite (cupsFileGets_plain H) by lia.
  destruct (@gets_run data line (buflen - 1) fp k [] tail H Hs Hreg)
    as (fp1 & -> & H1); [lia|].
  rewrite <- Hlen, Nat.sub_diag. cbn [gets_loop fst snd app]. auto.
Qed.

(** X8: at the end of an uncompressed file [cupsFileGets] returns what
    is left as a last line, although no terminator follows it, and
    [NULL] once nothing is left. *)
Theorem X8_gets_at_end_of_file data k fp buflen :
  plain_at data k fp ->
  forallb in_line (skipn k data) = true ->
  (length (skipn k data) < buflen - 1)%nat ->
  fst (cupsFileGets fp buflen) =
    (if (length (skipn k data) =? 0)%nat then None else Some (skipn k data)) /\
  plain_at data (k + length (skipn k data)) (snd (cupsFileGets fp buflen)).
Proof.
  intros H Hreg Hlen.
  rewrite (cupsFileGets_plain H) by lia.
  destruct (@gets_run data (skipn k data) (buflen - 1) fp k [] [] H) as (fp1 & -> & H1);
    [rewrite app_nil_r; reflexivity|exact Hreg|lia|].
  assert (Hs1 : skipn (k + length (skipn k data)) data = []).
  { apply skipn_all2. rewrite length_skipn. lia. }
  destruct (buflen - 1 - length (skipn k data))%nat as [|room] eqn:R; [lia|].
  destruct (plain_dry H1 Hs1) as (r & a & Hstep & Hr & Ha).
  cbn [gets_loop app]. rewrite Hstep, Hr. cbn [fst snd]. auto.
Qed.

Lemma getline_run data : forall line room fp k acc tail,
  plain_at data k fp -> skipn k data = line ++ tail ->
  forallb in_line line = true -> (length line <= room)%nat ->
  exists fp',
    getline_loop room fp acc = getline_loop (room - length line) fp' (acc ++ line) /\
    plain_at data (k + length line) fp'.
Proof.
  induction line as [|c line IH]; intros room fp k acc tail H Hs Hreg Hroom.
  { exists fp. cbn [length]. rewrite Nat.sub_0_r, Nat.add_0_r, app_nil_r. auto. }
  cbn [forallb] in Hreg. apply andb_prop in Hreg as (Hc & Hreg).
  destruct (in_line_not _ Hc) as (H13 & H10).
  destruct room as [|room]; [cbn in Hroom; lia|].
  cbn [app] in Hs.
  destruct (plain_take H Hs) as (r & a & Hstep & Hr & Hb & Hadv & Hrest).
  cbn [getline_loop]. rewrite Hstep, Hr. cbv zeta. rewrite Hb, H13, H10.
  destruct (IH room _ (k + 1)%nat (acc ++ [c]) tail Hadv Hrest Hreg) as (fp' & Hl & Hp).
  { cbn [length] in Hroom. lia. }
  exists fp'. rewrite Hl. cbn [length Nat.sub].
  rewrite <- app_assoc. cbn [app].
  split; [reflexivity|].
  replace (k + S (length line))%nat with (k + 1 + length line)%nat by lia. exact Hp.
Qed.

Lemma getline_end data room fp k acc term rest :
  plain_at data k fp -> skipn k data = term ++ rest ->
  line_end term rest = true ->
  exists fp',
    getline_loop (S room) fp acc = (acc ++ term, fp') /\
    plain_at data (k + length term) fp'.
Proof.
  intros H Hs Hend.
  destruct (line_end_cases _ _ Hend) as [->|[->|(-> & Hrest10)]]; cbn [app length] in *.
  - destruct (plain_take H Hs) as (r & a & Hstep & Hr & Hb & Hadv & _).
    cbn [getline_loop]. rewrite Hstep, Hr. cbv zeta. rewrite Hb.
    cbn [Z.eqb Pos.eqb]. eauto.
  - destruct (plain_take H Hs) as (r & a & Hstep & Hr & Hb & Hadv & Hrest).
    cbn [getline_loop]. rewrite Hstep, Hr. cbv zeta. rewrite Hb.
    cbn [Z.eqb Pos.eqb].
    destruct (plain_take Hadv Hrest) as (r2 & a2 & Hstep2 & Hr2 & Hb2 & Hadv2 & _).
    rewrite Hstep2, Hr2, Hb2. cbn [Z.eqb Pos.eqb].
    eexists. split; [rewrite <- app_assoc; reflexivity|].
    replace (k + 2)%nat with (k + 1 + 1)%nat by lia. exact Hadv2.
  - destruct (plain_take H Hs) as (r & a & Hstep & Hr & Hb & Hadv & Hrest).
    cbn [getline_loop]. rewrite Hstep, Hr. cbv zeta. rewrite Hb.
    cbn [Z.eqb Pos.eqb].
    destruct rest as [|x rest'].
    + destruct (plain_dry Hadv Hrest) as (r2 & a2 & Hstep2 & Hr2 & Ha2).
      rewrite Hstep2, Hr2. eauto.
    + destruct (plain_next Hadv) as (r2 & a2 & Hstep2 & Ha2 & Hcase).
      destruct (skipn_cons_inv _ _ Hrest) as (Hk & Hx & _).
      destruct Hcase as [(? & _)|(_ & Hr2 & _ & p & e & P & E & _ & Hb2)]; [lia|].
      rewrite Hstep2. destruct (Z.leb_spec r2 0) as [|_]; [lia|].
      rewrite P. cbn [off]. rewrite Hb2, Hx. cbn [hd] in Hrest10. rewrite Hrest10.
      eauto.
Qed.

(** X9: [cupsFileGetLine] on an uncompressed file returns the line with
    its terminator (LF, CR LF, or a CR that no LF follows) and the number
    of bytes of both, whatever bytes the line holds, NUL included, and
    leaves the handle behind the terminator. *)
Theorem X9_getline_keeps_terminator data k fp buflen line term rest :
  plain_at data k fp ->
  skipn k data = line ++ term ++ rest ->
  forallb in_line line = true -> line_end term rest = true ->
  (length line < buflen - 2)%nat ->
  fst (cupsFileGetLine fp buflen) =
    (Z.of_nat (length line + length term), line ++ term) /\
  plain_at data (k + length line + length term) (snd (cupsFileGetLine fp buflen)).
Proof.
  intros H Hs Hreg Hend Hlen.
  unfold cupsFileGetLine. rewrite (plain_readable H).
  destruct (Nat.ltb_spec buflen 3); [lia|]. cbn [negb orb].
  destruct (@getline_run data line (buflen - 2) fp k [] (term ++ rest) H Hs Hreg)
    as (fp1 & -> & H1); [lia|].
  assert (Hs1 : skipn (k + length line) data = term ++ rest).
  { rewrite Nat.add_comm, <- skipn_skipn, Hs, skipn_app_length. reflexivity. }
  destruct (buflen - 2 - length line)%nat as [|room] eqn:R; [lia|].
  destruct (@getline_end data room fp1 _ ([] ++ line) term rest H1 Hs1 Hend)
    as (fp2 & -> & H2).
  cbn [fst snd app]. rewrite length_app.
  split; [reflexivity|exact H2].
Qed.

(** ** Seeking in an uncompressed file *)

Lemma rewind_plain data k fp :
  plain_at data k fp -> plain_from data 0 = true ->
  fst (cupsFileRewind fp) = 0 /\ plain_at data 0 (snd (cupsFileRewind fp)).
Proof.
  intros (M & C & D & R & Sk & Hpos & HA) G.
  unfold cupsFileRewind. rewrite M.
  change (negb (Ascii.eqb "r" "r")) with false. cbv iota.
  destruct (Z.eqb_spec (bufpos fp) 0) as [Hb0|Hb0].
  - cbv zeta. fsimpl. cbn [fst snd]. split; [reflexivity|].
    destruct (ptr fp) as [p|] eqn:P, (end_ fp) as [e|] eqn:E; try contradiction;
      cbn [is_some].
    + destruct HA as (b & Hbp & Hk & Hpe & O & Hbuf & He & Heof).
      assert (b = 0%nat) by lia. subst b.
      unfold plain_at. fsimpl. rewrite E.
      repeat split; auto.
      exists 0%nat. repeat split; auto; try lia; discriminate.
    + destruct HA as (Hbp & O & Heof & G').
      assert (k = 0%nat) by lia. subst k.
      unfold plain_at. fsimpl. rewrite P, E. repeat split; auto.
  - cbv zeta. rewrite C. unfold sys_lseek. rewrite Sk. cbn [andb Z.leb Z.compare].
    cbn [Z.eqb negb fst snd Z.to_nat]. split; [reflexivity|].
    unfold plain_at. fsimpl. repeat split; auto.
Qed.

(** X10: [cupsFileSeek] on an uncompressed file.  From a handle that has
    a buffer, or has bytes before it, a seek to any position [p] whose
    bytes will not be taken for a gzip header succeeds, returns [p] and
    leaves the handle at offset [p] of the file: inside the buffer when
    [p] falls there, else with the descriptor moved and no buffer. *)
Theorem X10_seek_plain data k fp p :
  plain_at data k fp -> 0 <= p ->
  plain_from data (Z.to_nat p) = true ->
  is_some (ptr fp) = true \/ (k < length data)%nat \/ p = 0 ->
  fst (cupsFileSeek fp p) = p /\
  plain_at data (Z.to_nat p) (snd (cupsFileSeek fp p)) /\
  cupsFileTell (snd (cupsFileSeek fp p)) = p.
Proof.
  intros H Hp G Hcan.
  assert (Hgoal : fst (cupsFileSeek fp p) = p /\
                  plain_at data (Z.to_nat p) (snd (cupsFileSeek fp p))).
  2:{ destruct Hgoal as (H1 & H2). split; [exact H1|]. split; [exact H2|].
      unfold cupsFileTell. destruct H2 as (_ & _ & _ & _ & _ & -> & _). lia. }
  pose proof H as (M & C & D & R & Sk & Hpos & HA).
  unfold cupsFileSeek. rewrite M.
  destruct (Z.ltb_spec p 0) as [|_]; [lia|].
  change (false || negb (Ascii.eqb "r" "r")) with false. cbv iota.
  destruct (Z.eqb_spec p 0) as [->|Hp0].
  { apply (rewind_plain H G). }
  destruct (is_some (ptr fp) && in_window fp p (Z.of_nat (off (end_ fp)))) eqn:W.
  { (* inside the buffer *)
    apply andb_prop in W as (HP & W). unfold in_window in W.
    apply andb_prop in W as (W1 & W2). apply Z.leb_le in W1. apply Z.ltb_lt in W2.
    destruct (ptr fp) as [q|] eqn:P; [|discriminate].
    destruct (end_ fp) as [e|] eqn:E; [|contradiction].
    destruct HA as (b & Hbp & Hk & Hpe & O & Hbuf & He & Heof).
    cbn [off] in W2. cbn [fst snd]. split; [reflexivity|].
    unfold plain_at. fsimpl. rewrite E.
    repeat split; auto; try lia.
    exists b. repeat split; auto; try lia; discriminate. }
  rewrite C. cbn [negb andb].
  assert (Hpre : exists r a,
    (if negb (is_some (ptr fp)) then cups_fill fp else (1, fp)) = (r, a) /\
    0 < r /\ plain_at data k a).
  { destruct (ptr fp) as [q|] eqn:P; cbn [is_some negb].
    - exists 1, fp. split; [reflexivity|]. split; [lia|exact H].
    - assert (A : at_end fp = true).
      { unfold at_end. rewrite P. destruct (end_ fp); [contradiction|reflexivity]. }
      destruct (fill_plain H A) as (a & Hf & Ha & _).
      eexists _, a. split; [exact Hf|]. split; [|exact Ha].
      destruct Hcan as [X|[X|X]]; [discriminate X| |contradiction].
      rewrite length_firstn, length_skipn. pose proof BUFSIZE_Z. lia. }
  destruct Hpre as (r & a & -> & Hr & (Ma & Ca & Da & Ra & Ska & _)).
  destruct (Z.leb_spec r 0) as [|_]; [lia|]. cbv zeta. fsimpl. rewrite Ca.
  unfold sys_lseek. rewrite Ska.
  destruct (Z.leb_spec 0 p) as [_|]; [|lia]. cbn [andb fst snd]. fsimpl.
  split; [reflexivity|].
  unfold plain_at. fsimpl. repeat split; auto; lia.
Qed.

(** ** Writing without compression *)

(** [cupsFileFlush] on such a handle: the buffer goes to the file. *)
Lemma flush_storing fuel out0 w fp :
  storing out0 w fp ->
  exists fp',
    cupsFileFlush fuel fp = Some (true, fp') /\ storing out0 w fp' /\
    ptr fp' = Some 0%nat /\ f_out (fd fp') = out0 ++ w /\
    pos fp' = pos fp /\ is_stdio fp' = is_stdio fp /\
    f_close_fails (fd fp') = f_close_fails (fd fp) /\
    f_closed (fd fp') = f_closed (fd fp).
Proof.
  intros (M & C & (p & P & Hp) & E & Hbuf & Hclean & Hout).
  unfold cupsFileFlush. rewrite M, C, P. cbn [off] in *.
  change (negb (Ascii.eqb "w" "w")) with false. cbv iota.
  rewrite P in Hout. cbn [off] in Hout.
  destruct (Nat.ltb_spec 0 p) as [Hp0|Hp0].
  - destruct (cups_write_clean fp (firstn p (buf fp)) Hclean)
      as (d & -> & Hd & Hcl & Hcf & Hcd).
    eexists. split; [reflexivity|]. fsimpl.
    split; [|repeat split; auto; congruence].
    unfold storing. fsimpl. cbn [off firstn]. rewrite app_nil_r.
    repeat split; auto; try congruence. exists 0%nat. split; [reflexivity|lia].
  - assert (p = 0%nat) by lia. subst p. cbn [firstn] in Hout. rewrite app_nil_r in Hout.
    exists fp. split; [reflexivity|].
    split; [|repeat split; auto].
    unfold storing. rewrite P. cbn [off firstn]. rewrite app_nil_r.
    repeat split; auto. exists 0%nat. auto.
Qed.

Lemma store_put out0 w fp fp' p data :
  storing out0 w fp -> ptr fp = Some p -> (p + length data <= BUFSIZE)%nat ->
  mode fp' = mode fp -> compressed fp' = compressed fp -> fd fp' = fd fp ->
  end_ fp' = end_ fp ->
  ptr fp' = Some (p + length data)%nat ->
  buf fp' = overwrite_at p data (buf fp) ->
  storing out0 (w ++ data) fp'.
Proof.
  intros (M & C & _ & E & Hbuf & Hclean & Hout) P Hfit M' C' F' E' P' B'.
  unfold storing. rewrite M', C', F', E', P', B'. cbn [off].
  rewrite P in Hout. cbn [off] in Hout.
  repeat split; auto.
  - exists (p + length data)%nat. auto.
  - rewrite overwrite_at_length; lia.
  - rewrite overwrite_at_firstn by lia.
    rewrite !app_assoc, Hout. reflexivity.
Qed.

Lemma put_bytes_storing fuel out0 w fp data b :
  storing out0 w fp ->
  exists fp',
    put_bytes fuel fp data b = Some (true, fp') /\ storing out0 (w ++ data) fp' /\
    pos fp' = pos fp + Z.of_nat (length data) /\
    is_stdio fp' = is_stdio fp /\ f_close_fails (fd fp') = f_close_fails (fd fp).
Proof.
  intros S0. unfold put_bytes. cbv zeta.
  assert (Hfl : exists fp1 p1,
    (if (off (end_ fp) <? off (ptr fp) + length data)%nat
     then cupsFileFlush fuel fp else Some (true, fp)) = Some (true, fp1) /\
    storing out0 w fp1 /\ ptr fp1 = Some p1 /\ pos fp1 = pos fp /\
    is_stdio fp1 = is_stdio fp /\ f_close_fails (fd fp1) = f_close_fails (fd fp) /\
    (p1 = 0%nat \/ (p1 + length data <= BUFSIZE)%nat)).
  { pose proof S0 as (_ & _ & (p & P & _) & E & _).
    rewrite E, P. cbn [off].
    destruct (Nat.ltb_spec BUFSIZE (p + length data)).
    - destruct (flush_storing fuel S0) as (fp1 & -> & S1 & P1 & _ & Hpos & Hio & Hcf & _).
      exists fp1, 0%nat. auto 10.
    - exists fp, p. auto 10. }
  destruct Hfl as (fp1 & p1 & -> & S1 & P1 & Hpos1 & Hio1 & Hcf1 & Hfit).
  pose proof S1 as (M & C & _ & E & Hbuf & Hclean & Hout).
  fsimpl. rewrite C, P1. cbn [off].
  destruct (Nat.ltb_spec BUFSIZE (length data)) as [Hbig|Hfits].
  - assert (p1 = 0%nat) by lia. subst p1.
    destruct (cups_write_clean (set_pos (pos fp1 + Z.of_nat (length data)) fp1) data)
      as (d & -> & Hd & Hcl & Hcf & _); [exact Hclean|].
    eexists. split; [reflexivity|]. fsimpl. fsimpl.
    split; [|split; [lia|split; congruence]].
    unfold storing. fsimpl. rewrite P1 in *. cbn [off firstn] in *.
    rewrite app_nil_r in *. rewrite Hd, Hout, app_assoc.
    repeat split; auto. exists 0%nat. split; [reflexivity|lia].
  - set (fp3 := set_ptr (Some (p1 + length data)%nat)
                  (set_buf (overwrite_at p1 data (buf fp1))
                     (set_pos (pos fp1 + Z.of_nat (length data)) fp1))).
    assert (S3 : storing out0 (w ++ data) fp3).
    { eapply (@store_put out0 w fp1 fp3 p1 data); eauto; try reflexivity.
      destruct Hfit; lia. }
    destruct (b && is_stdio fp1).
    + destruct (flush_storing fuel S3) as (fp4 & -> & S4 & _ & _ & Hpos4 & Hio4 & Hcf4 & _).
      exists fp4. split; [reflexivity|]. split; [exact S4|].
      rewrite Hpos4, Hio4, Hcf4. unfold fp3. fsimpl.
      split; [lia|split; congruence].
    + exists fp3. split; [reflexivity|]. split; [exact S3|].
      unfold fp3. fsimpl. split; [lia|split; congruence].
Qed.

Lemma do_call_storing fuel out0 w fp c :
  storing out0 w fp ->
  exists fp',
    do_call fuel fp c = Some (true, fp') /\ storing out0 (w ++ call_bytes c) fp' /\
    pos fp' = pos fp + Z.of_nat (length (call_bytes c)) /\
    is_stdio fp' = is_stdio fp /\ f_close_fails (fd fp') = f_close_fails (fd fp).
Proof.
  intros S0. pose proof S0 as (M & C & (p & P & Hp) & E & Hbuf & Hclean & Hout).
  destruct c as [data|s|ch]; cbn [do_call call_bytes].
  - unfold cupsFileWrite, writable. rewrite M.
    change (negb (Ascii.eqb "w" "w" || Ascii.eqb "w" "s")) with false.
    change (Ascii.eqb "w" "s") with false. cbv iota.
    destruct (Nat.eqb_spec (length data) 0) as [E0|_].
    + destruct data; [|discriminate]. exists fp. rewrite app_nil_r. cbn [length].
      split; [reflexivity|]. split; [exact S0|]. split; [lia|auto].
    + apply put_bytes_storing. exact S0.
  - unfold cupsFilePuts, writable. rewrite M.
    change (negb (Ascii.eqb "w" "w" || Ascii.eqb "w" "s")) with false.
    change (Ascii.eqb "w" "s") with false. cbv iota.
    apply put_bytes_storing. exact S0.
  - unfold cupsFilePutChar, writable. rewrite M.
    change (negb (Ascii.eqb "w" "w" || Ascii.eqb "w" "s")) with false.
    change (Ascii.eqb "w" "s") with false. cbv iota zeta.
    unfold at_end. rewrite P, E.
    assert (Hfl : exists fp1 p1,
      (if (BUFSIZE <=? p)%nat then cupsFileFlush fuel fp else Some (true, fp))
        = Some (true, fp1) /\
      storing out0 w fp1 /\ ptr fp1 = Some p1 /\ pos fp1 = pos fp /\
      is_stdio fp1 = is_stdio fp /\ f_close_fails (fd fp1) = f_close_fails (fd fp) /\
      (p1 < BUFSIZE)%nat).
    { destruct (Nat.leb_spec BUFSIZE p).
      - destruct (flush_storing fuel S0) as (fp1 & -> & S1 & P1 & _ & Hpos & Hio & Hcf & _).
        exists fp1, 0%nat. pose proof BUFSIZE_Z.
        split; [reflexivity|]. split; [exact S1|]. split; [exact P1|].
        split; [exact Hpos|]. split; [exact Hio|]. split; [exact Hcf|lia].
      - exists fp, p. auto 10. }
    destruct Hfl as (fp1 & p1 & -> & S1 & P1 & Hpos1 & Hio1 & Hcf1 & Hlt).
    eexists. split; [reflexivity|]. rewrite P1. cbn [off]. split.
    + eapply (@store_put out0 w fp1 _ p1 [Z.land ch 255]); eauto;
        fsimpl; try reflexivity; cbn [length]; try lia.
      f_equal. lia.
    + fsimpl. cbn [length]. split; [lia|auto].
Qed.

Lemma write_calls_storing fuel out0 cs : forall w fp,
  storing out0 w fp ->
  exists fp',
    write_calls fuel fp cs = Some fp' /\
    storing out0 (w ++ concat (map call_bytes cs)) fp' /\
    pos fp' = pos fp + Z.of_nat (length (concat (map call_bytes cs))) /\
    is_stdio fp' = is_stdio fp /\ f_close_fails (fd fp') = f_close_fails (fd fp).
Proof.
  induction cs as [|c cs IH]; intros w fp S0; cbn [write_calls map concat].
  - exists fp. rewrite app_nil_r. cbn [length]. split; [reflexivity|].
    split; [exact S0|]. split; [lia|auto].
  - destruct (do_call_storing fuel c S0) as (fp1 & -> & S1 & Hpos1 & Hio1 & Hcf1).
    destruct (IH _ _ S1) as (fp' & -> & S' & Hpos' & Hio' & Hcf').
    exists fp'. split; [reflexivity|]. rewrite app_assoc. split; [exact S'|].
    rewrite length_app. split; [lia|split; congruence].
Qed.

Lemma cupsFileOpenFd_storing d m t fp :
  cupsFileOpenFd d m t = Some fp -> mode fp = "w"%char -> compressed fp = false ->
  ~ In WrErr (f_writes d) ->
  storing (f_out d) [] fp /\ fd fp = d /\ is_stdio fp = false.
Proof.
  unfold cupsFileOpenFd. cbv zeta. intros H Hm Hc Hw.
  destruct (negb _ || _); [discriminate|].
  destruct (Ascii.eqb (mode_at m 0) "a" || Ascii.eqb (mode_at m 0) "w").
  2:{ destruct (Ascii.eqb (mode_at m 0) "r"); injection H as <-; discriminate Hm. }
  destruct ((49 <=? _)%nat && _).
  { match type of H with context [cups_write ?f ?h] =>
      destruct (cups_write f h) as [ok f1] end.
    destruct (deflateInit2_core _) as [status zs].
    destruct (status <? Z_OK); [discriminate|]. injection H as <-. discriminate Hc. }
  injection H as <-. unfold calloc_file.
  destruct (Ascii.eqb (mode_at m 0) "a"); fsimpl;
    (split; [|split; reflexivity]); unfold storing; fsimpl;
    rewrite repeat_length, app_nil_r; cbn [firstn]; rewrite app_nil_r;
    repeat split; auto; exists 0%nat; split; [reflexivity|lia| reflexivity|lia].
Qed.

Lemma close_storing fuel out0 w fp :
  storing out0 w fp -> is_stdio fp = false ->
  exists res,
    cupsFileClose fuel fp = Some res /\ f_out (cl_fd res) = out0 ++ w /\
    cl_status res = negb (f_close_fails (fd fp)) /\ cl_freed res = true /\
    f_closed (cl_fd res) = true.
Proof.
  intros S0 Hio. pose proof S0 as (M & _).
  destruct (flush_storing fuel S0) as (fp1 & HF & S1 & _ & Hout & _ & Hio1 & Hcf & _).
  pose proof S1 as (M1 & C1 & _).
  unfold cupsFileClose. rewrite M.
  change (Ascii.eqb "w" "w") with true. cbv iota.
  rewrite HF, C1. cbn [andb]. rewrite Hio1, Hio, M1.
  unfold sys_close.
  change (Ascii.eqb "w" "s") with false. cbv iota.
  eexists. split; [reflexivity|]. cbn [cl_fd cl_status cl_freed]. fsimpl.
  rewrite Hcf. repeat split; auto.
  destruct (f_close_fails (fd fp)); reflexivity.
Qed.

(** X11: a file opened for writing without compression ends up holding
    what it held before and, after it, the bytes of all the calls in
    order: every [cupsFileWrite], [cupsFilePuts] and [cupsFilePutChar]
    succeeds, [cupsFileTell] has counted their bytes, and [cupsFileClose]
    flushes the rest and closes the descriptor.  This holds whatever the
    buffer boundaries, and also when the [write] calls on the descriptor
    write less than asked or are interrupted, as long as none fails for
    good. *)
Theorem X11_uncompressed_write_round_trip d m t fp0 fuel cs :
  cupsFileOpenFd d m t = Some fp0 ->
  mode fp0 = "w"%char -> compressed fp0 = false ->
  ~ In WrErr (f_writes d) ->
  exists fp res,
    write_calls fuel fp0 cs = Some fp /\
    cupsFileTell fp = cupsFileTell fp0 + Z.of_nat (length (concat (map call_bytes cs))) /\
    cupsFileClose fuel fp = Some res /\
    f_out (cl_fd res) = f_out d ++ concat (map call_bytes cs) /\
    f_closed (cl_fd res) = true /\
    cl_status res = negb (f_close_fails d).
Proof.
  intros Hopen Hm Hc Hw.
  destruct (cupsFileOpenFd_storing _ _ _ Hopen Hm Hc Hw) as (S0 & Hfd & Hio).
  destruct (write_calls_storing fuel cs S0) as (fp & Hcalls & S1 & Hpos & Hio1 & Hcf1).
  cbn [app] in S1. rewrite Hio in Hio1. rewrite Hfd in Hcf1.
  destruct (close_storing fuel S1 Hio1) as (res & Hclose & Hout & Hst & _ & Hcl).
  exists fp, res. unfold cupsFileTell. rewrite Hcf1 in Hst. auto 10.
Qed.

(** ** What the writer stores and the reader expects *)

Lemma gzip_header_sniff t rest n :
  (10 <= n)%nat ->
  not_gzip (Z.of_nat n) (gzip_header t ++ rest) = false /\
  gz_header (gzip_header t ++ rest) n = Some 10%nat.
Proof.
  intros Hn. split.
  - unfold not_gzip. destruct (Z.ltb_spec (Z.of_nat n) 10); [lia|]. reflexivity.
  - reflexivity.
Qed.

(** X12: the header that [cupsFileOpenFd] writes when it opens a
    compressed stream is one that [cups_fill] accepts, whatever the time
    stamp in it: on a file that starts with it, the first fill sets the
    decompressor up, marks the handle compressed and hands the bytes
    behind the 10 bytes of the header to the decompressor. *)
Theorem X12_written_header_is_accepted data fp t body :
  fresh_on data fp -> data = gzip_header t ++ body ->
  fst (inflateInit2_core (-15)) = Z_OK ->
  exists fp',
    fill_header fp = Next fp' /\ compressed fp' = true /\ crc fp' = 0 /\
    window fp' = firstn (BUFSIZE - 10) body /\
    fd fp' = dset_off (length (firstn BUFSIZE data)) (fd fp).
Proof.
  intros (M & P & E & Eof & _ & _ & _ & D & R & Hoff & _) Hdata Hinit.
  assert (Hrest : f_rest (fd fp) = data).
  { unfold f_rest. rewrite Hoff, D. reflexivity. }
  unfold fill_header. cbv zeta.
  assert (Hrd : cups_read (set_compressed false fp) BUFSIZE =
                (Z.of_nat (length (firstn BUFSIZE data)), firstn BUFSIZE data,
                 set_fd (dset_off (length (firstn BUFSIZE data)) (fd fp))
                   (set_compressed false fp))).
  { rewrite cups_read_plain by exact R. fsimpl. rewrite Hrest, Hoff. reflexivity. }
  rewrite Hrd. clear Hrd.
  destruct (Z.ltb_spec (Z.of_nat (length (firstn BUFSIZE data))) 0) as [|_]; [lia|].
  fsimpl.
  pose proof BUFSIZE_Z as HB.
  assert (Hlen : (10 <= length (firstn BUFSIZE data))%nat).
  { rewrite length_firstn, Hdata, length_app. cbn [gzip_header length].
    clear -HB. lia. }
  set (got := firstn BUFSIZE data) in *.
  assert (Hgot : got = gzip_header t ++ firstn (BUFSIZE - 10) body).
  { unfold got. rewrite Hdata, firstn_app.
    rewrite (@firstn_all2 _ BUFSIZE (gzip_header t)) by (cbn [gzip_header length]; lia).
    reflexivity. }
  assert (Hov : overwrite got (buf fp) =
                gzip_header t ++ (firstn (BUFSIZE - 10) body ++ skipn (length got) (buf fp))).
  { unfold overwrite. rewrite Hgot at 1. rewrite <- app_assoc. reflexivity. }
  rewrite Hov.
  destruct (gzip_header_sniff t
              (firstn (BUFSIZE - 10) body ++ skipn (length got) (buf fp))
              (n := length got) Hlen) as (-> & Hgz).
  rewrite Nat2Z.id, Hgz.
  destruct (inflateInit2_core (-15)) as [status zs]. cbn [fst] in Hinit. subst status.
  cbn [Z.eqb negb Z_OK].
  assert (Hfb : length (firstn (BUFSIZE - 10) body) = (length got - 10)%nat).
  { rewrite Hgot, length_app. cbn [gzip_header length]. lia. }
  assert (Hsk : skipn 10 (gzip_header t ++
                  firstn (BUFSIZE - 10) body ++ skipn (length got) (buf fp)) =
                firstn (BUFSIZE - 10) body ++ skipn (length got) (buf fp))
    by reflexivity.
  rewrite Hsk, <- Hfb, firstn_app_length.
  destruct (Nat.ltb_spec 0 (length (firstn (BUFSIZE - 10) body))) as [Hpos|Hz].
  - eexists. split; [reflexivity|]. fsimpl.
    split; [reflexivity|]. split; [reflexivity|]. split; [|reflexivity].
    unfold window. fsimpl. unfold overwrite. cbn [skipn].
    rewrite firstn_app_length. reflexivity.
  - eexists. split; [reflexivity|]. fsimpl.
    split; [reflexivity|]. split; [reflexivity|]. split; [|reflexivity].
    unfold window. fsimpl.
    destruct (firstn (BUFSIZE - 10) body); [reflexivity|cbn in Hz; lia].
Qed.

(** ** [cupsFilePutConf] and [cupsFileGetConf] *)

Lemma strchr_quoted v : forall i,
  forallb (fun c => negb (c =? 0)) v = true ->
  match strchr_from (v ++ [0]) i 35 with
  | Some p => exists q, p = (i + q)%nat /\ quoted v = firstn q v ++ 92 :: skipn q v
  | None => quoted v = v
  end.
Proof.
  induction v as [|c v IH]; intros i Hv; cbn [app strchr_from quoted forallb] in *.
  - reflexivity.
  - apply andb_prop in Hv as (Hc & Hv).
    destruct (Z.eqb_spec c 35) as [->|Hne].
    + exists 0%nat. split; [lia|reflexivity].
    + destruct (c =? 0); [discriminate Hc|].
      specialize (IH (S i) Hv).
      destruct (strchr_from (v ++ [0]) (S i) 35) as [p|].
      * destruct IH as (q & -> & Hq). exists (S q). split; [lia|].
        cbn [firstn skipn app]. rewrite Hq. reflexivity.
      * rewrite IH. reflexivity.
Qed.

Ltac storing_as H :=
  match type of H with
  | storing _ ?a _ =>
      match goal with
      | |- storing _ ?b _ =>
          replace b with a;
          [exact H|repeat (rewrite <- ?app_assoc; cbn [app]); reflexivity]
      end
  end.

Lemma putconf_storing fuel out0 w fp directive value :
  storing out0 w fp -> directive <> [] ->
  forallb (fun c => negb (c =? 0)) (match value with Some v => v | None => [] end) = true ->
  exists fp',
    cupsFilePutConf fuel fp directive value = Some (true, fp') /\
    storing out0 (w ++ conf_written directive value ++ [10]) fp' /\
    pos fp' = pos fp + Z.of_nat (length (conf_written directive value)) + 1 /\
    is_stdio fp' = is_stdio fp /\ f_close_fails (fd fp') = f_close_fails (fd fp).
Proof.
  intros S0 Hd Hv. unfold cupsFilePutConf, conf_written.
  destruct directive as [|d0 dir]; [contradiction|]. cbn [length Nat.eqb].
  destruct (do_call_storing fuel (CallPuts (d0 :: dir)) S0)
    as (fp1 & H1 & S1 & P1 & I1 & F1).
  cbn [do_call call_bytes] in H1, S1, P1. rewrite H1. cbn [and_then].
  destruct (do_call_storing fuel (CallPutChar 32) S1)
    as (fp2 & H2 & S2 & P2 & I2 & F2).
  cbn [do_call call_bytes] in H2, S2, P2. rewrite H2. cbn [and_then].
  change (Z.land 32 255) with 32 in *.
  assert (Hmid : exists fp3,
    match value with
    | Some ((_ :: _) as v) =>
        match strchr (v ++ [0]) 35 with
        | Some p =>
            and_then (cupsFileWrite fuel fp2 (firstn p v)) (fun fp =>
            and_then (cupsFilePutChar fuel fp 92) (fun fp =>
            cupsFilePuts fuel fp (skipn p v)))
        | None => cupsFilePuts fuel fp2 v
        end
    | _ => Some (true, fp2)
    end = Some (true, fp3) /\
    storing out0 (((w ++ d0 :: dir) ++ [32]) ++
                  match value with Some v => quoted v | None => [] end) fp3 /\
    pos fp3 = pos fp2 +
              Z.of_nat (length (match value with Some v => quoted v | None => [] end)) /\
    is_stdio fp3 = is_stdio fp2 /\ f_close_fails (fd fp3) = f_close_fails (fd fp2)).
  { destruct value as [[|v0 v]|].
    - exists fp2. cbn [quoted length]. rewrite app_nil_r, Z.add_0_r. auto.
    - pose proof (@strchr_quoted (v0 :: v) 0%nat Hv) as Hq. unfold strchr.
      destruct (strchr_from ((v0 :: v) ++ [0]) 0 35) as [p|].
      + destruct Hq as (q & -> & Hq). cbn [Nat.add].
        destruct (do_call_storing fuel (CallWrite (firstn q (v0 :: v))) S2)
          as (fp3 & H3 & S3 & P3 & I3 & F3).
        cbn [do_call call_bytes] in H3, S3, P3. rewrite H3. cbn [and_then].
        destruct (do_call_storing fuel (CallPutChar 92) S3)
          as (fp4 & H4 & S4 & P4 & I4 & F4).
        cbn [do_call call_bytes] in H4, S4, P4. rewrite H4. cbn [and_then].
        change (Z.land 92 255) with 92 in *.
        destruct (do_call_storing fuel (CallPuts (skipn q (v0 :: v))) S4)
          as (fp5 & H5 & S5 & P5 & I5 & F5).
        cbn [do_call call_bytes] in H5, S5, P5. rewrite H5.
        exists fp5. split; [reflexivity|]. rewrite Hq.
        split.
        { storing_as S5. }
        split; [|split; congruence].
        rewrite P5, P4, P3, length_app. cbn [length]. unfold byte in *. lia.
      + destruct (do_call_storing fuel (CallPuts (v0 :: v)) S2)
          as (fp3 & H3 & S3 & P3 & I3 & F3).
        cbn [do_call call_bytes] in H3, S3, P3. rewrite H3.
        exists fp3. rewrite Hq. auto.
    - exists fp2. cbn [length]. rewrite app_nil_r, Z.add_0_r. auto. }
  destruct Hmid as (fp3 & Hm3 & S3 & P3 & I3 & F3).
  match goal with
  | |- exists _, and_then ?x _ = _ /\ _ =>
      replace x with (Some (true, fp3)) by (symmetry; exact Hm3)
  end.
  cbn [and_then].
  destruct (do_call_storing fuel (CallPutChar 10) S3)
    as (fp4 & H4 & S4 & P4 & I4 & F4).
  cbn [do_call call_bytes] in H4, S4, P4. rewrite H4.
  change (Z.land 10 255) with 10 in *.
  exists fp4. split; [reflexivity|].
  split.
  { storing_as S4. }
  split; [|split; congruence].
  rewrite P4, P3, P2, P1, length_app. cbn [length]. unfold byte in *.
  rewrite !Nat2Z.inj_succ. lia.
Qed.

(** X13: on an uncompressed write handle whose descriptor takes every
    write, [cupsFilePutConf] succeeds and adds exactly one line to the
    file: the directive, one space, the value with a backslash before
    its first [#] (nothing for a [NULL] or empty value) and a line
    feed. *)
Theorem X13_putconf_writes_one_line d m t fp0 fuel cs directive value :
  cupsFileOpenFd d m t = Some fp0 -> mode fp0 = "w"%char -> compressed fp0 = false ->
  ~ In WrErr (f_writes d) ->
  directive <> [] ->
  forallb (fun c => negb (c =? 0)) (match value with Some v => v | None => [] end) = true ->
  exists fp fp' res,
    write_calls fuel fp0 cs = Some fp /\
    cupsFilePutConf fuel fp directive value = Some (true, fp') /\
    cupsFileTell fp' =
      cupsFileTell fp + Z.of_nat (length (conf_written directive value)) + 1 /\
    cupsFileClose fuel fp' = Some res /\
    f_out (cl_fd res) =
      f_out d ++ concat (map call_bytes cs) ++ conf_written directive value ++ [10].
Proof.
  intros Ho Hm Hc Hw Hd Hv.
  destruct (cupsFileOpenFd_storing _ _ _ Ho Hm Hc Hw) as (S0 & Hfd & Hio).
  destruct (@write_calls_storing fuel (f_out d) cs [] fp0 S0)
    as (fp & Hcs & S1 & _ & I1 & _).
  destruct (@putconf_storing fuel (f_out d) _ fp directive value S1 Hd Hv)
    as (fp' & Hput & S2 & P2 & I2 & _).
  destruct (@close_storing fuel (f_out d) _ fp' S2) as (res & Hcl & Hout & _);
    [congruence|].
  exists fp, fp', res. split; [exact Hcs|]. split; [exact Hput|].
  split; [exact P2|]. split; [exact Hcl|].
  rewrite Hout. cbn [app]. reflexivity.
Qed.

(** The three steps of [cupsFileGetConf] on a line with a name and a
    value. *)
Lemma conf_line_parsed lead key sep value tail :
  spaces lead = true -> is_token key = true -> spaces sep = true -> sep <> [] ->
  is_text value = true -> value_in_line value tail ->
  exists b,
    (byte_at (conf_leading (conf_comment ((lead ++ key ++ sep ++ tail) ++ [0]))) 0 =? 0)
      = false /\
    conf_value (conf_leading (conf_comment ((lead ++ key ++ sep ++ tail) ++ [0]))) =
      (b, Some (length key + length sep)%nat) /\
    cstring_at b 0 = key /\ cstring_at b (length key + length sep) = value.
Proof.
  intros Hlead Hkey Hsep Hne Hval Hin.
  destruct (@conf_comment_shape lead key sep value tail Hlead Hkey Hsep Hval Hin) as (rest & ->).
  destruct (token_facts _ Hkey) as (k0 & key' & Ek & Hk60 & Hk0 & Hksp & Hkp & _).
  destruct (text_facts _ Hval) as (_ & _ & _ & _ & _ & _ & Hvnul).
  assert (Hbody : forallb (fun c => negb (c =? 0)) (k0 :: key' ++ sep ++ value) = true).
  { change (k0 :: key' ++ sep ++ value) with ((k0 :: key') ++ sep ++ value).
    rewrite <- Ek, !forallb_app.
    apply andb_true_intro. split; [exact (plain_no_nul _ Hkp)|].
    apply andb_true_intro. split; [exact (plain_no_nul _ (spaces_plain _ Hsep))|exact Hvnul]. }
  destruct (@conf_leading_shape lead k0 (key' ++ sep ++ value) rest Hlead Hksp Hbody)
    as (rest' & Hl).
  match goal with |- context [conf_leading ?x] => set (b := conf_leading x) end.
  assert (Hb : b = key ++ sep ++ value ++ 0 :: rest').
  { unfold b. rewrite Ek. etransitivity; [exact Hl|]. flat. reflexivity. }
  clearbody b. subst b.
  assert (H0 : byte_at (key ++ sep ++ value ++ 0 :: rest') 0 = k0) by (rewrite Ek; reflexivity).
  rewrite H0.
  rewrite (@conf_value_shape key sep value rest' Hkey Hsep Hne Hval).
  eexists. split; [destruct (Z.eqb_spec k0 0); [contradiction|reflexivity]|].
  split; [reflexivity|]. split.
  - destruct sep as [|s0 sep']; [contradiction|]. cbn [length repeat app].
    apply (@cstring_at_app [] key _ (plain_no_nul _ Hkp)).
  - rewrite app_assoc.
    replace (length key + length sep)%nat with (length (key ++ repeat 0 (length sep)))
      by (rewrite length_app, repeat_length; reflexivity).
    apply cstring_at_app. exact Hvnul.
Qed.

(** [cupsFileGets] on a line of an uncompressed file that fits. *)
Lemma gets_line_plain data k fp buflen line term rest :
  plain_at data k fp ->
  skipn k data = line ++ term ++ rest ->
  forallb in_line line = true -> line_end term rest = true ->
  (length line < buflen - 1)%nat ->
  exists fp',
    cupsFileGets fp buflen = (Some line, fp') /\
    plain_at data (k + length line + length term) fp'.
Proof.
  intros H Hs Hreg Hend Hlen.
  rewrite (cupsFileGets_plain H) by lia.
  destruct (@gets_run data line (buflen - 1) fp k [] (term ++ rest) H Hs Hreg)
    as (fp1 & -> & H1); [lia|].
  assert (Hs1 : skipn (k + length line) data = term ++ rest).
  { rewrite Nat.add_comm, <- skipn_skipn, Hs, skipn_app_length. reflexivity. }
  destruct (buflen - 1 - length line)%nat as [|room] eqn:R; [lia|].
  destruct (@gets_end data room fp1 _ ([] ++ line) term rest H1 Hs1 Hend)
    as (fp2 & -> & H2).
  exists fp2. cbn [app]. auto.
Qed.

Lemma quoted_in_line value :
  forallb (fun c => negb (c =? 0)) value = true -> value_in_line value (quoted value).
Proof.
  intros Hv.
  assert (Hs : (forallb plain_char value = true /\ quoted value = value) \/
               exists v1 v2, value = v1 ++ 35 :: v2 /\ forallb plain_char v1 = true /\
                             quoted value = v1 ++ 92 :: 35 :: v2).
  { induction value as [|c v IH]; cbn [quoted forallb] in *; [left; auto|].
    apply andb_prop in Hv as (Hc & Hv).
    destruct (Z.eqb_spec c 35) as [->|Hne].
    - right. exists [], v. auto.
    - destruct (IH Hv) as [(Hp & Hq)|(v1 & v2 & E & Hp & Hq)].
      + left. rewrite Hq, Hp. unfold plain_char. rewrite Hc.
        destruct (Z.eqb_spec c 35); [contradiction|]. auto.
      + right. exists (c :: v1), v2. rewrite Hq, E. cbn [forallb app].
        rewrite Hp. unfold plain_char. rewrite Hc.
        destruct (Z.eqb_spec c 35); [contradiction|]. auto. }
  destruct Hs as [(Hp & ->)|(v1 & v2 & E & Hp & ->)].
  - apply value_to_the_end, Hp.
  - apply value_with_escape; assumption.
Qed.

Lemma quoted_in_a_line value :
  forallb in_line value = true -> forallb in_line (quoted value) = true.
Proof.
  induction value as [|c v IH]; cbn [quoted forallb]; [auto|].
  intros H. apply andb_prop in H as (Hc & Hv).
  destruct (c =? 35); cbn [forallb]; rewrite Hc.
  - rewrite Hv. reflexivity.
  - rewrite IH by exact Hv. reflexivity.
Qed.

Lemma token_in_a_line key : is_token key = true -> forallb in_line key = true.
Proof.
  unfold is_token. intros H. apply andb_prop in H as (_ & H).
  induction key as [|c key IH]; cbn [forallb] in *; [reflexivity|].
  apply andb_prop in H as (Hc & H). apply andb_prop in Hc as (Hsp & _).
  rewrite IH by exact H. rewrite andb_true_r.
  unfold in_line. unfold _cups_isspace in Hsp.
  destruct (c =? 13), (c =? 10); try reflexivity;
    rewrite ?orb_true_r in Hsp; cbn in Hsp; try discriminate Hsp.
Qed.

(** X14: [cupsFileGetConf] reads back the line [cupsFilePutConf] writes:
    for a name without whitespace, [#] or a leading [<], and a value
    without line ends and without whitespace at its ends, it returns the
    name as directive and the value as it was given, the backslash
    removed, counts one line and leaves the handle behind the line
    feed. *)
Theorem X14_getconf_reads_putconf_line data k fp buflen n key value rest fuel :
  plain_at data k fp ->
  skipn k data = conf_written key (Some value) ++ 10 :: rest ->
  is_token key = true -> is_text value = true -> forallb in_line value = true ->
  (length (conf_written key (Some value)) < buflen - 1)%nat ->
  exists c fp',
    cupsFileGetConf (S fuel) fp buflen n = Some (Some c, fp') /\
    directive_of c = key /\ value_of c = Some value /\ conf_line c = n + 1 /\
    plain_at data (k + length (conf_written key (Some value)) + 1) fp'.
Proof.
  intros H Hs Hkey Hval Hreg Hlen.
  destruct (text_facts _ Hval) as (_ & _ & _ & _ & _ & _ & Hvnul).
  assert (Hline : forallb in_line (conf_written key (Some value)) = true).
  { unfold conf_written. rewrite forallb_app. cbn [forallb].
    rewrite (token_in_a_line _ Hkey), (quoted_in_a_line _ Hreg). reflexivity. }
  destruct (@gets_line_plain data k fp buflen (conf_written key (Some value)) [10] rest
              H Hs Hline eq_refl Hlen) as (fp' & Hgets & H').
  destruct (@conf_line_parsed [] key [32] value (quoted value)
              eq_refl Hkey eq_refl ltac:(discriminate) Hval (quoted_in_line _ Hvnul))
    as (b & Hb0 & Hb & Hdir & Hv).
  unfold cupsFileGetConf. rewrite (plain_readable H).
  destruct (Nat.ltb_spec buflen 2) as [|_]; [lia|].
  cbn [negb orb conf_loop]. rewrite Hgets. cbv zeta.
  match goal with |- context [conf_leading ?x] => set (bb := conf_leading x) in * end.
  change ((byte_at bb 0 =? 0) = false) in Hb0.
  change (conf_value bb = (b, Some (length key + length [32])%nat)) in Hb.
  rewrite Hb0. cbn [negb]. rewrite Hb.
  eexists. exists fp'. split; [reflexivity|].
  unfold directive_of, value_of. cbn [conf_buf conf_val conf_line option_map].
  split; [exact Hdir|]. split; [f_equal; exact Hv|]. split; [reflexivity|].
  exact H'.
Qed.

(** Rewriting where the goal writes [Z] for [byte]. *)
Ltac rewrite_bytes H :=
  let Hx := fresh in
  pose proof H as Hx; unfold byte in Hx |- *; rewrite Hx; clear Hx.

Lemma strip_back_spaces ws : forall rest,
  spaces ws = true -> strip_back (ws ++ rest) (length ws) = 0%nat.
Proof.
  induction ws as [|w ws IH] using rev_ind; intros rest Hws; [reflexivity|].
  unfold spaces in *. rewrite forallb_app in Hws.
  apply andb_prop in Hws as (Hws & Hw). cbn [forallb] in Hw. rewrite andb_true_r in Hw.
  rewrite length_app. cbn [length]. rewrite Nat.add_1_r. cbn [strip_back].
  rewrite <- app_assoc. cbn [app]. rewrite byte_at_middle, Hw.
  apply IH, Hws.
Qed.

(** A line without a directive leaves an empty string in the array. *)
Lemma conf_nothing line :
  no_directive line ->
  byte_at (conf_leading (conf_comment (line ++ [0]))) 0 = 0.
Proof.
  intros (lead & body & -> & Hlead & [->|(text & ->)]).
  - rewrite app_nil_r. unfold conf_comment, strchr.
    rewrite (strchr_from_none _ 0 (spaces_plain _ Hlead)).
    unfold conf_leading.
    assert (Hskip : skip_space (length (lead ++ [0])) (lead ++ [0]) 0 = length lead).
    { apply (@skip_space_run lead (length (lead ++ [0])) [] 0 [] Hlead eq_refl).
      rewrite length_app. apply Nat.le_add_r. }
    rewrite Hskip. cbv zeta.
    destruct lead as [|l0 lead']; [reflexivity|].
    change (0 <? length (l0 :: lead'))%nat with true. cbv iota.
    unfold _cups_strcpy, strlen. cbn [firstn].
    assert (Hc : cstring_at ((l0 :: lead') ++ [0]) (length (l0 :: lead')) = [])
      by exact (@cstring_at_app (l0 :: lead') [] [] eq_refl).
    rewrite Hc. reflexivity.
  - unfold conf_comment, strchr. rewrite <- app_assoc. cbn [app].
    rewrite_bytes (strchr_from_found _ (text ++ [0]) 0 (spaces_plain _ Hlead)).
    cbn [Nat.add].
    assert (Hesc : (0 <? length lead)%nat &&
                   (byte_at (lead ++ 35 :: text ++ [0]) (length lead - 1) =? 92) = false).
    { destruct lead as [|l0 lead'] using rev_ind; [reflexivity|]. clear IHlead'.
      rewrite_bytes (byte_at_last lead' l0 (35 :: text ++ [0])).
      unfold spaces in Hlead. rewrite forallb_app in Hlead.
      apply andb_prop in Hlead as (_ & Hl). cbn [forallb] in Hl. rewrite andb_true_r in Hl.
      destruct (Z.eqb_spec l0 92) as [->|_]; [discriminate Hl|]. apply andb_false_r. }
    rewrite_bytes Hesc.
    rewrite_bytes (strip_back_spaces lead (35 :: text ++ [0]) Hlead).
    unfold poke, conf_leading. cbn [firstn app].
    match goal with |- context [skip_space ?f ?b 0] =>
      assert (Hskip : skip_space f b 0 = 0%nat) by (destruct f; reflexivity)
    end.
    rewrite Hskip. reflexivity.
Qed.

(** X15: [cupsFileGetConf] passes over a line that holds only whitespace
    or a comment: it counts the line, and goes on as a call made behind
    the line with the count raised by one would. *)
Theorem X15_getconf_skips_blank_and_comment data k fp buflen n line term rest fuel :
  plain_at data k fp ->
  skipn k data = line ++ term ++ rest ->
  no_directive line -> forallb in_line line = true -> line_end term rest = true ->
  (length line < buflen - 1)%nat ->
  exists fp',
    plain_at data (k + length line + length term) fp' /\
    cupsFileGetConf (S fuel) fp buflen n = cupsFileGetConf fuel fp' buflen (n + 1).
Proof.
  intros H Hs Hno Hreg Hend Hlen.
  destruct (@gets_line_plain data k fp buflen line term rest H Hs Hreg Hend Hlen)
    as (fp' & Hgets & H').
  exists fp'. split; [exact H'|].
  unfold cupsFileGetConf. rewrite (plain_readable H), (plain_readable H').
  destruct (Nat.ltb_spec buflen 2) as [|_]; [lia|].
  cbn [negb orb conf_loop]. rewrite Hgets. cbv zeta.
  rewrite (conf_nothing Hno). reflexivity.
Qed.

(** "Yes, grab any value and return..." on a name that only whitespace
    follows. *)
Lemma conf_value_name_only key trail rest :
  is_token key = true -> spaces trail = true ->
  exists b,
    conf_value (key ++ trail ++ 0 :: rest) = (b, None) /\ cstring_at b 0 = key.
Proof.
  intros Hkey Htrail.
  destruct (token_facts _ Hkey) as (k0 & key' & Ek & Hk60 & Hk0 & Hksp & Hkp & Htok).
  unfold conf_value.
  destruct trail as [|s0 trail'].
  - cbn [app].
    assert (Hfind : find_space (length (key ++ 0 :: rest)) (key ++ 0 :: rest) 0 = length key).
    { apply (@find_space_run key (length (key ++ 0 :: rest)) [] 0 rest Htok eq_refl).
      rewrite length_app. apply Nat.le_add_r. }
    rewrite_bytes Hfind. rewrite_bytes (byte_at_middle key 0 rest). cbn [Z.eqb negb].
    eexists. split; [reflexivity|].
    apply (@cstring_at_app [] key rest (plain_no_nul _ Hkp)).
  - assert (Hs0 : _cups_isspace s0 = true).
    { cbn [spaces forallb] in Htrail. apply andb_prop in Htrail as (? & _). assumption. }
    assert (Hs0n : (s0 =? 0) = false).
    { pose proof (space_is_plain _ Hs0) as Hp. unfold plain_char in Hp.
      apply andb_prop in Hp as (Hp & _). destruct (s0 =? 0); [discriminate|reflexivity]. }
    set (b := key ++ (s0 :: trail') ++ 0 :: rest).
    set (b3 := key ++ repeat 0 (length (s0 :: trail')) ++ 0 :: rest).
    assert (Hfind : find_space (length b) b 0 = length key).
    { unfold b. cbn [app].
      apply (@find_space_run key (length (key ++ s0 :: trail' ++ 0 :: rest))
               [] s0 (trail' ++ 0 :: rest) Htok).
      - rewrite Hs0. apply orb_true_r.
      - rewrite length_app. apply Nat.le_add_r. }
    rewrite Hfind.
    assert (Hat : byte_at b (length key) = s0) by (unfold b; cbn [app]; apply byte_at_middle).
    rewrite Hat, Hs0n. cbn [negb].
    assert (Hzero : zero_space (length b) b (length key) =
                    (b3, (length key + length (s0 :: trail'))%nat)).
    { unfold b, b3.
      apply (@zero_space_run (s0 :: trail')
               (length (key ++ (s0 :: trail') ++ 0 :: rest)) key 0 rest Htrail eq_refl).
      rewrite length_app, length_app. lia. }
    rewrite Hzero.
    set (p2 := (length key + length (s0 :: trail'))%nat).
    assert (Hlen : length (key ++ repeat 0 (length (s0 :: trail'))) = p2).
    { rewrite length_app, repeat_length. reflexivity. }
    assert (Hb3 : b3 = (key ++ repeat 0 (length (s0 :: trail'))) ++ 0 :: rest).
    { unfold b3. rewrite <- app_assoc. reflexivity. }
    assert (Hp2 : byte_at b3 p2 = 0).
    { rewrite Hb3, <- Hlen. apply byte_at_middle. }
    assert (Hstr : strlen b3 p2 = 0%nat).
    { unfold strlen. rewrite Hb3, <- Hlen.
      assert (Hc : cstring_at ((key ++ repeat 0 (length (s0 :: trail'))) ++ 0 :: rest)
                     (length (key ++ repeat 0 (length (s0 :: trail')))) = [])
        by exact (@cstring_at_app (key ++ repeat 0 (length (s0 :: trail'))) [] rest eq_refl).
      rewrite Hc. reflexivity. }
    rewrite Hp2, Hstr. cbn [Z.eqb negb].
    assert (H0 : byte_at b3 0 = k0) by (unfold b3; rewrite Ek; reflexivity).
    rewrite H0. destruct (Z.eqb_spec k0 60) as [|_]; [contradiction|]. cbn [andb].
    exists b3. split.
    + rewrite strip_trailing_stop; [reflexivity|].
      assert (Hb3' : b3 = (key ++ repeat 0 (length trail')) ++ 0 :: 0 :: rest).
      { unfold b3. cbn [length]. rewrite <- app_assoc. f_equal.
        cbn [repeat]. rewrite repeat_cons, <- app_assoc. reflexivity. }
      replace (p2 + 0 - 1)%nat with (length (key ++ repeat 0 (length trail'))).
      * rewrite Hb3', byte_at_middle. reflexivity.
      * rewrite length_app, repeat_length. unfold p2. cbn [length]. lia.
    + unfold b3. cbn [length repeat app].
      apply (@cstring_at_app [] key _ (plain_no_nul _ Hkp)).
Qed.

(** X16: a line that holds a name and nothing else but whitespace, such
    as the line [cupsFilePutConf] writes for a [NULL] value, is returned
    by [cupsFileGetConf] as that directive with a [NULL] value. *)
Theorem X16_getconf_name_without_value data k fp buflen n lead key trail term rest fuel :
  plain_at data k fp ->
  skipn k data = (lead ++ key ++ trail) ++ term ++ rest ->
  spaces lead = true -> is_token key = true -> spaces trail = true ->
  forallb in_line (lead ++ key ++ trail) = true -> line_end term rest = true ->
  (length (lead ++ key ++ trail) < buflen - 1)%nat ->
  exists c fp',
    cupsFileGetConf (S fuel) fp buflen n = Some (Some c, fp') /\
    directive_of c = key /\ value_of c = None /\ conf_line c = n + 1 /\
    plain_at data (k + length (lead ++ key ++ trail) + length term) fp'.
Proof.
  intros H Hs Hlead Hkey Htrail Hreg Hend Hlen.
  destruct (@gets_line_plain data k fp buflen _ term rest H Hs Hreg Hend Hlen)
    as (fp' & Hgets & H').
  destruct (token_facts _ Hkey) as (k0 & key' & Ek & Hk60 & Hk0 & Hksp & Hkp & _).
  assert (Hplain : forallb plain_char (lead ++ key ++ trail) = true).
  { rewrite !forallb_app, (spaces_plain _ Hlead), Hkp, (spaces_plain _ Htrail). reflexivity. }
  assert (Hcom : conf_comment ((lead ++ key ++ trail) ++ [0]) = lead ++ (key ++ trail) ++ [0]).
  { unfold conf_comment, strchr. rewrite (strchr_from_none _ 0 Hplain).
    rewrite <- !app_assoc. reflexivity. }
  assert (Hbody : forallb (fun c => negb (c =? 0)) (k0 :: key' ++ trail) = true).
  { change (k0 :: key' ++ trail) with ((k0 :: key') ++ trail).
    rewrite <- Ek, forallb_app.
    apply andb_true_intro. split; [exact (plain_no_nul _ Hkp)|].
    exact (plain_no_nul _ (spaces_plain _ Htrail)). }
  destruct (@conf_leading_shape lead k0 (key' ++ trail) [] Hlead Hksp Hbody) as (rest' & Hl).
  destruct (@conf_value_name_only key trail rest' Hkey Htrail) as (b & Hb & Hdir).
  unfold cupsFileGetConf. rewrite (plain_readable H).
  destruct (Nat.ltb_spec buflen 2) as [|_]; [lia|].
  cbn [negb orb conf_loop]. rewrite Hgets. cbv zeta.
  rewrite Hcom.
  match goal with |- context [conf_leading ?x] => set (bb := conf_leading x) in * end.
  assert (Hbb : bb = key ++ trail ++ 0 :: rest').
  { unfold bb. rewrite Ek. etransitivity; [exact Hl|]. flat. reflexivity. }
  clearbody bb. subst bb.
  assert (H0 : byte_at (key ++ trail ++ 0 :: rest') 0 = k0) by (rewrite Ek; reflexivity).
  rewrite H0. destruct (Z.eqb_spec k0 0) as [|_]; [contradiction|]. cbn [negb].
  rewrite Hb.
  eexists. exists fp'. split; [reflexivity|].
  unfold directive_of, value_of. cbn [conf_buf conf_val conf_line option_map].
  split; [exact Hdir|]. split; [reflexivity|]. split; [reflexivity|]. exact H'.
Qed.

(** ** The trailer of a member *)

Lemma testbit_glue a b n :
  0 <= n ->
  Z.testbit (Z.lor (Z.shiftl a 8) (Z.land b (Z.ones 8))) n =
  if n <? 8 then Z.testbit b n else Z.testbit a (n - 8).
Proof.
  intros Hn. rewrite Z.lor_spec, Z.land_spec, Z.testbit_ones_nonneg by lia.
  destruct (Z.ltb_spec n 8).
  - rewrite Z.shiftl_spec_low by lia. rewrite andb_true_r. reflexivity.
  - rewrite Z.shiftl_spec_high by lia. rewrite andb_false_r, orb_false_r. reflexivity.
Qed.

(** X17: the checksum [cups_fill] reads from a trailer is the one
    [cupsFileClose] wrote into it, for every 32-bit value. *)
Theorem X17_trailer_crc_round_trip c p :
  0 <= c < 2 ^ 32 -> trailer_crc (gzip_trailer c p) = c.
Proof.
  intros Hc. unfold trailer_crc, gzip_trailer, byte_at. cbn [nth].
  change 255 with (Z.ones 8).
  apply Z.bits_inj'. intros n Hn.
  rewrite testbit_glue by lia.
  destruct (Z.ltb_spec n 8); [reflexivity|].
  rewrite testbit_glue by lia.
  destruct (Z.ltb_spec (n - 8) 8); [rewrite Z.shiftr_spec by lia; f_equal; lia|].
  rewrite testbit_glue by lia.
  destruct (Z.ltb_spec (n - 8 - 8) 8); [rewrite Z.shiftr_spec by lia; f_equal; lia|].
  rewrite Z.land_spec, Z.shiftr_spec, Z.testbit_ones_nonneg by lia.
  replace (n - 8 - 8 - 8 + 24) with n by lia.
  destruct (Z.ltb_spec (n - 8 - 8 - 8) 8); [apply andb_true_r|].
  rewrite andb_false_r. symmetry. apply Z.testbit_false; [lia|].
  rewrite Z.div_small; [reflexivity|].
  split; [lia|]. apply Z.lt_le_trans with (2 ^ 32); [lia|].
  apply Z.pow_le_mono_r; lia.
Qed.

(** ** [cupsFilePrintf] within its limit *)

Lemma vsnprintf_all size (rendered : list byte) :
  (length rendered < size)%nat ->
  firstn (length rendered) (vsnprintf size rendered) = rendered.
Proof.
  intros H. unfold vsnprintf.
  rewrite (firstn_all2 (n := (size - 1)%nat)) by lia.
  rewrite firstn_app, Nat.sub_diag, firstn_all. cbn [firstn]. apply app_nil_r.
Qed.

Lemma printf_storing fuel out0 w fp rendered :
  storing out0 w fp -> Z.of_nat (length rendered) <= 65535 ->
  exists fp',
    cupsFilePrintf fuel fp rendered = Some (true, fp') /\
    storing out0 (w ++ rendered) fp' /\
    pos fp' = pos fp + Z.of_nat (length rendered) /\
    is_stdio fp' = is_stdio fp /\ f_close_fails (fd fp') = f_close_fails (fd fp).
Proof.
  intros S0 Hlen. pose proof S0 as (M & _).
  unfold cupsFilePrintf, writable. rewrite M.
  change (negb (Ascii.eqb "w" "w" || Ascii.eqb "w" "s")) with false. cbv iota zeta.
  set (fp1 := match printf_buffer fp with
              | None => set_printf_size 1024 (set_printf_buffer (Some (repeat 0 1024)) fp)
              | Some _ => fp
              end).
  assert (S1 : storing out0 w fp1 /\ pos fp1 = pos fp /\ is_stdio fp1 = is_stdio fp /\
               fd fp1 = fd fp).
  { unfold fp1. destruct (printf_buffer fp); [auto|]. split; [exact S0|]. auto. }
  destruct S1 as (S1 & P1 & I1 & F1). clearbody fp1.
  destruct (Z.ltb_spec 65535 (Z.of_nat (length rendered))) as [|_];
    [unfold byte in *; lia|].
  rewrite andb_false_r.
  match goal with
  | |- exists _, (if Ascii.eqb (mode ?f) _ then _ else _) = _ /\ _ => set (fp2 := f)
  end.
  match goal with
  | |- exists _, (if _ then _ else put_bytes _ _ ?t _) = _ /\ _ => set (text := t)
  end.
  assert (Htext : text = rendered).
  { unfold text, fp2. fsimpl.
    destruct (Nat.leb_spec (printf_size fp1) (length rendered)); fsimpl;
      apply vsnprintf_all; lia. }
  assert (S2 : storing out0 w fp2 /\ pos fp2 = pos fp1 /\ is_stdio fp2 = is_stdio fp1 /\
               fd fp2 = fd fp1 /\ mode fp2 = "w"%char).
  { pose proof S1 as (M1 & _). unfold fp2. fsimpl.
    destruct (printf_size fp1 <=? length rendered)%nat; fsimpl;
      (split; [exact S1|]); auto. }
  destruct S2 as (S2 & P2 & I2 & F2 & M2). clearbody fp2 text. subst text.
  rewrite M2. change (Ascii.eqb "w" "s") with false. cbv iota.
  destruct (@put_bytes_storing fuel out0 w fp2 rendered true S2)
    as (fp' & Hpb & S' & P' & I' & F').
  exists fp'. split; [exact Hpb|]. split; [exact S'|].
  split; [congruence|]. split; congruence.
Qed.

(** X18: on an uncompressed write handle whose descriptor takes every
    write, [cupsFilePrintf] of a text of at most 65535 bytes succeeds and
    writes the whole text, also when it is longer than the 1024 bytes the
    formatting buffer starts with. *)
Theorem X18_printf_writes_whole_text d m t fp0 fuel cs rendered :
  cupsFileOpenFd d m t = Some fp0 -> mode fp0 = "w"%char -> compressed fp0 = false ->
  ~ In WrErr (f_writes d) ->
  Z.of_nat (length rendered) <= 65535 ->
  exists fp fp' res,
    write_calls fuel fp0 cs = Some fp /\
    cupsFilePrintf fuel fp rendered = Some (true, fp') /\
    cupsFileTell fp' = cupsFileTell fp + Z.of_nat (length rendered) /\
    cupsFileClose fuel fp' = Some res /\
    f_out (cl_fd res) = f_out d ++ concat (map call_bytes cs) ++ rendered.
Proof.
  intros Ho Hm Hc Hw Hlen.
  destruct (cupsFileOpenFd_storing _ _ _ Ho Hm Hc Hw) as (S0 & Hfd & Hio).
  destruct (@write_calls_storing fuel (f_out d) cs [] fp0 S0)
    as (fp & Hcs & S1 & _ & I1 & _).
  destruct (@printf_storing fuel (f_out d) _ fp rendered S1 Hlen)
    as (fp' & Hput & S2 & P2 & I2 & _).
  destruct (@close_storing fuel (f_out d) _ fp' S2) as (res & Hcl & Hout & _);
    [congruence|].
  exists fp, fp', res. split; [exact Hcs|]. split; [exact Hput|].
  split; [exact P2|]. split; [exact Hcl|].
  rewrite Hout. cbn [app]. reflexivity.
Qed.

End CupsFileFacts.

(** ** The statements on sample inputs *)

#[local] Existing Instance Stored.zlib.

Lemma reader_fresh data : fresh_on data (Sample.reader data).
Proof. unfold fresh_on. cbn. auto 20. Qed.

Lemma C10_short_first_fill_is_raw_witness :
  exists fp',
    cups_fill (Sample.reader Sample.magic5) = (5, fp') /\
    5 = Z.of_nat (length Sample.magic5) /\
    firstn (length Sample.magic5) (buf fp') = Sample.magic5 /\
    ptr fp' = Some 0%nat /\ end_ fp' = Some (length Sample.magic5) /\
    compressed fp' = false /\ eof fp' = eof (Sample.reader Sample.magic5) /\
    fd fp' = fd (snd (cups_read (Sample.reader Sample.magic5) BUFSIZE)).
Proof.
  apply (@C10_short_first_fill_is_raw _ _ Stored.zlib
           (Sample.reader Sample.magic5) 5 Sample.magic5
           (snd (cups_read (Sample.reader Sample.magic5) BUFSIZE))).
  - reflexivity.
  - vm_compute. reflexivity.
  - lia.
Defined.

Lemma C3_non_gzip_passthrough_witness :
  (exists fp',
     cups_fill (Sample.reader Sample.hello) =
       (Z.of_nat (length (firstn BUFSIZE Sample.hello)), fp') /\
     firstn (length (firstn BUFSIZE Sample.hello)) (buf fp') =
       firstn BUFSIZE Sample.hello /\
     compressed fp' = false /\ eof fp' = false /\
     ptr fp' = Some 0%nat /\
     end_ fp' = Some (length (firstn BUFSIZE Sample.hello))) /\
  (forall sizes,
     read_all (Sample.reader Sample.hello) sizes =
     firstn (list_sum sizes) Sample.hello).
Proof.
  apply (@C3_non_gzip_passthrough _ _ Stored.zlib Sample.hello (Sample.reader Sample.hello)).
  - apply reader_fresh.
  - left. vm_compute. discriminate.
Defined.

(** The first fill of [Sample.corrupt_long] hands out 4081 bytes. *)
Example corrupt_long_first_fill :
  fst (cups_fill (Sample.reader Sample.corrupt_long)) = 4081 /\
  firstn 4081 (buf Sample.corrupt_long_filled) = repeat 97 4081.
Proof. split; vm_compute; reflexivity. Qed.

Lemma C2_trailer_crc_mismatch_fails_witness :
  exists fp', cups_fill Sample.corrupt_long_filled = (-1, fp') /\ eof fp' = true.
Proof.
  apply (@C2_trailer_crc_mismatch_fails _ _ Stored.zlib
           (Sample.reader Sample.corrupt_long)
           ([] ++ firstn (Z.to_nat 4081) (buf Sample.corrupt_long_filled))
           Sample.corrupt_long_filled
           (fill_enter Sample.corrupt_long_filled) Sample.corrupt_long_end).
  - reflexivity.
  - apply (@delivered_fill _ _ Stored.zlib (Sample.reader Sample.corrupt_long) []
             (Sample.reader Sample.corrupt_long) 4081 Sample.corrupt_long_filled).
    + apply delivered_none.
    + vm_compute. reflexivity.
    + lia.
  - apply reach_here. vm_compute. reflexivity.
  - vm_compute. reflexivity.
  - vm_compute. lia.
Defined.

(** The same on the short file [Sample.corrupt], whose first fill meets
    the end of the member. *)
Example corrupt_first_fill_fails :
  fst (cups_fill (Sample.reader Sample.corrupt)) = -1 /\
  eof (snd (cups_fill (Sample.reader Sample.corrupt))) = true.
Proof. split; vm_compute; reflexivity. Qed.

(** *** Concatenated members *)

(** Each of the two members reads back as its input. *)
Lemma members_read_alone :
  fst (cupsFileRead (Sample.reader (Sample.member [97])) 100) = (1, [97]) /\
  fst (cupsFileRead (Sample.reader (Sample.member [98])) 100) = (1, [98]).
Proof. split; vm_compute; reflexivity. Qed.

(** C1 (what the code does): of a file made of the member of "a"
    followed by the member of "b", a read gets "a" and then the end of
    the file.  The trailer of the first member is accepted and
    [compressed] is reset, but the buffer pointer stays set, so the next
    fill does not look for a header: it reads from the descriptor, which
    is at the end of the file, while the 24 bytes of the second member
    are still waiting in the compression buffer. *)
Theorem C1_second_member_is_lost :
  fst (cupsFileRead (Sample.reader Sample.two_members) 100) = (1, [97]) /\
  eof (snd (cupsFileRead (Sample.reader Sample.two_members) 100)) = true /\
  compressed (snd (cups_fill (Sample.reader Sample.two_members))) = false /\
  ptr (snd (cups_fill (Sample.reader Sample.two_members))) = Some 0%nat /\
  avail_in (stream (snd (cups_fill (Sample.reader Sample.two_members)))) = 24%nat /\
  cups_fill (snd (cups_fill (Sample.reader Sample.two_members))) =
  fill_raw (fill_enter (snd (cups_fill (Sample.reader Sample.two_members)))).
Proof.
  split; [vm_compute; reflexivity|].
  split; [vm_compute; reflexivity|].
  split; [vm_compute; reflexivity|].
  split; [vm_compute; reflexivity|].
  split; [vm_compute; reflexivity|].
  apply cups_fill_raw; vm_compute; reflexivity.
Qed.

(** *** Reading twice *)

Lemma C6_read_rewind_read_witness :
  fst (cupsFileSeek (snd (cupsFileRead (Sample.reader Sample.abc_gz) 2)) 0) = 0 /\
  fst (cupsFileRead
         (snd (cupsFileSeek (snd (cupsFileRead (Sample.reader Sample.abc_gz) 2)) 0)) 2) =
  fst (cupsFileRead (Sample.reader Sample.abc_gz) 2).
Proof.
  apply (@C6_read_rewind_read _ _ Stored.zlib Sample.abc_gz (Sample.reader Sample.abc_gz) 2).
  - apply reader_fresh.
  - vm_compute. reflexivity.
Defined.

(** The bytes in question: "ab", out of the member of "abc". *)
Example abc_read_twice :
  fst (cupsFileRead (Sample.reader Sample.abc_gz) 2) = (2, [97; 98]) /\
  fst (cupsFileRead
         (snd (cupsFileSeek (snd (cupsFileRead (Sample.reader Sample.abc_gz) 2)) 0)) 2) =
  (2, [97; 98]).
Proof. split; vm_compute; reflexivity. Qed.

(** *** The anchor after a fill that fails *)

(** C7 (what the code does): on a gzip file cut short after two bytes of
    data, a read takes the two bytes and leaves [pos == bufpos + (ptr - buf)]
    true; the next read fails in [cups_fill], which has moved [bufpos]
    past the buffer and returns without touching [ptr] and [end]: the
    buffer is still populated and the equation is false (2 against 2 + 2).
    [cupsFileSeek] to position 3, beyond the data, then finds the position
    inside the buffer and succeeds, and the next read hands out the
    second byte again. *)
Theorem C7_failed_fill_moves_anchor :
  let fp1 := snd (cupsFileRead (Sample.reader Sample.truncated) 2) in
  let fp2 := snd (cupsFileRead fp1 2) in
  fst (cupsFileRead (Sample.reader Sample.truncated) 2) = (2, [97; 98]) /\
  anchored fp1 /\
  fst (cupsFileRead fp1 2) = (-1, []) /\
  (pos fp2, bufpos fp2, ptr fp2, end_ fp2) = (2, 2, Some 2%nat, Some 2%nat) /\
  ~ anchored fp2 /\
  fst (cupsFileSeek fp2 3) = 3 /\
  fst (cupsFileRead (snd (cupsFileSeek fp2 3)) 1) = (1, [98]).
Proof.
  cbv zeta.
  split; [vm_compute; reflexivity|].
  split; [vm_compute; reflexivity|].
  split; [vm_compute; reflexivity|].
  split; [vm_compute; reflexivity|].
  split; [intros H; vm_compute in H; discriminate H|].
  split; vm_compute; reflexivity.
Qed.

(** *** Closing a compressed file *)


(** The file these calls and the close leave: the header, "abc" in a
    stored block, an empty last block and the trailer.  It reads back as
    "abc". *)
Example abc_written_closed :
  option_map (fun c => (cl_status c, f_out (cl_fd c))) (cupsFileClose 8 Sample.abc_written) =
  Some (true, gzip_header 0 ++ Stored.block false [97; 98; 99] ++ Stored.block true [] ++
              gzip_trailer (crc32 0 [97; 98; 99]) 3) /\
  fst (cupsFileRead
         (Sample.reader (gzip_header 0 ++ Stored.block false [97; 98; 99] ++
                         Stored.block true [] ++ gzip_trailer (crc32 0 [97; 98; 99]) 3)) 10) =
  (3, [97; 98; 99]).
Proof. split; vm_compute; reflexivity. Qed.

(** *** Configuration lines *)

Lemma C8_conf_directive_and_value_witness :
  exists c,
    cupsFileGetConf 1 (Sample.reader Sample.conf_text) 256 0 =
      Some (Some c, snd (cupsFileGets (Sample.reader Sample.conf_text) 256)) /\
    directive_of c = [107; 101; 121] /\
    value_of c = Some [118; 97; 108; 117; 101] /\
    conf_line c = 0 + 1.
Proof.
  apply (@C8_conf_directive_and_value _ _ Stored.zlib 0
           (Sample.reader Sample.conf_text)
           (snd (cupsFileGets (Sample.reader Sample.conf_text) 256)) 256 0
           [] [107; 101; 121] [32] [118; 97; 108; 117; 101]
           ([118; 97; 108; 117; 101] ++ [32] ++ 35 :: [32; 99; 111; 109; 109; 101; 110; 116])).
  - reflexivity.
  - lia.
  - vm_compute. reflexivity.
  - reflexivity.
  - reflexivity.
  - reflexivity.
  - discriminate.
  - reflexivity.
  - apply value_then_comment; [reflexivity|reflexivity|vm_compute; discriminate].
Defined.

(** The line "  key a\#b c": the directive is "key", the value "a#b c". *)
Example conf_escaped_line :
  option_map (fun r => option_map (fun c => (directive_of c, value_of c)) (fst r))
             (cupsFileGetConf 1 (Sample.reader Sample.conf_escaped) 256 0) =
  Some (Some ([107; 101; 121], Some [97; 35; 98; 32; 99])).
Proof. vm_compute. reflexivity. Qed.

(** C8 (against the claim): on the line "key a\#b # c" the comment is
    not stripped.  The first [#] has a backslash before it, so the
    backslash is removed and nothing else is looked for: the value is
    "a#b # c", where the claim has "a#b". *)
Theorem C8_escaped_hash_keeps_comment :
  option_map (fun r => option_map (fun c => (directive_of c, value_of c)) (fst r))
             (cupsFileGetConf 1 (Sample.reader Sample.conf_escaped_comment) 256 0) =
  Some (Some ([107; 101; 121], Some [97; 35; 98; 32; 35; 32; 99])).
Proof. vm_compute. reflexivity. Qed.

(** *** Formatted writes *)

(** C9 (what the code does): a text of 65536 characters makes
    [cupsFilePrintf] leave through [return (-1)], which a function
    declared [bool] turns into [true]; nothing is written, buffered or
    counted. *)
Theorem C9_oversized_printf_returns_true :
  option_map (fun r => (fst r, f_out (fd (snd r)), off (ptr (snd r)), pos (snd r)))
             (cupsFilePrintf 0 (Sample.writer ["w"%char] []) Sample.long_text) =
  Some (true, [], 0%nat, 0).
Proof. vm_compute. reflexivity. Qed.

(** *** Closing a compressed handle whose descriptor fails *)

(** On a descriptor whose second [write] fails, "a" is written and the
    handle closed: the header goes out, the write of the compression
    buffer in the drain loop fails, the trailer goes out.
    [cupsFileClose] returns [true] and the file holds the header and the
    trailer without the compressed data. *)
Example close_after_failed_drain :
  option_map (fun c => (cl_status c, f_out (cl_fd c)))
             (cupsFileClose 8 Sample.drain_fails) =
  Some (true, gzip_header 0 ++ gzip_trailer (crc32 0 [97]) 1).
Proof. vm_compute. reflexivity. Qed.

(** After 65536 bytes that do not compress the compression buffer is
    full, and one more byte waits in the buffer.  The flush that opens
    [cupsFileClose] has to write the compression buffer out first; this
    write fails: the close returns [false], gives the handle back and
    leaves the compressor set up. *)
Example close_after_failed_flush :
  option_map fst (cupsFileFlush 8 Sample.flush_fails) = Some false /\
  option_map (fun c => (cl_status c, cl_freed c, is_deflate (cl_zstate c)))
             (cupsFileClose 8 Sample.flush_fails) =
  Some (false, true, true).
Proof. split; vm_compute; reflexivity. Qed.

Lemma C5_close_after_failed_write_witness :
  exists res,
    cupsFileClose 8 Sample.drain_fails = Some res /\ cl_freed res = true /\
    cl_status res = negb (f_close_fails (cl_fd res)) /\ cl_zstate res = ZNone.
Proof.
  apply (@C5_close_after_failed_write _ _ Stored.zlib 8%nat Sample.drain_fails true
           (Sample.after (cupsFileFlush 8 Sample.drain_fails) Sample.drain_fails)).
  - reflexivity.
  - reflexivity.
  - reflexivity.
  - reflexivity.
  - vm_compute. reflexivity.
  - right. eexists. eexists. split; vm_compute; reflexivity.
Defined.

(** *** Interrupted reads *)

Lemma X2_cups_read_retries_witness :
  fst (cups_read Sample.interrupted 4) = (2, [104; 101]) /\
  snd (cups_read Sample.interrupted 4) =
    set_fd (dset_reads [] (dset_off 2 (fd Sample.interrupted))) Sample.interrupted.
Proof.
  apply (@X2_cups_read_retries _ _ Sample.interrupted 4%nat 2%nat [RdShort 2]).
  - reflexivity.
  - discriminate.
Defined.

(** *** Uncompressed files *)

Lemma reader_plain data :
  plain_from data 0 = true -> plain_at data 0 (Sample.reader data).
Proof. intros H. apply pass_plain; [apply reader_fresh|exact H]. Qed.

Lemma X3_getchar_peekchar_plain_witness :
  fst (cupsFilePeekChar (Sample.reader Sample.hello)) =
    fst (cupsFileGetChar (Sample.reader Sample.hello)) /\
  plain_at Sample.hello 0 (snd (cupsFilePeekChar (Sample.reader Sample.hello))) /\
  ((0 < length Sample.hello)%nat ->
   fst (cupsFileGetChar (Sample.reader Sample.hello)) = Z.land (nth 0 Sample.hello 0) 255 /\
   plain_at Sample.hello (0 + 1) (snd (cupsFileGetChar (Sample.reader Sample.hello))) /\
   cupsFileTell (snd (cupsFileGetChar (Sample.reader Sample.hello))) =
     cupsFileTell (Sample.reader Sample.hello) + 1) /\
  ((length Sample.hello <= 0)%nat ->
   fst (cupsFileGetChar (Sample.reader Sample.hello)) = -1 /\
   plain_at Sample.hello 0 (snd (cupsFileGetChar (Sample.reader Sample.hello)))).
Proof.
  apply (@X3_getchar_peekchar_plain _ _ Stored.zlib Sample.hello 0%nat
           (Sample.reader Sample.hello)).
  apply reader_plain. vm_compute. reflexivity.
Defined.

Lemma X4_read_plain_witness :
  fst (cupsFileRead (Sample.reader Sample.hello) 3) =
    ((if (3 =? 0)%nat || (0 <? length Sample.hello)%nat
      then Z.of_nat (length (firstn 3 (skipn 0 Sample.hello))) else -1),
     firstn 3 (skipn 0 Sample.hello)) /\
  plain_at Sample.hello (0 + length (firstn 3 (skipn 0 Sample.hello)))
    (snd (cupsFileRead (Sample.reader Sample.hello) 3)).
Proof.
  apply (@X4_read_plain _ _ Stored.zlib Sample.hello 0%nat (Sample.reader Sample.hello) 3%nat).
  apply reader_plain. vm_compute. reflexivity.
Defined.

Lemma X5_peek_then_get_witness :
  cupsFileTell (snd (cupsFilePeekChar (Sample.reader Sample.abc_gz))) =
    cupsFileTell (Sample.reader Sample.abc_gz) /\
  fst (cupsFileGetChar (snd (cupsFilePeekChar (Sample.reader Sample.abc_gz)))) =
    fst (cupsFilePeekChar (Sample.reader Sample.abc_gz)) /\
  cupsFileGetChar (snd (cupsFilePeekChar (Sample.reader Sample.abc_gz))) =
    cupsFileGetChar (Sample.reader Sample.abc_gz).
Proof.
  apply (@X5_peek_then_get _ _ Stored.zlib (Sample.reader Sample.abc_gz)).
  - reflexivity.
  - vm_compute. discriminate.
Defined.

Lemma X6_gets_line_ends_witness :
  fst (cupsFileGets (Sample.reader Sample.hello) 256) = Some [104; 101; 108; 108; 111] /\
  plain_at Sample.hello (0 + length [104; 101; 108; 108; 111] + length [10])
    (snd (cupsFileGets (Sample.reader Sample.hello) 256)).
Proof.
  apply (@X6_gets_line_ends _ _ Stored.zlib Sample.hello 0%nat (Sample.reader Sample.hello)
           256%nat [104; 101; 108; 108; 111] [10] []).
  - apply reader_plain. vm_compute. reflexivity.
  - reflexivity.
  - reflexivity.
  - reflexivity.
  - vm_compute. lia.
Defined.

Lemma X7_gets_cuts_long_line_witness :
  fst (cupsFileGets (Sample.reader Sample.hello) 4) = Some [104; 101; 108] /\
  plain_at Sample.hello (0 + length [104; 101; 108])
    (snd (cupsFileGets (Sample.reader Sample.hello) 4)).
Proof.
  apply (@X7_gets_cuts_long_line _ _ Stored.zlib Sample.hello 0%nat
           (Sample.reader Sample.hello) 4%nat [104; 101; 108] [108; 111; 10]).
  - apply reader_plain. vm_compute. reflexivity.
  - reflexivity.
  - reflexivity.
  - lia.
  - reflexivity.
Defined.

Lemma X8_gets_at_end_of_file_witness :
  fst (cupsFileGets (Sample.reader Sample.no_newline) 256) =
    (if (length (skipn 0 Sample.no_newline) =? 0)%nat then None
     else Some (skipn 0 Sample.no_newline)) /\
  plain_at Sample.no_newline (0 + length (skipn 0 Sample.no_newline))
    (snd (cupsFileGets (Sample.reader Sample.no_newline) 256)).
Proof.
  apply (@X8_gets_at_end_of_file _ _ Stored.zlib Sample.no_newline 0%nat
           (Sample.reader Sample.no_newline) 256%nat).
  - apply reader_plain. vm_compute. reflexivity.
  - reflexivity.
  - vm_compute. lia.
Defined.

Lemma X9_getline_keeps_terminator_witness :
  fst (cupsFileGetLine (Sample.reader Sample.hello) 256) =
    (Z.of_nat (length [104; 101; 108; 108; 111] + length [10]),
     [104; 101; 108; 108; 111] ++ [10]) /\
  plain_at Sample.hello (0 + length [104; 101; 108; 108; 111] + length [10])
    (snd (cupsFileGetLine (Sample.reader Sample.hello) 256)).
Proof.
  apply (@X9_getline_keeps_terminator _ _ Stored.zlib Sample.hello 0%nat
           (Sample.reader Sample.hello) 256%nat [104; 101; 108; 108; 111] [10] []).
  - apply reader_plain. vm_compute. reflexivity.
  - reflexivity.
  - reflexivity.
  - reflexivity.
  - vm_compute. lia.
Defined.

Lemma X10_seek_plain_witness :
  fst (cupsFileSeek (Sample.reader Sample.hello) 2) = 2 /\
  plain_at Sample.hello (Z.to_nat 2) (snd (cupsFileSeek (Sample.reader Sample.hello) 2)) /\
  cupsFileTell (snd (cupsFileSeek (Sample.reader Sample.hello) 2)) = 2.
Proof.
  apply (@X10_seek_plain _ _ Stored.zlib Sample.hello 0%nat (Sample.reader Sample.hello) 2).
  - apply reader_plain. vm_compute. reflexivity.
  - lia.
  - vm_compute. reflexivity.
  - right. left. vm_compute. lia.
Defined.

(** *** Uncompressed writing *)

Lemma X11_uncompressed_write_round_trip_witness :
  exists fp res,
    write_calls 8 Sample.plain_writer Sample.abc_calls = Some fp /\
    cupsFileTell fp =
      cupsFileTell Sample.plain_writer +
      Z.of_nat (length (concat (map call_bytes Sample.abc_calls))) /\
    cupsFileClose 8 fp = Some res /\
    f_out (cl_fd res) = f_out (sink []) ++ concat (map call_bytes Sample.abc_calls) /\
    f_closed (cl_fd res) = true /\
    cl_status res = negb (f_close_fails (sink [])).
Proof.
  apply (@X11_uncompressed_write_round_trip _ _ Stored.zlib (sink []) ["w"%char] 0
           Sample.plain_writer 8%nat Sample.abc_calls).
  - vm_compute. reflexivity.
  - reflexivity.
  - reflexivity.
  - simpl. tauto.
Defined.

Lemma X12_written_header_is_accepted_witness :
  exists fp',
    fill_header (Sample.reader Sample.abc_gz) = Next fp' /\
    compressed fp' = true /\ crc fp' = 0 /\
    window fp' =
      firstn (BUFSIZE - 10)
        (Stored.block true [97; 98; 99] ++ gzip_trailer (crc32 0 [97; 98; 99]) 3) /\
    fd fp' = dset_off (length (firstn BUFSIZE Sample.abc_gz))
               (fd (Sample.reader Sample.abc_gz)).
Proof.
  apply (@X12_written_header_is_accepted _ _ Stored.zlib Sample.abc_gz
           (Sample.reader Sample.abc_gz) 0
           (Stored.block true [97; 98; 99] ++ gzip_trailer (crc32 0 [97; 98; 99]) 3)).
  - apply reader_fresh.
  - reflexivity.
  - reflexivity.
Defined.

(** *** Configuration lines written and read *)

Lemma X13_putconf_writes_one_line_witness :
  exists fp fp' res,
    write_calls 8 Sample.plain_writer [] = Some fp /\
    cupsFilePutConf 8 fp Sample.key (Some Sample.a_hash_b) = Some (true, fp') /\
    cupsFileTell fp' =
      cupsFileTell fp +
      Z.of_nat (length (conf_written Sample.key (Some Sample.a_hash_b))) + 1 /\
    cupsFileClose 8 fp' = Some res /\
    f_out (cl_fd res) =
      f_out (sink []) ++ concat (map call_bytes []) ++
      conf_written Sample.key (Some Sample.a_hash_b) ++ [10].
Proof.
  apply (@X13_putconf_writes_one_line _ _ Stored.zlib (sink []) ["w"%char] 0
           Sample.plain_writer 8%nat [] Sample.key (Some Sample.a_hash_b)).
  - vm_compute. reflexivity.
  - reflexivity.
  - reflexivity.
  - simpl. tauto.
  - discriminate.
  - reflexivity.
Defined.

(** The line written for "key" and "a#b" is the file [conf_quoted]. *)
Example conf_quoted_written :
  conf_written Sample.key (Some Sample.a_hash_b) ++ [10] = Sample.conf_quoted.
Proof. reflexivity. Qed.

Lemma X14_getconf_reads_putconf_line_witness :
  exists c fp',
    cupsFileGetConf 1 (Sample.reader Sample.conf_quoted) 256 0 = Some (Some c, fp') /\
    directive_of c = Sample.key /\ value_of c = Some Sample.a_hash_b /\
    conf_line c = 0 + 1 /\
    plain_at Sample.conf_quoted
      (0 + length (conf_written Sample.key (Some Sample.a_hash_b)) + 1) fp'.
Proof.
  apply (@X14_getconf_reads_putconf_line _ _ Stored.zlib Sample.conf_quoted 0%nat
           (Sample.reader Sample.conf_quoted) 256%nat 0 Sample.key Sample.a_hash_b [] 0%nat).
  - apply reader_plain. vm_compute. reflexivity.
  - reflexivity.
  - reflexivity.
  - reflexivity.
  - reflexivity.
  - vm_compute. lia.
Defined.

Lemma X15_getconf_skips_blank_and_comment_witness :
  exists fp',
    plain_at Sample.conf_commented (0 + length [35; 32; 99] + length [10]) fp' /\
    cupsFileGetConf 2 (Sample.reader Sample.conf_commented) 256 0 =
    cupsFileGetConf 1 fp' 256 (0 + 1).
Proof.
  apply (@X15_getconf_skips_blank_and_comment _ _ Stored.zlib Sample.conf_commented 0%nat
           (Sample.reader Sample.conf_commented) 256%nat 0 [35; 32; 99] [10]
           [107; 101; 121; 32; 118; 10] 1%nat).
  - apply reader_plain. vm_compute. reflexivity.
  - reflexivity.
  - exists [], [35; 32; 99]. split; [reflexivity|]. split; [reflexivity|].
    right. exists [32; 99]. reflexivity.
  - reflexivity.
  - reflexivity.
  - vm_compute. lia.
Defined.

Lemma X16_getconf_name_without_value_witness :
  exists c fp',
    cupsFileGetConf 1 (Sample.reader Sample.conf_bare) 256 0 = Some (Some c, fp') /\
    directive_of c = Sample.key /\ value_of c = None /\ conf_line c = 0 + 1 /\
    plain_at Sample.conf_bare (0 + length ([] ++ Sample.key ++ [32]) + length [10]) fp'.
Proof.
  apply (@X16_getconf_name_without_value _ _ Stored.zlib Sample.conf_bare 0%nat
           (Sample.reader Sample.conf_bare) 256%nat 0 [] Sample.key [32] [10] [] 0%nat).
  - apply reader_plain. vm_compute. reflexivity.
  - reflexivity.
  - reflexivity.
  - reflexivity.
  - reflexivity.
  - reflexivity.
  - reflexivity.
  - vm_compute. lia.
Defined.

(** *** The trailer *)

Lemma X17_trailer_crc_round_trip_witness :
  trailer_crc (gzip_trailer 305419896 3) = 305419896.
Proof. apply (@X17_trailer_crc_round_trip 305419896 3). lia. Defined.

(** *** Formatted output *)

Lemma X18_printf_writes_whole_text_witness :
  exists fp fp' res,
    write_calls 8 Sample.plain_writer Sample.abc_calls = Some fp /\
    cupsFilePrintf 8 fp Sample.text_2000 = Some (true, fp') /\
    cupsFileTell fp' = cupsFileTell fp + Z.of_nat (length Sample.text_2000) /\
    cupsFileClose 8 fp' = Some res /\
    f_out (cl_fd res) =
      f_out (sink []) ++ concat (map call_bytes Sample.abc_calls) ++ Sample.text_2000.
Proof.
  apply (@X18_printf_writes_whole_text _ _ Stored.zlib (sink []) ["w"%char] 0
           Sample.plain_writer 8%nat Sample.abc_calls Sample.text_2000).
  - vm_compute. reflexivity.
  - reflexivity.
  - reflexivity.
  - simpl. tauto.
  - vm_compute. discriminate.
Defined.
